(** * Diet recommendation backend: a shallow embedding of [backend/app.py]

    The development follows the layout of the Python module:
    - [Json], [PyFloat]: the values a request body can hold and Python's
      [float()] builtin on them;
    - [Validator]: [REQUIRED_KEYS], [ALLOWED_VALUES] and [validate_request];
    - [Policy]: the two cluster dictionaries and their [.get] with default;
    - [Float64]: the arithmetic of the float columns;
    - [Pandas]: the part of the DataFrame API the module calls, over a store
      of frames so that [copy()] and in-place column assignment are told apart;
    - [Loader]: the cleaning loop of [load_models_and_data];
    - [Engine]: [get_cluster_recommendations];
    - [Numpy]: the sort [sort_values] runs when it is given no [kind];
    - [Reference]: instances of the library interface and sample data;
    - [Frames]: the frame each block of the engine and of the loader leaves
      behind, used to state the facts.

    The facts follow: [FrameFacts], [RunFacts], [EngineFacts], [SortFacts],
    then the properties of the engine ([EngineSpec]), of the policy tables
    ([PolicySpec]), of the validator ([ValidatorSpec]) and of the loader
    ([LoaderSpec]).

    Numbers: a finite float is represented by the rational it denotes, NaN by
    its own constructor.  Arithmetic on float columns rounds as [float64]
    does ([Float64]); an entry of a frame is never infinite, and the
    statements about computed scores say so where it matters. *)

From Stdlib Require Import ZArith QArith Qabs Qpower List Bool Lia Lqa Ascii.
From Stdlib Require String DecimalString.
From stdpp Require Import base option list gmap strings sorting.

Set Warnings "-register-all".

Local Open Scope Z_scope.

(* ===================================================================== *)
(** ** JSON values and Python's [float()] *)
(* ===================================================================== *)

Module Json.

(** A decoded request body ([request.get_json()]). Keys of an object are
    strings; a float is a rational or one of the three non-finite values
    that [json.loads] also accepts. *)
Inductive pyfloat :=
| Finite (q : Q)
| Infinity (negative : bool)
| NaN.

Inductive value :=
| JNull
| JBool (b : bool)
| JInt (z : Z)
| JFloat (x : pyfloat)
| JStr (s : string)
| JArr (l : list value)
| JObj (m : gmap string value).

(** Python truthiness, as used by [if not data]. *)
Definition truthy (v : value) : bool :=
  match v with
  | JNull => false
  | JBool b => b
  | JInt z => negb (Z.eqb z 0)
  | JFloat (Finite q) => negb (Qeq_bool q 0)
  | JFloat _ => true
  | JStr s => negb (String.eqb s "")
  | JArr l => match l with [] => false | _ => true end
  | JObj m => negb (bool_decide (m = ∅))
  end.

(** [value == s] for a Python [str] [s]: only a string equals a string. *)
Definition eq_str (v : value) (s : string) : bool :=
  match v with
  | JStr t => String.eqb t s
  | _ => false
  end.

(** [value in allowed_list] for a list of [str]. *)
Definition in_str_list (v : value) (l : list string) : bool :=
  existsb (eq_str v) l.

End Json.

Module PyFloat.
Import Json.

(** *** [float(str)]

    The grammar is the one of the language reference for [float()]:
    surrounding whitespace is ignored, an underscore may sit between two
    digits, the words [inf], [infinity] and [nan] are read without regard
    to case, and a decimal number may carry an exponent.

    A [str] is held as its UTF-8 bytes.  CPython leaves a string of ASCII
    characters as it is; in any other string it first replaces every
    character from U+007F on: Unicode white space by a space, a Unicode
    decimal digit by its ASCII digit, and at the first character that is
    neither it writes [?] and drops the rest, which no number survives.
    The white space it then strips is the ASCII one, tab to carriage
    return and the space. *)

Definition is_space (a : ascii) : bool :=
  match a with
  | "009" | "010" | "011" | "012" | "013" | " " => true
  | _ => false
  end%char.

(** The code points a UTF-8 byte string encodes.  A malformed sequence,
    which no [str] encodes to, is read as U+FFFD. *)
Fixpoint code_points (l : list ascii) : list N :=
  match l with
  | [] => []
  | b0 :: l1 =>
      let n0 := N_of_ascii b0 in
      if (n0 <? 128)%N then n0 :: code_points l1
      else if (n0 <? 192)%N then 65533%N :: code_points l1
      else if (n0 <? 224)%N then
        match l1 with
        | b1 :: l2 =>
            ((n0 mod 32) * 64 + N_of_ascii b1 mod 64)%N :: code_points l2
        | _ => [65533%N]
        end
      else if (n0 <? 240)%N then
        match l1 with
        | b1 :: b2 :: l3 =>
            ((n0 mod 16) * 4096 + (N_of_ascii b1 mod 64) * 64
             + N_of_ascii b2 mod 64)%N :: code_points l3
        | _ => [65533%N]
        end
      else
        match l1 with
        | b1 :: b2 :: b3 :: l4 =>
            ((n0 mod 8) * 262144 + (N_of_ascii b1 mod 64) * 4096
             + (N_of_ascii b2 mod 64) * 64 + N_of_ascii b3 mod 64)%N
            :: code_points l4
        | _ => [65533%N]
        end
  end.

(** [Py_UNICODE_ISSPACE] from U+007F on. *)
Definition is_unicode_space (cp : N) : bool :=
  (N.eqb cp 133 || N.eqb cp 160 || N.eqb cp 5760
   || (N.leb 8192 cp && N.leb cp 8202)
   || N.eqb cp 8232 || N.eqb cp 8233 || N.eqb cp 8239 || N.eqb cp 8287
   || N.eqb cp 12288)%bool.

(** The digit zero of every run of ten decimal digits beyond ASCII
    (general category Nd of Unicode 14.0, the table of CPython 3.11). *)
Definition decimal_zeros : list N :=
  [ 1632; 1776; 1984; 2406; 2534; 2662; 2790; 2918; 3046; 3174; 3302; 3430;
    3558; 3664; 3792; 3872; 4160; 4240; 6112; 6160; 6470; 6608; 6784; 6800;
    6992; 7088; 7232; 7248; 42528; 43216; 43264; 43472; 43504; 43600;
    44016; 65296; 66720; 68912; 69734; 69872; 69942; 70096; 70384; 70736;
    70864; 71248; 71360; 71472; 71904; 72016; 72784; 73040; 73120; 92768;
    92864; 93008; 120782; 120792; 120802; 120812; 120822; 123200; 123632;
    125264; 130032 ]%N.

(** [Py_UNICODE_TODECIMAL] *)
Definition decimal_digit (cp : N) : option N :=
  match find (λ z, (N.leb z cp && N.leb cp (z + 9))%bool) decimal_zeros with
  | Some z => Some (cp - z)%N
  | None => None
  end.

Fixpoint transformed (cps : list N) : list ascii :=
  match cps with
  | [] => []
  | cp :: rest =>
      if (cp <? 127)%N then ascii_of_N cp :: transformed rest
      else if is_unicode_space cp then " "%char :: transformed rest
      else
        match decimal_digit cp with
        | Some d => ascii_of_N (48 + d) :: transformed rest
        | None => ["?"%char]
        end
  end.

(** [_PyUnicode_TransformDecimalAndSpaceToASCII] *)
Definition to_ascii (l : list ascii) : list ascii :=
  if forallb (λ a, (N_of_ascii a <? 128)%N) l then l
  else transformed (code_points l).

Definition is_digit (a : ascii) : bool :=
  match a with
  | "0" | "1" | "2" | "3" | "4" | "5" | "6" | "7" | "8" | "9" => true
  | _ => false
  end%char.

Definition is_underscore (a : ascii) : bool := Ascii.eqb a "_".

Definition lower (a : ascii) : ascii :=
  let n := nat_of_ascii a in
  if (Nat.leb 65 n && Nat.leb n 90)%bool then ascii_of_nat (n + 32) else a.

Fixpoint lstrip (l : list ascii) : list ascii :=
  match l with
  | a :: l' => if is_space a then lstrip l' else l
  | [] => []
  end.

Definition strip (l : list ascii) : list ascii :=
  rev (lstrip (rev (lstrip l))).

(** An underscore is allowed only after a digit and only before a digit. *)
Fixpoint underscores_ok (prev : ascii) (l : list ascii) : bool :=
  match l with
  | [] => negb (is_underscore prev)
  | c :: l' =>
      (if is_underscore c then is_digit prev
       else negb (is_underscore prev) || is_digit c)
      && underscores_ok c l'
  end.

Definition drop_sign (l : list ascii) : list ascii :=
  match l with
  | a :: l' => if (Ascii.eqb a "+" || Ascii.eqb a "-")%bool then l' else l
  | [] => []
  end.

Fixpoint span_digits (l : list ascii) : nat * list ascii :=
  match l with
  | a :: l' =>
      if is_digit a then let '(n, r) := span_digits l' in (S n, r)
      else (O, l)
  | [] => (O, [])
  end.

Definition is_exp_mark (a : ascii) : bool :=
  (Ascii.eqb a "e" || Ascii.eqb a "E")%bool.

(** [digits [. digits] | . digits], then an optional exponent; the whole
    input has to be consumed. *)
Definition decimal_ok (l : list ascii) : bool :=
  let '(n1, r1) := span_digits l in
  let '(n2, r2) :=
    match r1 with
    | a :: r => if Ascii.eqb a "." then span_digits r else (O, r1)
    | [] => (O, r1)
    end in
  if Nat.eqb (n1 + n2) 0 then false
  else
    match r2 with
    | [] => true
    | e :: r3 =>
        if is_exp_mark e then
          let '(n3, r4) := span_digits (drop_sign r3) in
          (negb (Nat.eqb n3 0) && match r4 with [] => true | _ => false end)%bool
        else false
    end.

Inductive literal := LitNumber | LitInfinity | LitNaN.

Definition word (l : list ascii) : string :=
  String.string_of_list_ascii (map lower l).

Definition classify (l : list ascii) : option literal :=
  let body := drop_sign l in
  let w := word body in
  if (String.eqb w "inf" || String.eqb w "infinity")%bool then Some LitInfinity
  else if String.eqb w "nan" then Some LitNaN
  else if decimal_ok body then Some LitNumber
  else None.

Definition of_string (s : string) : option literal :=
  let l := to_ascii (String.list_ascii_of_string s) in
  if existsb is_underscore l then
    if underscores_ok "000"%char l
    then classify (strip (filter (fun a => negb (is_underscore a)) l))
    else None
  else classify (strip l).

(** *** [float(x)] on a decoded JSON value *)

Inductive outcome :=
| Converted
| ValueError
| TypeError
| OverflowError.

(** An [int] converts unless it rounds beyond the largest double. *)
Definition int_fits (z : Z) : bool := Z.ltb (Z.abs z) (2 ^ 1024 - 2 ^ 970).

Definition float_ (v : value) : outcome :=
  match v with
  | JNull => TypeError
  | JBool _ => Converted
  | JInt z => if int_fits z then Converted else OverflowError
  | JFloat _ => Converted
  | JStr s => match of_string s with Some _ => Converted | None => ValueError end
  | JArr _ => TypeError
  | JObj _ => TypeError
  end.

End PyFloat.

(* ===================================================================== *)
(** ** Request validation *)
(* ===================================================================== *)

Module Validator.
Import Json.

Definition REQUIRED_KEYS : list string :=
  [ "Age"; "BMI"; "Chronic_Disease"; "Blood_Pressure_Systolic";
    "Blood_Sugar_Level"; "Daily_Steps"; "Exercise_Frequency";
    "Alcohol_Consumption"; "Smoking_Habit"; "Dietary_Habits" ].

(** A Python [dict] literal, kept in insertion order because
    [validate_request] iterates over [.items()]. *)
Definition ALLOWED_VALUES : list (string * list string) :=
  [ ("Chronic_Disease",
     ["None"; "Diabetes"; "Heart Disease"; "Hypertension"; "Obesity"]);
    ("Alcohol_Consumption", ["No"; "Yes"]);
    ("Smoking_Habit", ["No"; "Yes"]);
    ("Dietary_Habits", ["Regular"; "Vegetarian"; "Vegan"; "Keto"]) ].

Definition numeric_fields : list string :=
  [ "Age"; "BMI"; "Blood_Pressure_Systolic"; "Blood_Sugar_Level";
    "Daily_Steps"; "Exercise_Frequency" ].

(** The second component of the returned tuple.  The Python value is a dict
    with an ["error"] message and an ["allowed"] hint; a constructor stands
    for the message template and carries the values interpolated into it. *)
Inductive error_response :=
| NoData
| MissingKeys (keys : list string)
| UnexpectedKeys (keys : list string)
| InvalidValue (key : string) (v : value) (allowed : list string)
| NotANumber (field : string).

(** Exceptions that leave [validate_request]: [.keys()] on a body that is not
    a dict, and [float()] of an [int] too large for a double, which the
    [except (ValueError, TypeError)] clause does not catch. *)
Inductive raised :=
| AttributeError
| OverflowError.

Definition result : Type := bool * option error_response * Z.

(** [sorted(s)] for a set of [str]: code-point order, which on UTF-8 bytes
    is the lexicographic byte order. *)
Definition sorted (s : gset string) : list string :=
  merge_sort String.le (elements s).

(** [for key, allowed_list in ALLOWED_VALUES.items(): ...] *)
Fixpoint check_categorical (data : gmap string value)
    (items : list (string * list string)) : option error_response :=
  match items with
  | [] => None
  | (key, allowed_list) :: rest =>
      match data !! key with
      | Some v =>
          if in_str_list v allowed_list then check_categorical data rest
          else Some (InvalidValue key v allowed_list)
      | None => check_categorical data rest
      end
  end.

(** [for field in numeric_fields: ... float(data[field]) ...] *)
Fixpoint check_numeric (data : gmap string value)
    (fields : list string) : raised + option error_response :=
  match fields with
  | [] => inr None
  | field :: rest =>
      match data !! field with
      | Some v =>
          match PyFloat.float_ v with
          | PyFloat.Converted => check_numeric data rest
          | PyFloat.ValueError | PyFloat.TypeError => inr (Some (NotANumber field))
          | PyFloat.OverflowError => inl OverflowError
          end
      | None => check_numeric data rest
      end
  end.

Definition validate_request (data : value) : raised + result :=
  if negb (truthy data) then inr (false, Some NoData, 400)
  else
    match data with
    | JObj m =>
        let received_keys : gset string := dom m in
        let required_keys_set : gset string := list_to_set REQUIRED_KEYS in
        let missing_keys := required_keys_set ∖ received_keys in
        if negb (bool_decide (missing_keys = ∅))
        then inr (false, Some (MissingKeys (sorted missing_keys)), 400)
        else
          let extra_keys := received_keys ∖ required_keys_set in
          if negb (bool_decide (extra_keys = ∅))
          then inr (false, Some (UnexpectedKeys (sorted extra_keys)), 400)
          else
            match check_categorical m ALLOWED_VALUES with
            | Some e => inr (false, Some e, 400)
            | None =>
                match check_numeric m numeric_fields with
                | inl x => inl x
                | inr (Some e) => inr (false, Some e, 400)
                | inr None => inr (true, None, 200)
                end
            end
    | _ => inl AttributeError
    end.

End Validator.

(* ===================================================================== *)
(** ** Cluster policy tables *)
(* ===================================================================== *)

Module Policy.

Definition CLUSTER_PROFILE : gmap Z string :=
  list_to_map
    [ (0, "Prediabetic, Active Profile");
      (1, "Older, Active Diabetic Profile");
      (2, "Active Diabetic with High Blood Pressure");
      (3, "Low-Activity Diabetic with Very High Blood Sugar");
      (4, "Active Walker with High Blood Pressure");
      (5, "High BMI (Obese) with Diabetes") ].

Definition CLUSTER_RECOMMENDATION_TYPE : gmap Z string :=
  list_to_map
    [ (0, "Low-Carb Foods");
      (1, "Low-Carb Foods");
      (2, "Low-Fat Foods");
      (3, "Low-Carb Foods");
      (4, "Low-Fat Foods");
      (5, "Balanced (Low-Calorie) Foods") ].

(** [d.get(k, default)] *)
Definition dict_get {V} (d : gmap Z V) (k : Z) (dflt : V) : V :=
  default dflt (d !! k).

(** [str(n)] for an integer, as interpolated by an f-string. *)
Definition str_int (n : Z) : string := DecimalString.NilZero.string_of_int (Z.to_int n).

(** Lines 168-174 of [get_cluster_recommendations]. *)
Definition profile_name (user_cluster : Z) : string :=
  dict_get CLUSTER_PROFILE user_cluster ("Cluster " +:+ str_int user_cluster).

Definition recommendation_type (user_cluster : Z) : string :=
  dict_get CLUSTER_RECOMMENDATION_TYPE user_cluster "Balanced (Low-Calorie) Foods".

End Policy.

(* ===================================================================== *)
(** ** Arithmetic on [float64] *)
(* ===================================================================== *)

Module Float64.

(** A finite double is the rational it denotes.  Every operation returns
    the double nearest to the exact result, a tie going to the neighbour
    with the even significand (IEEE 754 round-to-nearest-even), with
    53 significant bits and gradual underflow down to [2^-1074].

    A rational that is not a double stands for the double nearest to it,
    as the decimal [2.8] does in a Python literal or in a CSV file: the
    operations round their arguments first, which leaves a double as it
    is.  The sign of zero is not kept.

    The exponent is not bounded above.  Where the IEEE operation overflows
    to an infinity, the result here is a rational beyond [max_float];
    [is_finite] tells the two cases apart, and what is stated about
    computed values is stated where every value of the computation is
    finite. *)

Definition pow2 (e : Z) : Q := (2 ^ e)%Q.

(** The [e] with [2^e <= |q| < 2^(e+1)], for [q] other than zero. *)
Definition exponent (q : Q) : Z :=
  let e := (Z.log2 (Z.abs (Qnum q)) - Z.log2 (Zpos (Qden q)))%Z in
  if Qle_bool (pow2 e) (Qabs q) then e else (e - 1)%Z.

(** The integer nearest to [n / d] for [0 <= n], the even one at a tie. *)
Definition nearest_even (n : Z) (d : positive) : Z :=
  let k := (n / Zpos d)%Z in
  match (2 * (n mod Zpos d) ?= Zpos d)%Z with
  | Lt => k
  | Gt => (k + 1)%Z
  | Eq => if Z.even k then k else (k + 1)%Z
  end.

Definition nearest (a : Q) : Z := nearest_even (Qnum a) (Qden a).

(** The exponent of the last place of the doubles around [q]. *)
Definition ulp_exponent (q : Q) : Z := Z.max (exponent q - 52) (-1074).

(** The multiple of [2^ulp_exponent] nearest to [q], in lowest terms. *)
Definition round (q : Q) : Q :=
  if Qeq_bool q 0 then 0%Q
  else
    let x := ulp_exponent q in
    let r := (inject_Z (nearest (Qabs q * pow2 (- x))) * pow2 x)%Q in
    Qred (if Qle_bool 0 q then r else (- r)%Q).

(** The largest double, [(2^53 - 1) * 2^971]. *)
Definition max_float : Q := inject_Z (2 ^ 1024 - 2 ^ 971).

Definition is_finite (q : Q) : bool := Qle_bool (Qabs q) max_float.

(** [a * b], [a / b] for [b] other than zero, and [a - b]. *)
Definition mul (a b : Q) : Q := round (round a * round b).
Definition div (a b : Q) : Q := round (round a / round b).
Definition sub (a b : Q) : Q := round (round a - round b).

End Float64.

(* ===================================================================== *)
(** ** The DataFrame operations the module calls *)
(* ===================================================================== *)

Module Pandas.

(** One entry of a frame: a float, the missing value, or a Python [str]. *)
Inductive cell :=
| Num (q : Q)
| NaN
| Str (s : string).

(** A frame lists its column labels and holds its rows in order; a row maps
    a label to its entry, and an entry that is absent reads as [NaN].
    Column labels are distinct, as [pd.read_csv] makes them.  Index labels
    are not kept: every column expression below is assigned back to the
    frame it was read from, so rows are aligned by position. *)
Record DataFrame := mk_frame {
  columns : list string;
  rows : list (gmap string cell)
}.

(** What the library is left to decide.
    - [to_float]: the float a string parses to under [pd.to_numeric], or
      [None] when it does not parse (NaN under [errors='coerce']);
    - [float_str]: [str(x)] of a float, as [astype(str)] renders it;
    - [argsort]: [ndarray.argsort(kind='quicksort')], given as the
      rearrangement of the items it induces, smallest key first. *)
Class Impl := {
  to_float : string → option Q;
  float_str : Q → string;
  argsort : ∀ {A : Type}, (A → Q) → list A → list A
}.

(** The documented contract of a sort: the items are rearranged, and keys
    do not decrease along the result.  Nothing is said about equal keys. *)
Definition sort_contract (I : Impl) : Prop :=
  ∀ (A : Type) (key : A → Q) (l : list A),
    argsort key l ≡ₚ l ∧
    Sorted (λ x y, (key x <= key y)%Q) (argsort key l).

(** *** Entries and column expressions *)

Definition get (r : gmap string cell) (c : string) : cell :=
  default NaN (r !! c).

Definition is_str (x : cell) : bool :=
  match x with Str _ => true | _ => false end.

Definition is_nan (x : cell) : bool :=
  match x with NaN => true | _ => false end.

(** A column expression ([df[c]], [df[c] * 2], ...) is evaluated row by row
    when it is assigned. *)
Definition Series : Type := gmap string cell → cell.

Definition to_numeric_cell `{Impl} (x : cell) : cell :=
  match x with
  | Str s => match to_float s with Some q => Num q | None => NaN end
  | _ => x
  end.

(** [pd.to_numeric(s, errors='coerce')] *)
Definition to_numeric `{Impl} (s : Series) : Series :=
  λ r, to_numeric_cell (s r).

Definition fillna_cell (v : Q) (x : cell) : cell :=
  match x with NaN => Num v | _ => x end.

(** [s.fillna(v)] *)
Definition fillna (v : Q) (s : Series) : Series :=
  λ r, fillna_cell v (s r).

Definition astype_str_cell `{Impl} (x : cell) : string :=
  match x with
  | Str s => s
  | NaN => "nan"
  | Num q => float_str q
  end.

(** [s.astype(str)] *)
Definition astype_str `{Impl} (s : Series) : Series :=
  λ r, Str (astype_str_cell (s r)).

(** [str.replace(old, new)] for a one-character [old]; both calls in the
    module pass one. *)
Fixpoint replace_char (old : ascii) (new : string) (s : string) : string :=
  match s with
  | EmptyString => EmptyString
  | String a s' =>
      if Ascii.eqb a old then new +:+ replace_char old new s'
      else String a (replace_char old new s')
  end.

(** [s.str.replace(old, new, regex=False)]; an entry that is not a string
    comes out missing. *)
Definition str_replace (old : ascii) (new : string) (s : Series) : Series :=
  λ r, match s r with
       | Str t => Str (replace_char old new t)
       | _ => NaN
       end.

(** Arithmetic on float columns, entry by entry in [float64]; NaN
    propagates.  It is only applied to columns that have been turned into
    floats first, and [div] only with the constant 50. *)
Definition lift2 (op : Q → Q → Q) (x y : cell) : cell :=
  match x, y with
  | Num a, Num b => Num (op a b)
  | _, _ => NaN
  end.

Definition mul (s : Series) (k : Q) : Series :=
  λ r, lift2 Float64.mul (s r) (Num k).
Definition div (s : Series) (k : Q) : Series :=
  λ r, lift2 Float64.div (s r) (Num k).
Definition sub (s t : Series) : Series :=
  λ r, lift2 Float64.sub (s r) (t r).

(** [s == n] for an integer [n]: a boolean mask. *)
Definition eq_int (s : Series) (n : Z) : gmap string cell → bool :=
  λ r, match s r with
       | Num q => Qeq_bool q (inject_Z n)
       | _ => false
       end.

(** *** Frames as values *)

Definition has_column (df : DataFrame) (c : string) : bool :=
  bool_decide (c ∈ columns df).

(** [df[c] = s]: the label is appended when it is new. *)
Definition assign (c : string) (s : Series) (df : DataFrame) : DataFrame :=
  {| columns := if has_column df c then columns df else columns df ++ [c];
     rows := map (λ r, <[c := s r]> r) (rows df) |}.

(** [df[cols] = df[cols].fillna(v)] *)
Definition fillna_columns (v : Q) (cols : list string) (df : DataFrame) : DataFrame :=
  foldl (λ d c, assign c (fillna v (λ r, get r c)) d) df cols.

(** [df[mask]] *)
Definition mask_rows (mask : gmap string cell → bool) (df : DataFrame) : DataFrame :=
  {| columns := columns df; rows := filter (λ r, mask r = true) (rows df) |}.

(** [df[cols]] for a list of labels *)
Definition project (cols : list string) (df : DataFrame) : DataFrame :=
  {| columns := cols;
     rows := map (λ r, list_to_map (map (λ c, (c, get r c)) cols)) (rows df) |}.

(** [df.head(n)] *)
Definition head_rows (n : nat) (df : DataFrame) : DataFrame :=
  {| columns := columns df; rows := take n (rows df) |}.

Definition float_key (by_ : string) (r : gmap string cell) : Q :=
  match get r by_ with Num q => q | _ => 0%Q end.

(** [df.sort_values(by=c, ascending=False)] on a float column, the way
    pandas arranges it: rows with a missing key are set aside and come
    last; the others are reversed, sorted ascending with [argsort], and
    reversed again. *)
Definition sort_desc `{Impl} (by_ : string) (df : DataFrame) : DataFrame :=
  let keyed := filter (λ r, is_nan (get r by_) = false) (rows df) in
  let unkeyed := filter (λ r, is_nan (get r by_) = true) (rows df) in
  {| columns := columns df;
     rows := rev (argsort (float_key by_) (rev keyed)) ++ unkeyed |}.

(** *** The store of frames

    A Python variable holds a reference.  [copy()], [df[mask]],
    [sort_values], [head] and [df[cols]] build a new object;
    [df[c] = ...] changes the object the variable refers to. *)

Abbreviation loc := nat (only parsing).
Abbreviation store := (list DataFrame) (only parsing).

Inductive exn :=
| KeyError
| TypeError
| Unbound.

Definition M (A : Type) : Type := store → exn + (A * store).

Definition ret {A} (a : A) : M A := λ h, inr (a, h).

Definition bind {A B} (m : M A) (k : A → M B) : M B :=
  λ h, match m h with
       | inl e => inl e
       | inr (a, h') => k a h'
       end.

Definition raise {A} (e : exn) : M A := λ _, inl e.

Declare Scope frame_scope.
Notation "'do' x <- m ; k" := (bind m (λ x, k))
  (at level 10, x name, m at level 100, k at level 200) : frame_scope.
Notation "m ;; k" := (bind m (λ _, k))
  (at level 100, k at level 200, right associativity) : frame_scope.
Local Open Scope frame_scope.

Fixpoint for_ {A} (l : list A) (body : A → M unit) : M unit :=
  match l with
  | [] => ret tt
  | x :: l' => body x ;; for_ l' body
  end.

Definition read (l : loc) : M DataFrame :=
  λ h, match h !! l with
       | Some df => inr (df, h)
       | None => inl Unbound
       end.

Definition new (df : DataFrame) : M loc :=
  λ h, inr (length h, h ++ [df]).

Definition write (l : loc) (df : DataFrame) : M unit :=
  λ h, match h !! l with
       | Some _ => inr (tt, <[l := df]> h)
       | None => inl Unbound
       end.

(** [df.copy()] *)
Definition copy (l : loc) : M loc :=
  do df <- read l; new df.

(** [c in df.columns] *)
Definition contains (l : loc) (c : string) : M bool :=
  do df <- read l; ret (has_column df c).

(** [len(df)] *)
Definition len (l : loc) : M nat :=
  do df <- read l; ret (length (rows df)).

(** [df[c]] read as a column *)
Definition column (l : loc) (c : string) : M Series :=
  do df <- read l;
  if has_column df c then ret (λ r, get r c) else raise KeyError.

(** [df[c].dtype == 'object']: the column holds Python objects, which for
    a frame read from a CSV file means that some entry is a string. *)
Definition dtype_is_object (l : loc) (c : string) : M bool :=
  do df <- read l;
  if has_column df c then ret (existsb (λ r, is_str (get r c)) (rows df))
  else raise KeyError.

(** [df[c] = s] *)
Definition setitem (l : loc) (c : string) (s : Series) : M unit :=
  do df <- read l; write l (assign c s df).

(** [df[cols] = df[cols].fillna(v)] *)
Definition fillna_inplace (l : loc) (cols : list string) (v : Q) : M unit :=
  do df <- read l;
  if forallb (has_column df) cols then write l (fillna_columns v cols df)
  else raise KeyError.

(** [df[mask]] *)
Definition getitem_mask (l : loc) (mask : gmap string cell → bool) : M loc :=
  do df <- read l; new (mask_rows mask df).

(** [df[cols]] *)
Definition getitem_list (l : loc) (cols : list string) : M loc :=
  do df <- read l;
  if forallb (has_column df) cols then new (project cols df)
  else raise KeyError.

(** [df.head(n)] *)
Definition head (l : loc) (n : nat) : M loc :=
  do df <- read l; new (head_rows n df).

(** [df.sort_values(by=c, ascending=False)]; only float keys are covered,
    a string among them is reported as the [TypeError] pandas raises when
    it compares a float with a [str]. *)
Definition sort_values `{Impl} (l : loc) (by_ : string) : M loc :=
  do df <- read l;
  if has_column df by_ then
    if existsb (λ r, is_str (get r by_)) (rows df) then raise TypeError
    else new (sort_desc by_ df)
  else raise KeyError.

End Pandas.

(* ===================================================================== *)
(** ** Cleaning the food table at start-up *)
(* ===================================================================== *)

Module Loader.
Import Pandas.
Local Open Scope frame_scope.

Definition numeric_cols : list string :=
  [ "Grams"; "Calories"; "Protein"; "Fat"; "Sat.Fat"; "Fiber"; "Carbs" ].

(** Body of the loop at lines 134-138. *)
Definition clean_column `{Impl} (food_df : loc) (col : string) : M unit :=
  do present <- contains food_df col;
  do is_object <- (if present then dtype_is_object food_df col else ret false);
  if is_object then
    (do s <- column food_df col;
     setitem food_df col (str_replace "t" "0" (astype_str s)));;
    (do s <- column food_df col;
     setitem food_df col (str_replace "," "" (astype_str s)));;
    (do s <- column food_df col;
     setitem food_df col (to_numeric s))
  else ret tt.

(** Lines 132-141 of [load_models_and_data]: the loop, then [fillna(0)] over
    all seven columns.  [food_df] is the frame [pd.read_csv] returned; an
    exception raised here is the one the function catches to return
    [False]. *)
Definition clean_food_df `{Impl} (food_df : loc) : M unit :=
  for_ numeric_cols (clean_column food_df);;
  fillna_inplace food_df numeric_cols 0.

End Loader.

(* ===================================================================== *)
(** ** The recommendation engine *)
(* ===================================================================== *)

Module Engine.
Import Pandas.
Local Open Scope frame_scope.

Definition numeric_cols : list string := [ "Protein"; "Fat"; "Calories" ].

Definition required_fields : list string :=
  [ "Food"; "Category"; "Protein"; "Fat"; "Carbs"; "Calories" ].

Definition numeric_fields : list string :=
  [ "Protein"; "Fat"; "Carbs"; "Calories" ].

(** Lines 176-189: the working copy, filtered by cluster when the table has
    a [Cluster] column, and a fresh copy of the whole table when the filter
    leaves nothing. *)
Definition select_candidates `{Impl} (food_df : loc) (user_cluster : Z) : M loc :=
  do working_df <- copy food_df;
  do has_cluster <- contains working_df "Cluster";
  if has_cluster then
    (do s <- column working_df "Cluster";
     setitem working_df "Cluster" (to_numeric s));;
    do s <- column working_df "Cluster";
    do working_df <- getitem_mask working_df (eq_int s user_cluster);
    do n <- len working_df;
    if Nat.eqb n 0 then copy food_df else ret working_df
  else ret working_df.

(** Body of the loop at lines 193-198. *)
Definition ensure_numeric `{Impl} (working_df : loc) (col : string) : M unit :=
  do present <- contains working_df col;
  if negb present then setitem working_df col (λ _, Num 0)
  else
    do s <- column working_df col;
    setitem working_df col (to_numeric s).

(** Lines 191-209. *)
Definition score_candidates `{Impl} (working_df : loc) : M unit :=
  for_ numeric_cols (ensure_numeric working_df);;
  fillna_inplace working_df numeric_cols 0;;
  do protein <- column working_df "Protein";
  do fat <- column working_df "Fat";
  do calories <- column working_df "Calories";
  setitem working_df "score"
    (sub (sub (mul protein 2) (mul fat (3 # 2))) (div calories 50)).

(** Lines 211-212. *)
Definition rank `{Impl} (working_df : loc) : M loc :=
  do sorted_df <- sort_values working_df "score";
  head sorted_df 10.

(** Body of the loop at lines 218-223. *)
Definition ensure_field (recommended_foods : loc) (field : string) : M unit :=
  do present <- contains recommended_foods field;
  if negb present then
    if bool_decide (field ∈ ["Protein"; "Fat"; "Carbs"; "Calories"])
    then setitem recommended_foods field (λ _, Num 0)
    else setitem recommended_foods field (λ _, Str "")
  else ret tt.

(** Lines 226-227 and the body of the loop at lines 234-236. *)
Definition clean_field `{Impl} (recommended_foods : loc) (field : string) : M unit :=
  do present <- contains recommended_foods field;
  if present then
    do s <- column recommended_foods field;
    setitem recommended_foods field (fillna 0 (to_numeric s))
  else ret tt.

(** Lines 214-236. *)
Definition project_fields `{Impl} (recommended_foods : loc) : M loc :=
  for_ required_fields (ensure_field recommended_foods);;
  clean_field recommended_foods "Carbs";;
  do selected <- getitem_list recommended_foods required_fields;
  do recommended_foods <- copy selected;
  for_ numeric_fields (clean_field recommended_foods);;
  ret recommended_foods.

(** [food_df] is the module-level variable; the function only reads it. *)
Definition get_cluster_recommendations `{Impl} (food_df : loc) (user_cluster : Z)
  : M (string * string * loc) :=
  let profile_name := Policy.profile_name user_cluster in
  let recommendation_type := Policy.recommendation_type user_cluster in
  do working_df <- select_candidates food_df user_cluster;
  score_candidates working_df;;
  do recommended_foods <- rank working_df;
  do recommended_foods <- project_fields recommended_foods;
  ret (profile_name, recommendation_type, recommended_foods).

End Engine.

(* ===================================================================== *)
(** ** The routes that answer a request *)
(* ===================================================================== *)

Module PyValue.
Import Json.

(** The value [float(str)] returns, for the strings [PyFloat.of_string]
    accepts: the double nearest to the rational a decimal literal denotes,
    an infinity when that is beyond the largest double, or the value the
    words [inf], [infinity] and [nan] stand for. *)

Fixpoint digits_value (acc : Z) (l : list ascii) : Z :=
  match l with
  | [] => acc
  | a :: l' =>
      if PyFloat.is_digit a
      then digits_value (10 * acc + (Z.of_nat (nat_of_ascii a) - 48)) l'
      else acc
  end.

Definition is_minus (l : list ascii) : bool :=
  match l with
  | a :: _ => Ascii.eqb a "-"
  | [] => false
  end.

Definition decimal_value (l : list ascii) : Q :=
  let '(n1, r1) := PyFloat.span_digits l in
  let whole := take n1 l in
  let '(frac, r2) :=
    match r1 with
    | a :: r =>
        if Ascii.eqb a "."
        then let '(n2, r') := PyFloat.span_digits r in (take n2 r, r')
        else ([], r1)
    | [] => ([], r1)
    end in
  let exponent :=
    match r2 with
    | _ :: r3 =>
        let e := digits_value 0 (PyFloat.drop_sign r3) in
        if is_minus r3 then (- e)%Z else e
    | [] => 0%Z
    end in
  (inject_Z (digits_value 0 (whole ++ frac))
   * Qpower 10 (exponent - Z.of_nat (length frac)))%Q.

Definition prepared (s : string) : list ascii :=
  PyFloat.strip
    (filter (λ a, negb (PyFloat.is_underscore a))
       (PyFloat.to_ascii (String.list_ascii_of_string s))).

Definition float_of_string (s : string) : option pyfloat :=
  match PyFloat.of_string s with
  | None => None
  | Some PyFloat.LitNaN => Some NaN
  | Some PyFloat.LitInfinity => Some (Infinity (is_minus (prepared s)))
  | Some PyFloat.LitNumber =>
      let q := Float64.round (decimal_value (PyFloat.drop_sign (prepared s))) in
      if Float64.is_finite q
      then Some (Finite (if is_minus (prepared s) then Qopp q else q))
      else Some (Infinity (is_minus (prepared s)))
  end.

End PyValue.

Module Routes.
Import Json Pandas.
Local Open Scope frame_scope.

(** The module-level variables.  Of the two scikit-learn objects only what
    [recommend] asks of them is kept: [preprocessor.transform] maps the
    selected feature values to a numeric vector and [model.predict] maps
    that vector to a cluster number; [None] as a result stands for an
    exception raised by the call. *)
Record Globals := {
  model : option (list Q → option Z);
  preprocessor : option (list value → option (list Q));
  features_list : list string;
  food_df : option nat
}.

Definition field_types : list (string * string) :=
  [ ("Age", "number (integer)");
    ("BMI", "number (float)");
    ("Chronic_Disease", "string (categorical)");
    ("Blood_Pressure_Systolic", "number (integer)");
    ("Blood_Sugar_Level", "number (integer)");
    ("Daily_Steps", "number (integer)");
    ("Exercise_Frequency", "number (integer)");
    ("Alcohol_Consumption", "string (categorical)");
    ("Smoking_Habit", "string (categorical)");
    ("Dietary_Habits", "string (categorical)") ].

(** The JSON bodies the routes send.  An error body is named after its
    message; [Rejected] carries what [validate_request] returned. *)
Inductive body :=
| Schema (required_keys : list string)
    (allowed_values : list (string * list string))
    (types : list (string * string))
| ModelsNotLoaded
| Rejected (e : option Validator.error_response)
| InvalidFeature
| Recommendations (profile_name recommendation_type : string)
    (recommended_foods : list (gmap string value))
| ErrorDuringRecommendation.

(** [api_schema] *)
Definition api_schema : body * Z :=
  (Schema Validator.REQUIRED_KEYS Validator.ALLOWED_VALUES field_types, 200).

(** An entry of a frame as [to_dict('records')] hands it over. *)
Definition to_python (x : cell) : value :=
  match x with
  | Num q => JFloat (Finite q)
  | Pandas.NaN => JFloat Json.NaN
  | Str s => JStr s
  end.

(** [0 if pd.isna(food[key]) else float(food[key])]; [None] when [float]
    raises. *)
Definition format_number (x : cell) : option value :=
  match x with
  | Pandas.NaN => Some (JInt 0)
  | Num q => Some (JFloat (Finite q))
  | Str s => JFloat <$> PyValue.float_of_string s
  end.

(** One round of the outer loop at lines 466-471, on one record. *)
Fixpoint format_food (keys : list string) (food : gmap string value)
    (source : gmap string cell) : option (gmap string value) :=
  match keys with
  | [] => Some food
  | key :: keys' =>
      match format_number (get source key) with
      | Some v => format_food keys' (<[key := v]> food) source
      | None => None
      end
  end.

Definition record_of (cols : list string) (r : gmap string cell) : gmap string value :=
  list_to_map (map (λ c, (c, to_python (get r c))) cols).

Fixpoint format_foods (rows : list (gmap string cell)) : option (list (gmap string value)) :=
  match rows with
  | [] => Some []
  | r :: rows' =>
      match format_food Engine.numeric_fields (record_of Engine.required_fields r) r with
      | Some food =>
          match format_foods rows' with
          | Some foods => Some (food :: foods)
          | None => None
          end
      | None => None
      end
  end.

(** Lines 460-463: the engine, then the six columns as a list of records. *)
Definition recommended_records `{Impl} (catalog : nat) (user_cluster : Z)
  : M (string * string * list (gmap string cell)) :=
  do result <- Engine.get_cluster_recommendations catalog user_cluster;
  do selected <- getitem_list result.2 Engine.required_fields;
  do df <- read selected;
  ret (result.1.1, result.1.2, rows df).

(** [recommend], given the decoded body of the request.  Every exception
    is caught by the outer [except Exception] and answered with status 500;
    frames built before an exception are dropped with it. *)
Definition recommend `{Impl} (g : Globals) (data : value) (h : list DataFrame)
  : body * Z * list DataFrame :=
  match model g, preprocessor g, food_df g with
  | Some predict, Some transform, Some catalog =>
      match Validator.validate_request data with
      | inl _ => (ErrorDuringRecommendation, 500, h)
      | inr (false, error_response, status_code) =>
          (Rejected error_response, status_code, h)
      | inr (true, _, _) =>
          match data with
          | JObj m =>
              if forallb (λ f, bool_decide (is_Some (m !! f))) (features_list g)
              then
                match transform (omap (λ f, m !! f) (features_list g)) with
                | None => (ErrorDuringRecommendation, 500, h)
                | Some user_processed =>
                    match predict user_processed with
                    | None => (ErrorDuringRecommendation, 500, h)
                    | Some user_cluster =>
                        match recommended_records catalog user_cluster h with
                        | inl _ => (ErrorDuringRecommendation, 500, h)
                        | inr ((profile_name, recommendation_type, records), h') =>
                            match format_foods records with
                            | Some foods_list =>
                                (Recommendations profile_name recommendation_type
                                   foods_list, 200, h')
                            | None => (ErrorDuringRecommendation, 500, h')
                            end
                        end
                    end
                end
              else (InvalidFeature, 400, h)
          | _ => (ErrorDuringRecommendation, 500, h)
          end
      end
  | _, _, _ => (ModelsNotLoaded, 500, h)
  end.

End Routes.

(* ===================================================================== *)
(** ** The sort behind [sort_values] *)
(* ===================================================================== *)

Module Numpy.

(** [ndarray.argsort(kind='quicksort')] on a float array without NaN, as
    numpy's scalar routine [aquicksort_] does it (npysort/quicksort.cpp):
    an introsort over the array [tosort] of item numbers.  A range of more
    than 17 items is split around the median of its first, middle and last
    item, the larger part is put on a stack and the smaller one split
    further; a range of at most 17 items is sorted by insertion; a range
    taken from the stack after [2 * floor(log2 n)] splits is sorted by
    [aheapsort_].  [v] gives the key of an item number, and positions in
    [tosort] stand for the C pointers. *)

Section Argsort.
Context (v : nat → Q).

Definition less (a b : Q) : bool := negb (Qle_bool b a).

(** [tosort[p]] and [INTP_SWAP(tosort[p], tosort[q])] *)
Definition at_ (t : list nat) (p : nat) : nat := nth p t O.

Definition swap (t : list nat) (p q : nat) : list nat :=
  <[p := at_ t q]> (<[q := at_ t p]> t).

Definition median_of_three (t : list nat) (pl pm pr : nat) : list nat :=
  let t := if less (v (at_ t pm)) (v (at_ t pl)) then swap t pm pl else t in
  let t := if less (v (at_ t pr)) (v (at_ t pm)) then swap t pr pm else t in
  if less (v (at_ t pm)) (v (at_ t pl)) then swap t pm pl else t.

(** [do ++pi; while (v[*pi] < vp)] and [do --pj; while (vp < v[*pj])] *)
Fixpoint scan_up (fuel : nat) (t : list nat) (vp : Q) (pi : nat) : nat :=
  match fuel with
  | O => pi
  | S fuel' =>
      if less (v (at_ t (S pi))) vp then scan_up fuel' t vp (S pi) else S pi
  end.

Fixpoint scan_down (fuel : nat) (t : list nat) (vp : Q) (pj : nat) : nat :=
  match fuel with
  | O => pj
  | S fuel' =>
      if less vp (v (at_ t (pred pj))) then scan_down fuel' t vp (pred pj)
      else pred pj
  end.

(** The [for (;;)] loop of the partition. *)
Fixpoint exchange (fuel : nat) (t : list nat) (vp : Q) (pi pj : nat)
  : list nat * nat :=
  match fuel with
  | O => (t, pi)
  | S fuel' =>
      let pi := scan_up (length t) t vp pi in
      let pj := scan_down (length t) t vp pj in
      if (pj <=? pi)%nat then (t, pi)
      else exchange fuel' (swap t pi pj) vp pi pj
  end.

Definition partition (t : list nat) (pl pr : nat) : list nat * nat :=
  let pm := (pl + Nat.div2 (pr - pl))%nat in
  let t := median_of_three t pl pm pr in
  let vp := v (at_ t pm) in
  let t := swap t pm (pr - 1) in
  let '(t, pi) := exchange (length t) t vp pl (pr - 1)%nat in
  (swap t pi (pr - 1), pi).

(** The insertion sort of the range [pl..pr]. *)
Fixpoint shift (fuel : nat) (t : list nat) (pl pj vi : nat) : list nat :=
  match fuel with
  | O => <[pj := vi]> t
  | S fuel' =>
      if ((pl <? pj)%nat && less (v vi) (v (at_ t (pred pj))))%bool
      then shift fuel' (<[pj := at_ t (pred pj)]> t) pl (pred pj) vi
      else <[pj := vi]> t
  end.

Definition insertion_sort (t : list nat) (pl pr : nat) : list nat :=
  foldl (λ t pi, shift pi t pl pi (at_ t pi)) t (seq (S pl) (pr - pl)).

(** [aheapsort_] on the range [pl..pr]; [a] is indexed from 1 in the C
    code, so [a[k]] is read at position [k - 1]. *)
Fixpoint sift (fuel : nat) (a : list nat) (tmp i j n : nat) : list nat :=
  match fuel with
  | O => <[pred i := tmp]> a
  | S fuel' =>
      if (j <=? n)%nat then
        let j := if ((j <? n)%nat && less (v (at_ a (pred j))) (v (at_ a j)))%bool
                 then S j else j in
        if less (v tmp) (v (at_ a (pred j)))
        then sift fuel' (<[pred i := at_ a (pred j)]> a) tmp j (j + j)%nat n
        else <[pred i := tmp]> a
      else <[pred i := tmp]> a
  end.

Definition heapify (a : list nat) (n : nat) : list nat :=
  foldl (λ a l, sift n a (at_ a (pred l)) l (l + l)%nat n) a
    (rev (seq 1 (Nat.div2 n))).

Definition sortdown (a : list nat) (n : nat) : list nat :=
  foldl (λ a n,
           let tmp := at_ a (pred n) in
           let a := <[pred n := at_ a O]> a in
           sift n a tmp 1 2 (pred n))
    a (rev (seq 2 (n - 1))).

Definition heapsort (t : list nat) (pl pr : nat) : list nat :=
  let n := (pr - pl + 1)%nat in
  let a := take n (drop pl t) in
  take pl t ++ sortdown (heapify a n) n ++ drop (pl + n) t.

(** The [while (1)] loop; [outer] holds at its head, where the depth is
    tested, and not inside the inner [while] that splits. *)
Fixpoint run (fuel : nat) (outer : bool) (t : list nat) (pl pr : nat)
    (cdepth : Z) (stack : list (nat * nat * Z)) : list nat :=
  match fuel with
  | O => t
  | S fuel' =>
      let pop t :=
        match stack with
        | [] => t
        | (pl', pr', d) :: stack' => run fuel' true t pl' pr' d stack'
        end in
      if (outer && (cdepth <? 0)%Z)%bool then pop (heapsort t pl pr)
      else if (16 <? pr - pl)%nat then
        let '(t, pi) := partition t pl pr in
        let cdepth := (cdepth - 1)%Z in
        if (pi - pl <? pr - pi)%nat
        then run fuel' false t pl (pi - 1)%nat cdepth ((S pi, pr, cdepth) :: stack)
        else run fuel' false t (S pi) pr cdepth ((pl, (pi - 1)%nat, cdepth) :: stack)
      else pop (insertion_sort t pl pr)
  end.

Definition aquicksort (num : nat) : list nat :=
  run (2 * num + 2) true (seq 0 num) 0 (num - 1)
    (2 * Z.log2 (Z.of_nat num)) [].

End Argsort.

(** The rearrangement of the items the index array describes. *)
Definition argsort {A : Type} (key : A → Q) (l : list A) : list A :=
  omap (λ i, l !! i)
    (aquicksort (λ i, from_option key 0%Q (l !! i)) (length l)).

End Numpy.

(* ===================================================================== *)
(** ** Instances of the library interface, and sample tables *)
(* ===================================================================== *)

Module Reference.
Import Pandas.

Definition digit_value (a : ascii) : option Z :=
  if PyFloat.is_digit a then Some (Z.of_nat (nat_of_ascii a) - 48) else None.

Fixpoint digits_value (acc : Z) (l : list ascii) : option Z :=
  match l with
  | [] => Some acc
  | a :: l' =>
      match digit_value a with
      | Some d => digits_value (10 * acc + d) l'
      | None => None
      end
  end.

(** Plain decimal numbers: an optional sign, digits, an optional fraction. *)
Definition parse_decimal (s : string) : option Q :=
  let l := String.list_ascii_of_string s in
  let negative := match l with a :: _ => Ascii.eqb a "-" | [] => false end in
  let body := PyFloat.drop_sign l in
  let '(n1, rest) := PyFloat.span_digits body in
  let whole := take n1 body in
  let frac := match rest with a :: r => if Ascii.eqb a "." then Some r else None | [] => Some [] end in
  match frac with
  | Some fr =>
      if Nat.eqb (n1 + length fr) 0 then None
      else
        match digits_value 0 (whole ++ fr) with
        | Some v =>
            let q := Qmake v (Pos.pow 10 (Pos.of_nat (length fr))) in
            let q := if Nat.eqb (length fr) 0 then inject_Z v else q in
            Some (if negative then Qopp q else q)
        | None => None
        end
  | None => None
  end.

Definition show (q : Q) : string :=
  Policy.str_int (Qnum q) +:+ "/" +:+ Policy.str_int (Zpos (Qden q)).

Fixpoint insert_by {A} (key : A → Q) (x : A) (l : list A) : list A :=
  match l with
  | [] => [x]
  | y :: l' =>
      if Qle_bool (key x) (key y) then x :: l
      else y :: insert_by key x l'
  end.

Definition insertion_sort {A} (key : A → Q) (l : list A) : list A :=
  foldr (insert_by key) [] l.

(** Among equal keys the item met first stays first. *)
Definition first_wins : Impl :=
  {| to_float := parse_decimal; float_str := show;
     argsort := @insertion_sort |}.

(** Among equal keys the item met last comes first. *)
Definition last_wins : Impl :=
  {| to_float := parse_decimal; float_str := show;
     argsort := λ A key l, insertion_sort key (rev l) |}.

(** The sort numpy runs when [sort_values] is given no [kind]. *)
Definition numpy : Impl :=
  {| to_float := parse_decimal; float_str := show;
     argsort := @Numpy.argsort |}.

Definition food (name category : string) (protein fat carbs calories : Q)
  : gmap string cell :=
  list_to_map
    [ ("Food", Str name); ("Protein", Num protein); ("Fat", Num fat);
      ("Carbs", Num carbs); ("Calories", Num calories);
      ("Category", Str category) ].

Definition plain_columns : list string :=
  [ "Food"; "Protein"; "Fat"; "Carbs"; "Calories"; "Category" ].

(** The two-item table of the scenario; it has no [Cluster] column. *)
Definition broccoli_bacon : DataFrame :=
  {| columns := plain_columns;
     rows := [ food "Broccoli" "Vegetables" (28 # 10) (4 # 10) (66 # 10) 34;
               food "Bacon" "Meat" 12 40 0 420 ] |}.

(** Two items with the same score. *)
Definition twins : DataFrame :=
  {| columns := plain_columns;
     rows := [ food "Rice" "Grains" 4 1 45 200;
               food "Oats" "Grains" 4 1 30 200 ] |}.

(** Eighteen items with the same score. *)
Definition eighteen : DataFrame :=
  {| columns := plain_columns;
     rows := map (λ name, food name "Grains" 4 1 30 200)
               [ "Food 01"; "Food 02"; "Food 03"; "Food 04"; "Food 05";
                 "Food 06"; "Food 07"; "Food 08"; "Food 09"; "Food 10";
                 "Food 11"; "Food 12"; "Food 13"; "Food 14"; "Food 15";
                 "Food 16"; "Food 17"; "Food 18" ] |}.

(** A request whose numeric fields hold, among others, the three strings
    that [float()] reads as non-finite values. *)
Definition non_finite_request : gmap string Json.value :=
  list_to_map
    [ ("Age", Json.JStr "nan"); ("BMI", Json.JStr "inf");
      ("Chronic_Disease", Json.JStr "None");
      ("Blood_Pressure_Systolic", Json.JStr "-inf");
      ("Blood_Sugar_Level", Json.JInt 90); ("Daily_Steps", Json.JFloat (Json.Finite 5000));
      ("Exercise_Frequency", Json.JBool true);
      ("Alcohol_Consumption", Json.JStr "No"); ("Smoking_Habit", Json.JStr "No");
      ("Dietary_Habits", Json.JStr "Keto") ].

(** A request with one stray key and none of the required ones. *)
Definition stray_request : gmap string Json.value :=
  {[ "Weight" := Json.JInt 70 ]}.

(** A complete request with one key too many. *)
Definition extra_request : gmap string Json.value :=
  <["Weight" := Json.JInt 70]> non_finite_request.

(** A request that lacks [BMI] and [Age]. *)
Definition partial_request : gmap string Json.value :=
  delete "BMI" (delete "Age" non_finite_request).

(** A table as read from the CSV file: [Grams], [Calories] and [Fat] hold
    text, the other numeric columns are float columns. *)
Definition raw_row (name grams calories fat : string) (protein : cell)
  : gmap string cell :=
  list_to_map
    [ ("Food", Str name); ("Grams", Str grams); ("Calories", Str calories);
      ("Protein", protein); ("Fat", Str fat); ("Sat.Fat", Num 0);
      ("Fiber", NaN); ("Carbs", Num 12) ].

Definition raw_nutrients : DataFrame :=
  {| columns := [ "Food"; "Grams"; "Calories"; "Protein"; "Fat"; "Sat.Fat";
                  "Fiber"; "Carbs" ];
     rows := [ raw_row "Milk" "976" "660" "40" (Num 32);
               raw_row "Turkey" "1,200" "t" "t" NaN;
               raw_row "Tea" "8" "about 4" "0.5" (Num 0) ] |}.

(** A table with a [Cluster] column, one label kept as text. *)
Definition clustered : DataFrame :=
  {| columns := plain_columns ++ ["Cluster"];
     rows := [ <["Cluster" := Num 0]> (food "Lentils" "Legumes" 9 (4 # 10) 20 116);
               <["Cluster" := Str "1"]> (food "Butter" "Fats" 1 81 0 717);
               <["Cluster" := Num 0]> (food "Tofu" "Legumes" 8 5 2 76) ] |}.

Definition names (df : DataFrame) : list cell :=
  map (λ r, get r "Food") (rows df).

End Reference.

(* ===================================================================== *)
(** ** What each block leaves at its reference *)
(* ===================================================================== *)

Module Frames.
Import Pandas.

(** The frame [select_candidates] returns a reference to. *)
Definition coerced_cluster `{Impl} (df : DataFrame) : DataFrame :=
  assign "Cluster" (to_numeric (λ r, get r "Cluster")) df.

Definition matching `{Impl} (user_cluster : Z) (df : DataFrame) : DataFrame :=
  mask_rows (eq_int (λ r, get r "Cluster") user_cluster) (coerced_cluster df).

Definition candidates `{Impl} (user_cluster : Z) (catalog : DataFrame) : DataFrame :=
  if has_column catalog "Cluster" then
    if Nat.eqb (length (rows (matching user_cluster catalog))) 0 then catalog
    else matching user_cluster catalog
  else catalog.

(** One round of the loop of [score_candidates]. *)
Definition numeric_column `{Impl} (col : string) (df : DataFrame) : DataFrame :=
  if negb (has_column df col) then assign col (λ _, Num 0) df
  else assign col (to_numeric (λ r, get r col)) df.

Definition score_series : Series :=
  sub (sub (mul (λ r, get r "Protein") 2) (mul (λ r, get r "Fat") (3 # 2)))
      (div (λ r, get r "Calories") 50).

Definition scored `{Impl} (df : DataFrame) : DataFrame :=
  assign "score" score_series
    (fillna_columns 0 Engine.numeric_cols
       (foldl (λ d c, numeric_column c d) df Engine.numeric_cols)).

Definition ranked `{Impl} (df : DataFrame) : DataFrame :=
  head_rows 10 (sort_desc "score" df).

Definition field_added (field : string) (df : DataFrame) : DataFrame :=
  if negb (has_column df field) then
    if bool_decide (field ∈ ["Protein"; "Fat"; "Carbs"; "Calories"])
    then assign field (λ _, Num 0) df
    else assign field (λ _, Str "") df
  else df.

Definition field_cleaned `{Impl} (field : string) (df : DataFrame) : DataFrame :=
  if has_column df field
  then assign field (fillna 0 (to_numeric (λ r, get r field))) df
  else df.

Definition fields_ready `{Impl} (df : DataFrame) : DataFrame :=
  field_cleaned "Carbs" (foldl (λ d c, field_added c d) df Engine.required_fields).

Definition projected `{Impl} (df : DataFrame) : DataFrame :=
  foldl (λ d c, field_cleaned c d)
    (project Engine.required_fields (fields_ready df)) Engine.numeric_fields.

Definition recommended_foods `{Impl} (user_cluster : Z) (catalog : DataFrame) : DataFrame :=
  projected (ranked (scored (candidates user_cluster catalog))).

(** The number the score formula reads for a column: the entry made
    numeric, and 0 when the column is absent or the entry does not parse. *)
Definition amount `{Impl} (df : DataFrame) (r : gmap string cell) (c : string) : Q :=
  if has_column df c then
    match to_numeric_cell (get r c) with
    | Num q => q
    | _ => 0%Q
    end
  else 0%Q.

(** [Protein*2 - Fat*1.5 - Calories/50], each operation in [float64]. *)
Definition score_of `{Impl} (df : DataFrame) (r : gmap string cell) : Q :=
  Float64.sub
    (Float64.sub (Float64.mul (amount df r "Protein") 2)
                 (Float64.mul (amount df r "Fat") (3 # 2)))
    (Float64.div (amount df r "Calories") 50).

(** The values the formula goes through for a row: the three amounts as
    doubles, the two products, the quotient, the first difference and the
    score. *)
Definition score_steps `{Impl} (df : DataFrame) (r : gmap string cell) : list Q :=
  let protein := amount df r "Protein" in
  let fat := amount df r "Fat" in
  let calories := amount df r "Calories" in
  [ Float64.round protein; Float64.round fat; Float64.round calories;
    Float64.mul protein 2; Float64.mul fat (3 # 2); Float64.div calories 50;
    Float64.sub (Float64.mul protein 2) (Float64.mul fat (3 # 2));
    score_of df r ].

(** No operation of the formula overflows on this row: every value it
    goes through is a finite double, and the protein amount is below
    [2^62], so that its product by 2 does not overflow in a column of
    integers either, which pandas multiplies in [int64]. *)
Definition no_overflow `{Impl} (df : DataFrame) (r : gmap string cell) : Prop :=
  (forallb Float64.is_finite (score_steps df r)
   && Qle_bool (Qabs (amount df r "Protein")) (inject_Z (2 ^ 62 - 1)))%bool
  = true.

Definition score (r : gmap string cell) : Q := float_key "score" r.

(** The same blocks seen from one row. *)
Definition numeric_entry `{Impl} (df : DataFrame) (c : string) (r : gmap string cell) : cell :=
  if has_column df c then to_numeric_cell (get r c) else Num 0.

Definition numeric_row `{Impl} (df : DataFrame) (c : string) (r : gmap string cell)
  : gmap string cell :=
  <[c := numeric_entry df c r]> r.

Definition fillna_row (v : Q) (cols : list string) (r : gmap string cell)
  : gmap string cell :=
  foldl (λ r c, <[c := fillna_cell v (get r c)]> r) r cols.

Definition scored_row `{Impl} (df : DataFrame) (r : gmap string cell)
  : gmap string cell :=
  let r1 := numeric_row df "Protein" r in
  let r2 := numeric_row df "Fat" r1 in
  let r3 := numeric_row df "Calories" r2 in
  let r4 := fillna_row 0 Engine.numeric_cols r3 in
  <["score" := score_series r4]> r4.

(** Whether a row passes the cluster filter. *)
Definition cluster_matches `{Impl} (user_cluster : Z) (r : gmap string cell) : bool :=
  match to_numeric_cell (get r "Cluster") with
  | Num q => Qeq_bool q (inject_Z user_cluster)
  | _ => false
  end.

(** The frame [clean_food_df] leaves behind. *)
Definition is_object (df : DataFrame) (c : string) : bool :=
  has_column df c && existsb (λ r, is_str (get r c)) (rows df).

Definition cleaned_column `{Impl} (col : string) (df : DataFrame) : DataFrame :=
  if is_object df col then
    assign col (to_numeric (λ r, get r col))
      (assign col (str_replace "," "" (astype_str (λ r, get r col)))
         (assign col (str_replace "t" "0" (astype_str (λ r, get r col))) df))
  else df.

Definition cleaned `{Impl} (df : DataFrame) : DataFrame :=
  fillna_columns 0 Loader.numeric_cols
    (foldl (λ d c, cleaned_column c d) df Loader.numeric_cols).

(** The entry the cleaning computes from a raw entry of a text column. *)
Definition clean_text `{Impl} (x : cell) : cell :=
  match to_float (replace_char "," "" (replace_char "t" "0" (astype_str_cell x))) with
  | Some q => Num q
  | None => Num 0
  end.

(** What the three assignments of one round write into a text column. *)
Definition text_entry `{Impl} (x : cell) : cell :=
  to_numeric_cell
    (Str (replace_char "," "" (replace_char "t" "0" (astype_str_cell x)))).

Definition cleaned_entry_row `{Impl} (df : DataFrame) (r : gmap string cell) (c : string)
  : gmap string cell :=
  if is_object df c then <[c := text_entry (get r c)]> r else r.

(** Frames that were in the store before a call are found unchanged after. *)
Definition preserved (h h' : list DataFrame) : Prop :=
  ∀ l df, h !! l = Some df → h' !! l = Some df.

End Frames.

(* ===================================================================== *)
(** ** Vocabulary for the further properties, and sample requests *)
(* ===================================================================== *)

Module Outcomes.
Import Json Pandas Frames.

(** A categorical field holds one of its allowed strings. *)
Definition categorical_ok (m : gmap string value) (item : string * list string) : Prop :=
  ∃ s, m !! item.1 = Some (JStr s) ∧ s ∈ item.2.

(** A numeric field holds a value [float()] converts. *)
Definition numeric_ok (m : gmap string value) (f : string) : Prop :=
  ∃ v, m !! f = Some v ∧ PyFloat.float_ v = PyFloat.Converted.

Definition well_formed (m : gmap string value) : Prop :=
  dom m = list_to_set Validator.REQUIRED_KEYS
  ∧ Forall (categorical_ok m) Validator.ALLOWED_VALUES
  ∧ Forall (numeric_ok m) Validator.numeric_fields.

(** What the result shows of a candidate row. *)
Definition text_field (df : DataFrame) (r : gmap string cell) (c : string) : cell :=
  if has_column df c then get r c else Str "".

Definition served_row `{Impl} (cand : DataFrame) (r : gmap string cell)
  : gmap string cell :=
  list_to_map
    [ ("Food", text_field cand r "Food");
      ("Category", text_field cand r "Category");
      ("Protein", Num (amount cand r "Protein"));
      ("Fat", Num (amount cand r "Fat"));
      ("Carbs", Num (amount cand r "Carbs"));
      ("Calories", Num (amount cand r "Calories")) ].

(** The projection block seen from one row of the frame it is given. *)
Definition default_entry (field : string) : cell :=
  if bool_decide (field ∈ ["Protein"; "Fat"; "Carbs"; "Calories"])
  then Num 0 else Str "".

Definition added_row (df : DataFrame) (r : gmap string cell) (field : string)
  : gmap string cell :=
  if has_column df field then r else <[field := default_entry field]> r.

Definition numeric_clean `{Impl} (x : cell) : cell :=
  fillna_cell 0 (to_numeric_cell x).

Definition projected_row `{Impl} (df : DataFrame) (r : gmap string cell)
  : gmap string cell :=
  let r1 := foldl (added_row df) r Engine.required_fields in
  let r2 := <["Carbs" := numeric_clean (get r1 "Carbs")]> r1 in
  let r3 : gmap string cell :=
    list_to_map (map (λ c, (c, get r2 c)) Engine.required_fields) in
  foldl (λ r c, <[c := numeric_clean (get r c)]> r) r3 Engine.numeric_fields.

Definition served_entry `{Impl} (cand : DataFrame) (r : gmap string cell) (c : string)
  : cell :=
  if bool_decide (c ∈ Engine.numeric_fields) then Num (amount cand r c)
  else text_field cand r c.

(** A row of the result as it is sent; text columns that hold a missing
    value are sent as they are. *)
Definition sent_food (r : gmap string cell) : gmap string value :=
  list_to_map
    [ ("Food", Routes.to_python (get r "Food"));
      ("Category", Routes.to_python (get r "Category"));
      ("Protein", Routes.to_python (get r "Protein"));
      ("Fat", Routes.to_python (get r "Fat"));
      ("Carbs", Routes.to_python (get r "Carbs"));
      ("Calories", Routes.to_python (get r "Calories")) ].

(** Module state of a server that has loaded its files: the model answers
    cluster 2 whatever the features, the table sits at reference 0. *)
Definition loaded : Routes.Globals :=
  {| Routes.model := Some (λ _, Some 2);
     Routes.preprocessor := Some (λ vs, Some (map (λ _, 0%Q) vs));
     Routes.features_list := Validator.REQUIRED_KEYS;
     Routes.food_df := Some 0%nat |}.

(** Module state before anything was loaded. *)
Definition not_loaded : Routes.Globals :=
  {| Routes.model := None; Routes.preprocessor := None;
     Routes.features_list := []; Routes.food_df := None |}.

(** A complete request with ordinary values. *)
Definition plain_fields : list (string * value) :=
  [ ("Age", JInt 45); ("BMI", JFloat (Finite (271 # 10)));
    ("Chronic_Disease", JStr "Diabetes");
    ("Blood_Pressure_Systolic", JInt 130);
    ("Blood_Sugar_Level", JStr "110"); ("Daily_Steps", JInt 6000);
    ("Exercise_Frequency", JInt 3);
    ("Alcohol_Consumption", JStr "No"); ("Smoking_Habit", JStr "Yes");
    ("Dietary_Habits", JStr "Vegan") ].

Definition with_field (k : string) (v : value) (l : list (string * value))
  : list (string * value) :=
  map (λ kv, if String.eqb kv.1 k then (k, v) else kv) l.

Definition plain_request : gmap string value := list_to_map plain_fields.

(** The same with a categorical value in the wrong case, with text for
    the age, and with an age beyond the range of a double. *)
Definition lowercase_request : gmap string value :=
  list_to_map (with_field "Smoking_Habit" (JStr "yes") plain_fields).

Definition wordy_request : gmap string value :=
  list_to_map (with_field "Age" (JStr "not-a-number") plain_fields).

Definition huge_request : gmap string value :=
  list_to_map (with_field "Age" (JInt (2 ^ 1024)) plain_fields).

(** The same with every number sent as a JSON number. *)
Definition typed_request : gmap string value :=
  list_to_map (with_field "Blood_Sugar_Level" (JInt 110) plain_fields).

(** A loaded server whose feature list names a column no request has. *)
Definition loaded_with_weight : Routes.Globals :=
  {| Routes.model := Some (λ _, Some 2);
     Routes.preprocessor := Some (λ vs, Some (map (λ _, 0%Q) vs));
     Routes.features_list := ["Age"; "Weight"];
     Routes.food_df := Some 0%nat |}.

(** A JSON number a double can hold. *)
Definition is_number (v : value) : Prop :=
  (∃ z, v = JInt z ∧ PyFloat.int_fits z = true) ∨ ∃ x, v = JFloat x.

(** A record written after the body [api_schema] sends: its keys are the
    listed ones, a field typed as categorical holds one of the strings
    allowed for it, any other field holds a number. *)
Definition follows_schema (schema : Routes.body) (m : gmap string value) : Prop :=
  match schema with
  | Routes.Schema required_keys allowed_values types =>
      dom m = list_to_set required_keys
      ∧ ∀ k t, (k, t) ∈ types →
          ∃ v, m !! k = Some v
               ∧ if bool_decide (t = "string (categorical)")
                 then ∃ s allowed, v = JStr s ∧ (k, allowed) ∈ allowed_values
                                   ∧ s ∈ allowed
                 else is_number v
  | _ => False
  end.

End Outcomes.

(* ===================================================================== *)
(** * Facts *)
(* ===================================================================== *)

(** Rounding to [float64] never reverses an order, and neither do the
    three operations of the score. *)
Module Float64Facts.
Import Float64.
Local Open Scope Q_scope.

Lemma pow2_pos e : 0 < pow2 e.
Proof. apply Qpower_0_lt. reflexivity. Qed.

Lemma pow2_add a b : pow2 (a + b) == pow2 a * pow2 b.
Proof. apply Qpower_plus. discriminate. Qed.

Lemma pow2_le a b : (a <= b)%Z → pow2 a <= pow2 b.
Proof. intros. apply Qpower_le_compat_l; [done|discriminate]. Qed.

Lemma nearest_even_floor n d :
  (n / Zpos d <= nearest_even n d <= n / Zpos d + 1)%Z.
Proof.
  unfold nearest_even. destruct (_ ?= _)%Z; try destruct (Z.even _); lia.
Qed.

Lemma nearest_lower a k : inject_Z k <= a → (k <= nearest a)%Z.
Proof.
  unfold Qle, nearest. cbn [inject_Z Qnum Qden]. intros Hle.
  pose proof (nearest_even_floor (Qnum a) (Qden a)) as Hfl.
  assert (k <= Qnum a / Zpos (Qden a))%Z; [|lia].
  apply Z.div_le_lower_bound; lia.
Qed.

Lemma nearest_upper a k : a <= inject_Z k → (nearest a <= k)%Z.
Proof.
  unfold Qle, nearest. cbn [inject_Z Qnum Qden]. intros Hle.
  pose proof (nearest_even_floor (Qnum a) (Qden a)) as Hfl.
  destruct (Z.eq_dec (Qnum a) (k * Zpos (Qden a))%Z) as [Heq|Hne].
  - unfold nearest_even. rewrite Heq, Z.div_mul, Z.mod_mul by lia.
    cbn [Z.mul]. by destruct (0 ?= Zpos (Qden a))%Z eqn:E.
  - assert (Qnum a / Zpos (Qden a) < k)%Z as Hlt; [|lia].
    apply Z.div_lt_upper_bound; lia.
Qed.

Lemma nearest_mono a b : a <= b → (nearest a <= nearest b)%Z.
Proof.
  unfold Qle, nearest. intros Hle.
  set (n1 := Qnum a) in *. set (d1 := Zpos (Qden a)) in *.
  set (n2 := Qnum b) in *. set (d2 := Zpos (Qden b)) in *.
  assert (0 < d1)%Z as Hd1 by done. assert (0 < d2)%Z as Hd2 by done.
  pose proof (Z.div_mod n1 d1 ltac:(lia)) as E1.
  pose proof (Z.div_mod n2 d2 ltac:(lia)) as E2.
  pose proof (Z.mod_pos_bound n1 d1 Hd1) as B1.
  pose proof (Z.mod_pos_bound n2 d2 Hd2) as B2.
  pose proof (nearest_even_floor n1 (Qden a)) as F1.
  pose proof (nearest_even_floor n2 (Qden b)) as F2.
  fold d1 in F1. fold d2 in F2.
  assert (n1 / d1 <= n2 / d2)%Z as Hk.
  { apply Z.div_le_lower_bound; [lia|]. nia. }
  destruct (Z.eq_dec (n1 / d1)%Z (n2 / d2)%Z) as [Heq|Hne]; [|lia].
  unfold nearest_even. fold d1 d2. rewrite <- Heq.
  set (k := (n1 / d1)%Z) in *. set (r1 := (n1 mod d1)%Z) in *.
  set (r2 := (n2 mod d2)%Z) in *. rewrite <- Heq in E2.
  assert (r1 * d2 <= r2 * d1)%Z as Hr by nia.
  destruct (Z.compare_spec (2 * r1)%Z d1), (Z.compare_spec (2 * r2)%Z d2);
    try destruct (Z.even k); try lia; nia.
Qed.

Lemma pow2_nonneg_exp e : (0 <= e)%Z → (pow2 e == inject_Z (2 ^ e))%Q.
Proof. intros. unfold pow2. by rewrite Zpower_Qpower. Qed.

Lemma pow2_sub a b : (pow2 (a - b) == pow2 a / pow2 b)%Q.
Proof. apply Qpower_minus. discriminate. Qed.

Lemma pow2_lt_inv a b : (pow2 a < pow2 b)%Q → (a < b)%Z.
Proof. intros. by eapply Qpower_lt_compat_l_inv. Qed.

Lemma frac_lt n d A B :
  (0 < B)%Z → (n * B < A * Zpos d)%Z → (n # d < inject_Z A / inject_Z B)%Q.
Proof.
  intros HB Hlt. apply Qlt_shift_div_l.
  - unfold Qlt. cbn. lia.
  - unfold Qlt. cbn. lia.
Qed.

Lemma frac_ge n d A B :
  (0 < B)%Z → (A * Zpos d <= n * B)%Z → (inject_Z A / inject_Z B <= n # d)%Q.
Proof.
  intros HB Hlt. apply Qle_shift_div_r.
  - unfold Qlt. cbn. lia.
  - unfold Qle. cbn. lia.
Qed.

Lemma exponent_spec q :
  ¬ (q == 0)%Q →
  (pow2 (exponent q) <= Qabs q)%Q ∧ (Qabs q < pow2 (exponent q + 1))%Q.
Proof.
  intros Hq. destruct q as [n d].
  assert (0 < Z.abs n)%Z as Hn.
  { destruct (Z.eq_dec n 0%Z) as [->|]; [by destruct Hq|lia]. }
  pose proof (Z.log2_spec _ Hn) as [Ha1 Ha2].
  pose proof (Z.log2_spec (Zpos d) ltac:(done)) as [Hb1 Hb2].
  pose proof (Z.log2_nonneg (Z.abs n)) as Ha0.
  pose proof (Z.log2_nonneg (Zpos d)) as Hb0.
  unfold exponent. cbn [Qnum Qden Qabs].
  set (a := Z.log2 (Z.abs n)) in *. set (b := Z.log2 (Zpos d)) in *.
  assert (0 < 2 ^ b)%Z as Hpb by (apply Z.pow_pos_nonneg; lia).
  assert (0 < 2 ^ a)%Z as Hpa by (apply Z.pow_pos_nonneg; lia).
  destruct (Qle_bool (pow2 (a - b)) (Z.abs n # d)) eqn:T.
  - split; [by apply Qle_bool_iff|].
    replace (a - b + 1)%Z with (Z.succ a - b)%Z by lia.
    rewrite pow2_sub, !pow2_nonneg_exp by lia.
    apply frac_lt; [done|]. nia.
  - split.
    + replace (a - b - 1)%Z with (a - Z.succ b)%Z by lia.
      rewrite pow2_sub, !pow2_nonneg_exp by lia.
      apply frac_ge; [apply Z.pow_pos_nonneg; lia|]. nia.
    + replace (a - b - 1 + 1)%Z with (a - b)%Z by lia.
      apply Qnot_le_lt. intros Hle. apply Qle_bool_iff in Hle. congruence.
Qed.

Lemma pow2_scale_le x e u : x <= pow2 e → x * pow2 (- u) <= pow2 (e - u).
Proof.
  intros Hle. replace (e - u)%Z with (e + - u)%Z by lia. rewrite pow2_add.
  apply Qmult_le_compat_r; [done|]. apply Qlt_le_weak, pow2_pos.
Qed.

Lemma pow2_scale_ge x e u : pow2 e <= x → pow2 (e - u) <= x * pow2 (- u).
Proof.
  intros Hle. replace (e - u)%Z with (e + - u)%Z by lia. rewrite pow2_add.
  apply Qmult_le_compat_r; [done|]. apply Qlt_le_weak, pow2_pos.
Qed.

Lemma pow2_unscale e u : pow2 (e - u) * pow2 u == pow2 e.
Proof. rewrite <- pow2_add. by replace (e - u + u)%Z with e by lia. Qed.

Lemma exponent_mono x y : 0 < x → x <= y → (exponent x <= exponent y)%Z.
Proof.
  intros Hx Hxy. assert (0 < y) as Hy by (eapply Qlt_le_trans; eauto).
  destruct (exponent_spec x) as [Lx _].
  { intros E. rewrite E in Hx. by apply Qlt_irrefl in Hx. }
  destruct (exponent_spec y) as [_ Uy].
  { intros E. rewrite E in Hy. by apply Qlt_irrefl in Hy. }
  rewrite Qabs_pos in Lx by by apply Qlt_le_weak.
  rewrite Qabs_pos in Uy by by apply Qlt_le_weak.
  assert (pow2 (exponent x) < pow2 (exponent y + 1)) as Hlt.
  { eapply Qle_lt_trans; [exact Lx|]. eapply Qle_lt_trans; eauto. }
  apply pow2_lt_inv in Hlt. lia.
Qed.

Lemma round_pos x :
  0 < x →
  round x == inject_Z (nearest (Qabs x * pow2 (- ulp_exponent x)))
             * pow2 (ulp_exponent x).
Proof.
  intros Hx. unfold round.
  destruct (Qeq_bool x 0) eqn:E.
  { apply Qeq_bool_iff in E. rewrite E in Hx. by apply Qlt_irrefl in Hx. }
  cbv zeta. rewrite Qred_correct.
  destruct (Qle_bool 0 x) eqn:E2; [reflexivity|].
  apply Qlt_le_weak, Qle_bool_iff in Hx. congruence.
Qed.

Lemma round_pos_nonneg x : 0 < x → 0 <= round x.
Proof.
  intros Hx. rewrite (round_pos x Hx).
  apply Qmult_le_0_compat; [|apply Qlt_le_weak, pow2_pos].
  change 0 with (inject_Z 0). rewrite <- Zle_Qle. apply nearest_lower.
  apply Qmult_le_0_compat; [apply Qabs_nonneg|apply Qlt_le_weak, pow2_pos].
Qed.

Lemma round_mono_pos x y : 0 < x → x <= y → round x <= round y.
Proof.
  intros Hx Hxy. assert (0 < y) as Hy by (eapply Qlt_le_trans; eauto).
  rewrite (round_pos x Hx), (round_pos y Hy).
  pose proof (exponent_mono x y Hx Hxy) as He.
  destruct (exponent_spec x) as [_ Ux].
  { intros E. rewrite E in Hx. by apply Qlt_irrefl in Hx. }
  destruct (exponent_spec y) as [Ly _].
  { intros E. rewrite E in Hy. by apply Qlt_irrefl in Hy. }
  assert (Qabs x == x) as Ax by by apply Qabs_pos, Qlt_le_weak.
  assert (Qabs y == y) as Ay by by apply Qabs_pos, Qlt_le_weak.
  unfold ulp_exponent.
  set (ex := exponent x) in *. set (ey := exponent y) in *.
  destruct (Z.eq_dec (Z.max (ex - 52) (-1074)) (Z.max (ey - 52) (-1074)))
    as [Heq|Hne].
  - rewrite Heq. apply Qmult_le_compat_r; [|apply Qlt_le_weak, pow2_pos].
    rewrite <- Zle_Qle. apply nearest_mono. rewrite Ax, Ay.
    apply Qmult_le_compat_r; [done|apply Qlt_le_weak, pow2_pos].
  - set (ux := Z.max (ex - 52) (-1074)) in *.
    set (uy := Z.max (ey - 52) (-1074)) in *.
    assert (ux < uy)%Z as Hu by lia.
    assert (uy = ey - 52)%Z as Huy by lia.
    assert (ex < ey)%Z as Hex by lia.
    apply Qle_trans with (pow2 ey).
    + assert (nearest (Qabs x * pow2 (- ux)) <= 2 ^ (ey - ux))%Z as Hn.
      { apply nearest_upper. rewrite <- pow2_nonneg_exp by lia.
        apply pow2_scale_le. apply Qlt_le_weak.
        eapply Qlt_le_trans; [exact Ux|]. apply pow2_le. lia. }
      rewrite <- (pow2_unscale ey ux).
      apply Qmult_le_compat_r; [|apply Qlt_le_weak, pow2_pos].
      rewrite (pow2_nonneg_exp (ey - ux)) by lia. by rewrite <- Zle_Qle.
    + assert (2 ^ (ey - uy) <= nearest (Qabs y * pow2 (- uy)))%Z as Hn.
      { apply nearest_lower. rewrite <- pow2_nonneg_exp by lia.
        by apply pow2_scale_ge. }
      rewrite <- (pow2_unscale ey uy) at 1.
      apply Qmult_le_compat_r; [|apply Qlt_le_weak, pow2_pos].
      rewrite (pow2_nonneg_exp (ey - uy)) by lia. by rewrite <- Zle_Qle.
Qed.

Lemma Qabs_opp_eq x : Qabs (- x) = Qabs x.
Proof. destruct x as [n d]. unfold Qabs, Qopp. cbn. by rewrite Z.abs_opp. Qed.

Lemma exponent_opp x : exponent (- x) = exponent x.
Proof.
  unfold exponent. rewrite Qabs_opp_eq. destruct x as [n d]. cbn [Qopp Qnum Qden].
  by rewrite Z.abs_opp.
Qed.

Lemma round_zero x : x == 0 → round x = 0.
Proof. intros E. unfold round. apply Qeq_bool_iff in E. by rewrite E. Qed.

Lemma round_neg x :
  x < 0 →
  round x == - (inject_Z (nearest (Qabs x * pow2 (- ulp_exponent x)))
                * pow2 (ulp_exponent x)).
Proof.
  intros Hx. unfold round.
  destruct (Qeq_bool x 0) eqn:E.
  { apply Qeq_bool_iff in E. rewrite E in Hx. by apply Qlt_irrefl in Hx. }
  cbv zeta. rewrite Qred_correct.
  destruct (Qle_bool 0 x) eqn:E2; [|reflexivity].
  apply Qle_bool_iff in E2. exfalso. by apply (Qlt_not_le _ _ Hx).
Qed.

Lemma round_opp x : round (- x) == - round x.
Proof.
  destruct (Q_dec x 0) as [[Hneg|Hpos]|Hz].
  - assert (0 < - x) as Hpos by lra.
    rewrite (round_pos _ Hpos), (round_neg _ Hneg).
    unfold ulp_exponent. rewrite exponent_opp, Qabs_opp_eq. ring.
  - assert (- x < 0) as Hneg by lra.
    rewrite (round_pos _ Hpos), (round_neg _ Hneg).
    unfold ulp_exponent. by rewrite exponent_opp, Qabs_opp_eq.
  - rewrite (round_zero x Hz), (round_zero (- x)); [done|]. lra.
Qed.

Lemma round_mono x y : x <= y → round x <= round y.
Proof.
  intros Hxy.
  destruct (Q_dec x 0) as [[Hx|Hx]|Hx].
  - assert (round x <= 0) as Hrx.
    { assert (0 < - x) as Hpos by lra.
      pose proof (round_pos_nonneg _ Hpos) as Hr. rewrite round_opp in Hr. lra. }
    destruct (Q_dec y 0) as [[Hy|Hy]|Hy].
    + assert (0 < - y) as Hpos by lra.
      pose proof (round_mono_pos (- y) (- x) Hpos ltac:(lra)) as Hr.
      rewrite !round_opp in Hr. lra.
    + pose proof (round_pos_nonneg _ Hy). lra.
    + by rewrite (round_zero y Hy).
  - by apply round_mono_pos.
  - rewrite (round_zero x Hx).
    destruct (Q_dec y 0) as [[Hy|Hy]|Hy]; [lra| |].
    + by apply round_pos_nonneg.
    + by rewrite (round_zero y Hy).
Qed.

Lemma round_nonneg x : 0 <= x → 0 <= round x.
Proof. intros Hx. rewrite <- (round_zero 0) at 1 by done. by apply round_mono. Qed.

Lemma mul_mono_l a a' b : 0 <= b → a <= a' → mul a b <= mul a' b.
Proof.
  intros Hb Ha. unfold mul. apply round_mono.
  apply Qmult_le_compat_r; [by apply round_mono | by apply round_nonneg].
Qed.

Lemma div_mono_l a a' b : 0 <= b → a <= a' → div a b <= div a' b.
Proof.
  intros Hb Ha. unfold div, Qdiv. apply round_mono.
  apply Qmult_le_compat_r; [by apply round_mono|].
  by apply Qinv_le_0_compat, round_nonneg.
Qed.

Lemma sub_mono a a' b b' : a <= a' → b' <= b → sub a b <= sub a' b'.
Proof.
  intros Ha Hb. unfold sub. apply round_mono.
  pose proof (round_mono _ _ Ha). pose proof (round_mono _ _ Hb). lra.
Qed.

End Float64Facts.

Module FrameFacts.
Import Pandas.

Lemma get_insert (r : gmap string cell) (c c' : string) (v : cell) :
  get (<[c := v]> r) c' = if decide (c = c') then v else get r c'.
Proof.
  unfold get. rewrite lookup_insert. by case_decide.
Qed.

Lemma get_insert_eq (r : gmap string cell) c v : get (<[c := v]> r) c = v.
Proof. rewrite get_insert. by case_decide. Qed.

Lemma get_insert_ne (r : gmap string cell) c c' v :
  c ≠ c' → get (<[c := v]> r) c' = get r c'.
Proof. intros. rewrite get_insert. by case_decide. Qed.

Lemma rows_assign c s df : rows (assign c s df) = map (λ r, <[c := s r]> r) (rows df).
Proof. reflexivity. Qed.

Lemma length_rows_assign c s df : length (rows (assign c s df)) = length (rows df).
Proof. by rewrite rows_assign, length_map. Qed.

Lemma has_column_assign c s df c' :
  has_column (assign c s df) c' = has_column df c' || bool_decide (c' = c).
Proof.
  apply eq_true_iff_eq. rewrite orb_true_iff.
  unfold has_column at 1 2. rewrite !bool_decide_eq_true. simpl.
  destruct (has_column df c) eqn:Hc.
  - apply bool_decide_eq_true in Hc. split; [auto|]. by intros [?| ->].
  - by rewrite elem_of_app, list_elem_of_singleton.
Qed.

Lemma has_column_assign_same c s df : has_column (assign c s df) c = true.
Proof. rewrite has_column_assign, bool_decide_true by done. apply orb_true_r. Qed.

Lemma has_column_assign_mono c s df c' :
  has_column df c' = true → has_column (assign c s df) c' = true.
Proof. intros E. by rewrite has_column_assign, E. Qed.

Lemma has_column_assign_ne c s df c' :
  c' ≠ c → has_column (assign c s df) c' = has_column df c'.
Proof.
  intros. rewrite has_column_assign, bool_decide_false by done. apply orb_false_r.
Qed.

Lemma rows_fold_assign (s : string → Series) cs df :
  rows (foldl (λ d c, assign c (s c) d) df cs)
  = map (λ r, foldl (λ r c, <[c := s c r]> r) r cs) (rows df).
Proof.
  revert df. induction cs as [|c cs IH]; intros df; cbn [foldl].
  - by rewrite map_id.
  - by rewrite IH, rows_assign, map_map.
Qed.

Lemma rows_fillna_columns v cs df :
  rows (fillna_columns v cs df) = map (Frames.fillna_row v cs) (rows df).
Proof.
  unfold fillna_columns, Frames.fillna_row.
  apply (rows_fold_assign (λ c, fillna v (λ r, get r c))).
Qed.

Lemma fillna_cell_idem v x : fillna_cell v (fillna_cell v x) = fillna_cell v x.
Proof. by destruct x. Qed.

Lemma get_fillna_row v cs r c :
  get (Frames.fillna_row v cs r) c
  = if bool_decide (c ∈ cs) then fillna_cell v (get r c) else get r c.
Proof.
  unfold Frames.fillna_row. revert r.
  induction cs as [|c0 cs IH]; intros r; cbn [foldl].
  - by rewrite bool_decide_false by apply not_elem_of_nil.
  - rewrite IH, get_insert.
    destruct (decide (c0 = c)) as [->|Hne].
    + rewrite (bool_decide_true (c ∈ c :: cs)) by (apply elem_of_cons; auto).
      rewrite fillna_cell_idem. by case_bool_decide.
    + case_bool_decide as Hin.
      * by rewrite bool_decide_true by (apply elem_of_cons; auto).
      * rewrite bool_decide_false; [done|].
        rewrite elem_of_cons. intros [->|?]; done.
Qed.

Lemma rows_numeric_column `{Impl} c df :
  rows (Frames.numeric_column c df) = map (Frames.numeric_row df c) (rows df).
Proof.
  unfold Frames.numeric_column, Frames.numeric_row, Frames.numeric_entry.
  by destruct (has_column df c).
Qed.

End FrameFacts.

Module RunFacts.
Import Pandas.
Local Open Scope frame_scope.

Lemma bind_run {A B} (m : M A) (k : A → M B) (h h' : list DataFrame) (a : A) :
  m h = inr (a, h') → bind m k h = k a h'.
Proof. unfold bind. by intros ->. Qed.

(** Run the first command of a sequence with a fact about its outcome. *)
Tactic Notation "run_with" uconstr(E) := rewrite (bind_run _ _ _ _ _ E).

Lemma read_run (h : list DataFrame) l df : h !! l = Some df → read l h = inr (df, h).
Proof. unfold read. by intros ->. Qed.

Lemma write_run (h : list DataFrame) l df df' :
  h !! l = Some df → write l df' h = inr (tt, <[l := df']> h).
Proof. unfold write. by intros ->. Qed.

Lemma lookup_written (h : list DataFrame) l df df' :
  h !! l = Some df → <[l := df']> h !! l = Some df'.
Proof. intros E. apply list_lookup_insert_eq. by eapply lookup_lt_Some. Qed.

Lemma lookup_new (h : list DataFrame) df : (h ++ [df]) !! length h = Some df.
Proof. by apply list_lookup_middle. Qed.

Lemma written_twice (h : list DataFrame) l df df' :
  <[l := df']> (<[l := df]> h) = <[l := df']> h.
Proof. apply list_insert_insert_eq. Qed.

Lemma copy_run (h : list DataFrame) l df :
  h !! l = Some df → copy l h = inr (length h, h ++ [df]).
Proof. intros E. unfold copy. by rewrite (bind_run _ _ _ _ _ (read_run _ _ _ E)). Qed.

Lemma contains_run (h : list DataFrame) l df c :
  h !! l = Some df → contains l c h = inr (has_column df c, h).
Proof. intros E. unfold contains. by rewrite (bind_run _ _ _ _ _ (read_run _ _ _ E)). Qed.

Lemma len_run (h : list DataFrame) l df :
  h !! l = Some df → len l h = inr (length (rows df), h).
Proof. intros E. unfold len. by rewrite (bind_run _ _ _ _ _ (read_run _ _ _ E)). Qed.

Lemma column_run (h : list DataFrame) l df c :
  h !! l = Some df → has_column df c = true →
  column l c h = inr ((λ r, get r c) : Series, h).
Proof.
  intros E Hc. unfold column.
  run_with (read_run _ _ _ E). by rewrite Hc.
Qed.

Lemma setitem_run (h : list DataFrame) l df c s :
  h !! l = Some df → setitem l c s h = inr (tt, <[l := assign c s df]> h).
Proof.
  intros E. unfold setitem.
  run_with (read_run _ _ _ E). by eapply write_run.
Qed.

Lemma fillna_inplace_run (h : list DataFrame) l df cols v :
  h !! l = Some df → forallb (has_column df) cols = true →
  fillna_inplace l cols v h = inr (tt, <[l := fillna_columns v cols df]> h).
Proof.
  intros E Hc. unfold fillna_inplace.
  rewrite (bind_run _ _ _ _ _ (read_run _ _ _ E)), Hc. by eapply write_run.
Qed.

Lemma getitem_mask_run (h : list DataFrame) l df mask :
  h !! l = Some df →
  getitem_mask l mask h = inr (length h, h ++ [mask_rows mask df]).
Proof.
  intros E. unfold getitem_mask. by rewrite (bind_run _ _ _ _ _ (read_run _ _ _ E)).
Qed.

Lemma getitem_list_run (h : list DataFrame) l df cols :
  h !! l = Some df → forallb (has_column df) cols = true →
  getitem_list l cols h = inr (length h, h ++ [project cols df]).
Proof.
  intros E Hc. unfold getitem_list.
  by rewrite (bind_run _ _ _ _ _ (read_run _ _ _ E)), Hc.
Qed.

Lemma head_run (h : list DataFrame) l df n :
  h !! l = Some df → head l n h = inr (length h, h ++ [head_rows n df]).
Proof. intros E. unfold head. by rewrite (bind_run _ _ _ _ _ (read_run _ _ _ E)). Qed.

Lemma sort_values_run `{Impl} (h : list DataFrame) l df c :
  h !! l = Some df → has_column df c = true →
  existsb (λ r, is_str (get r c)) (rows df) = false →
  sort_values l c h = inr (length h, h ++ [sort_desc c df]).
Proof.
  intros E Hc Hs. unfold sort_values.
  by rewrite (bind_run _ _ _ _ _ (read_run _ _ _ E)), Hc, Hs.
Qed.

Lemma column_setitem_run (h : list DataFrame) l df c c' (g : Series → Series) :
  h !! l = Some df → has_column df c = true →
  (do s <- column l c; setitem l c' (g s)) h
  = inr (tt, <[l := assign c' (g (λ r, get r c)) df]> h).
Proof.
  intros E Hc. run_with (column_run _ _ _ _ E Hc).
  by apply setitem_run.
Qed.

(** A loop whose body rewrites one frame in place rewrites it with the
    composition of the rounds. *)
Lemma for_inplace {A} (f : A → DataFrame → DataFrame) (body : A → M unit) (w : nat) :
  (∀ x (h : list DataFrame) df,
      h !! w = Some df → body x h = inr (tt, <[w := f x df]> h)) →
  ∀ (l : list A) (h : list DataFrame) df,
    h !! w = Some df →
    for_ l body h = inr (tt, <[w := foldl (λ d x, f x d) df l]> h).
Proof.
  intros Hbody l. induction l as [|x l IH]; intros h df E; simpl.
  - unfold ret. by rewrite list_insert_id.
  - run_with (Hbody x h df E).
    rewrite (IH _ (f x df)) by (by eapply lookup_written).
    by rewrite written_twice.
Qed.

End RunFacts.

Module EngineFacts.
Import Pandas Engine Frames FrameFacts RunFacts.
Local Open Scope frame_scope.
Local Open Scope nat_scope.

Lemma preserved_trans h1 h2 h3 : preserved h1 h2 → preserved h2 h3 → preserved h1 h3.
Proof. intros H12 H23 l df E. by apply H23, H12. Qed.

Lemma preserved_new h df : preserved h (h ++ [df]).
Proof. intros l d E. by apply lookup_app_l_Some. Qed.

Lemma preserved_written h0 (h : list DataFrame) w df :
  preserved h0 h → length h0 ≤ w → preserved h0 (<[w := df]> h).
Proof.
  intros Hp Hw l d E. rewrite list_lookup_insert_ne.
  - by apply Hp.
  - apply lookup_lt_Some in E. lia.
Qed.

Lemma select_candidates_run `{Impl} (h : list DataFrame) food cat c :
  h !! food = Some cat →
  ∃ w h', select_candidates food c h = inr (w, h')
    ∧ h' !! w = Some (candidates c cat)
    ∧ length h ≤ w
    ∧ preserved h h'.
Proof.
  intros E. unfold select_candidates, candidates.
  run_with (copy_run _ _ _ E).
  pose proof (lookup_new h cat) as E1.
  run_with (contains_run _ _ _ "Cluster" E1).
  destruct (has_column cat "Cluster") eqn:Hc.
  - run_with (column_setitem_run _ _ _ _ _ to_numeric E1 Hc).
    pose proof (lookup_written _ _ _ (coerced_cluster cat) E1) as E2.
    run_with (column_run _ _ _ _ E2 (has_column_assign_same _ _ _)).
    run_with (getitem_mask_run _ _ _ _ E2).
    fold (matching c cat).
    set (h2 := <[length h := coerced_cluster cat]> (h ++ [cat])) in *.
    assert (preserved h h2) as P2.
    { apply preserved_written; [apply preserved_new | lia]. }
    assert (length h2 = S (length h)) as L2.
    { unfold h2. rewrite length_insert, length_app. simpl. lia. }
    pose proof (lookup_new h2 (matching c cat)) as E3.
    run_with (len_run _ _ _ E3).
    destruct (Nat.eqb (length (rows (matching c cat))) 0).
    + assert ((h2 ++ [matching c cat]) !! food = Some cat) as E4.
      { by apply preserved_new, P2. }
      rewrite (copy_run _ _ _ E4).
      eexists _, _. split; [done|]. split; [apply lookup_new|].
      split; [rewrite length_app, L2; lia|].
      eapply preserved_trans; [exact P2|].
      eapply preserved_trans; apply preserved_new.
    + eexists _, _. split; [done|]. split; [exact E3|].
      split; [lia|]. eapply preserved_trans; [exact P2 | apply preserved_new].
  - eexists _, _. split; [done|]. split; [exact E1|].
    split; [lia | apply preserved_new].
Qed.

Lemma ensure_numeric_run `{Impl} (h : list DataFrame) w df col :
  h !! w = Some df →
  ensure_numeric w col h = inr (tt, <[w := numeric_column col df]> h).
Proof.
  intros E. unfold ensure_numeric, numeric_column.
  run_with (contains_run _ _ _ col E).
  destruct (has_column df col) eqn:Hc; simpl.
  - by apply (column_setitem_run _ _ _ _ _ to_numeric).
  - by apply setitem_run.
Qed.

Lemma has_column_numeric_column `{Impl} c df c' :
  has_column (numeric_column c df) c' = has_column df c' || bool_decide (c' = c).
Proof. unfold numeric_column. destruct (negb _); apply has_column_assign. Qed.

Lemma has_column_fillna_columns v cs df c :
  has_column (fillna_columns v cs df) c = has_column df c || bool_decide (c ∈ cs).
Proof.
  unfold fillna_columns. revert df.
  induction cs as [|c0 cs IH]; intros df; cbn [foldl].
  - rewrite bool_decide_false by apply not_elem_of_nil. by rewrite orb_false_r.
  - rewrite IH, has_column_assign, <- orb_assoc. f_equal.
    apply eq_true_iff_eq. rewrite !orb_true_iff, !bool_decide_eq_true.
    rewrite elem_of_cons. tauto.
Qed.

Lemma numeric_cols_present `{Impl} df :
  forallb (has_column (foldl (λ d c, numeric_column c d) df numeric_cols)) numeric_cols
  = true.
Proof.
  simpl. rewrite !has_column_numeric_column.
  rewrite !(bool_decide_true (_ = _)) by done. by rewrite !orb_true_r.
Qed.

Lemma score_candidates_run `{Impl} (h : list DataFrame) w df :
  h !! w = Some df →
  score_candidates w h = inr (tt, <[w := scored df]> h).
Proof.
  intros E. unfold score_candidates.
  run_with (for_inplace numeric_column _ w
                (λ x h df, ensure_numeric_run h w df x) _ _ _ E).
  set (df1 := foldl _ df numeric_cols).
  pose proof (lookup_written _ _ _ df1 E) as E1.
  run_with (fillna_inplace_run _ _ _ _ 0%Q E1 (numeric_cols_present df)).
  rewrite written_twice.
  set (df2 := fillna_columns _ _ df1).
  pose proof (lookup_written _ _ _ df2 E) as E2.
  assert (∀ c, c ∈ numeric_cols → has_column df2 c = true) as Hc.
  { intros c Hin. unfold df2. rewrite has_column_fillna_columns.
    by rewrite (bool_decide_true (c ∈ _)), orb_true_r. }
  run_with (column_run _ _ _ "Protein" E2 (Hc "Protein" ltac:(unfold numeric_cols; set_solver))).
  run_with (column_run _ _ _ "Fat" E2 (Hc "Fat" ltac:(unfold numeric_cols; set_solver))).
  run_with (column_run _ _ _ "Calories" E2 (Hc "Calories" ltac:(unfold numeric_cols; set_solver))).
  rewrite (setitem_run _ _ _ _ _ E2). by rewrite written_twice.
Qed.

Lemma numeric_row_ext `{Impl} df df' c r :
  has_column df c = has_column df' c → numeric_row df c r = numeric_row df' c r.
Proof. unfold numeric_row, numeric_entry. by intros ->. Qed.

(** Row by row, [scored] adds the value of the formula. *)
Lemma rows_scored `{Impl} df : rows (scored df) = map (scored_row df) (rows df).
Proof.
  unfold scored, scored_row. rewrite rows_assign, rows_fillna_columns.
  unfold numeric_cols at 2. cbn [foldl]. rewrite !rows_numeric_column, !map_map.
  apply map_ext. intros r. cbv zeta.
  rewrite (numeric_row_ext (numeric_column "Fat" _) df "Calories"),
    (numeric_row_ext (numeric_column "Protein" _) df "Fat"); [done|..];
    rewrite !has_column_numeric_column;
    rewrite !(bool_decide_false (_ = _)) by done; by rewrite !orb_false_r.
Qed.

Lemma fillna_numeric_entry `{Impl} df c r :
  fillna_cell 0 (numeric_entry df c r) = Num (amount df r c).
Proof.
  unfold numeric_entry, amount. destruct (has_column df c); [|done].
  destruct (get r c) as [q| |s]; simpl; try done. by destruct (to_float s).
Qed.

Lemma numeric_entry_insert_ne `{Impl} df c c' v r :
  c ≠ c' → numeric_entry df c' (<[c := v]> r) = numeric_entry df c' r.
Proof. intros. unfold numeric_entry. by rewrite get_insert_ne. Qed.

Lemma get_scored_row `{Impl} df r :
  get (scored_row df r) "score" = Num (score_of df r).
Proof.
  unfold scored_row. cbv zeta. rewrite get_insert_eq.
  unfold score_series, sub, mul, div, score_of.
  rewrite !get_fillna_row.
  rewrite !(bool_decide_true (_ ∈ numeric_cols)) by (unfold numeric_cols; set_solver).
  unfold numeric_row.
  repeat (rewrite ?get_insert_eq, ?get_insert_ne by done).
  rewrite !numeric_entry_insert_ne by done.
  by rewrite !fillna_numeric_entry.
Qed.

Lemma no_overflow_score `{Impl} df r :
  no_overflow df r → Float64.is_finite (score_of df r) = true.
Proof.
  unfold no_overflow, score_steps. cbv zeta. cbn [forallb].
  rewrite !andb_true_iff. tauto.
Qed.

Lemma scored_score_num `{Impl} df r :
  r ∈ rows (scored df) → ∃ q, get r "score" = Num q.
Proof.
  rewrite rows_scored. intros [r0 [-> _]]%list_elem_of_fmap.
  eexists. apply get_scored_row.
Qed.

Lemma existsb_false_iff {A} (f : A → bool) (l : list A) :
  existsb f l = false ↔ ∀ x, x ∈ l → f x = false.
Proof.
  induction l as [|a l IH]; simpl.
  - split; [|done]. intros _ x Hx. by apply not_elem_of_nil in Hx.
  - rewrite orb_false_iff, IH. split.
    + intros [Ha Hl] x [->|Hx]%elem_of_cons; auto.
    + intros Hall. split; [|intros x Hx]; apply Hall, elem_of_cons; auto.
Qed.

Lemma filter_keep_all {A} (P : A → Prop) `{∀ x, Decision (P x)} (l : list A) :
  (∀ x, x ∈ l → P x) → filter P l = l.
Proof.
  induction l as [|a l IH]; intros Hall; [done|].
  rewrite filter_cons_True by (apply Hall, elem_of_cons; auto).
  f_equal. apply IH. intros x Hx. apply Hall, elem_of_cons; auto.
Qed.

Lemma filter_keep_none {A} (P : A → Prop) `{∀ x, Decision (P x)} (l : list A) :
  (∀ x, x ∈ l → ¬ P x) → filter P l = [].
Proof.
  induction l as [|a l IH]; intros Hall; [done|].
  rewrite filter_cons_False by (apply Hall, elem_of_cons; auto).
  apply IH. intros x Hx. apply Hall, elem_of_cons; auto.
Qed.

(** With a number in every key, nothing is set aside. *)
Lemma rows_sort_desc `{Impl} c df :
  (∀ r, r ∈ rows df → ∃ q, get r c = Num q) →
  rows (sort_desc c df) = rev (argsort (float_key c) (rev (rows df))).
Proof.
  intros Hnum. unfold sort_desc. cbn [rows].
  rewrite filter_keep_all, filter_keep_none, app_nil_r; [done|..];
    intros r [q Hq]%Hnum; by rewrite Hq.
Qed.

Lemma rank_run `{Impl} (h : list DataFrame) w df :
  h !! w = Some df →
  has_column df "score" = true →
  (∀ r, r ∈ rows df → ∃ q, get r "score" = Num q) →
  rank w h = inr (S (length h), (h ++ [sort_desc "score" df]) ++ [ranked df]).
Proof.
  intros E Hc Hnum. unfold rank.
  assert (existsb (λ r, is_str (get r "score")) (rows df) = false) as Hs.
  { apply existsb_false_iff. intros r [q Hq]%Hnum. by rewrite Hq. }
  run_with (sort_values_run _ _ _ _ E Hc Hs).
  rewrite (head_run _ _ _ _ (lookup_new _ _)).
  by rewrite length_app, Nat.add_1_r.
Qed.

Lemma ensure_field_run (h : list DataFrame) w df field :
  h !! w = Some df →
  ensure_field w field h = inr (tt, <[w := field_added field df]> h).
Proof.
  intros E. unfold ensure_field, field_added.
  run_with (contains_run _ _ _ field E).
  destruct (negb (has_column df field)).
  - case_bool_decide; by apply setitem_run.
  - unfold ret. by rewrite list_insert_id.
Qed.

Lemma clean_field_run `{Impl} (h : list DataFrame) w df field :
  h !! w = Some df →
  clean_field w field h = inr (tt, <[w := field_cleaned field df]> h).
Proof.
  intros E. unfold clean_field, field_cleaned.
  run_with (contains_run _ _ _ field E).
  destruct (has_column df field) eqn:Hc.
  - by apply (column_setitem_run _ _ _ _ _ (λ s, fillna 0 (to_numeric s))).
  - unfold ret. by rewrite list_insert_id.
Qed.

Lemma has_column_field_added field df c :
  has_column (field_added field df) c = has_column df c || bool_decide (c = field).
Proof.
  unfold field_added. destruct (has_column df field) eqn:Hf; cbn [negb].
  - case_bool_decide as E; [subst; by rewrite Hf | by rewrite orb_false_r].
  - case_bool_decide; apply has_column_assign.
Qed.

Lemma has_column_fields_added cs df c :
  has_column (foldl (λ d c, field_added c d) df cs) c
  = has_column df c || bool_decide (c ∈ cs).
Proof.
  revert df. induction cs as [|c0 cs IH]; intros df; cbn [foldl].
  - rewrite bool_decide_false by apply not_elem_of_nil. by rewrite orb_false_r.
  - rewrite IH, has_column_field_added, <- orb_assoc. f_equal.
    apply eq_true_iff_eq. rewrite !orb_true_iff, !bool_decide_eq_true.
    rewrite elem_of_cons. tauto.
Qed.

Lemma has_column_field_cleaned `{Impl} field df c :
  has_column (field_cleaned field df) c = has_column df c.
Proof.
  unfold field_cleaned. destruct (has_column df field) eqn:Hf; [|done].
  rewrite has_column_assign. case_bool_decide as E; [subst; by rewrite Hf|].
  by rewrite orb_false_r.
Qed.

Lemma required_fields_present `{Impl} df :
  forallb (has_column (fields_ready df)) required_fields = true.
Proof.
  apply forallb_forall. intros c Hc%list_elem_of_In. unfold fields_ready.
  rewrite has_column_field_cleaned, has_column_fields_added.
  by rewrite (bool_decide_true (c ∈ _)), orb_true_r.
Qed.

Lemma project_fields_run `{Impl} (h : list DataFrame) w df :
  h !! w = Some df →
  project_fields w h
  = inr (S (length h),
         (<[w := fields_ready df]> h
            ++ [project required_fields (fields_ready df)])
           ++ [projected df]).
Proof.
  intros E. unfold project_fields.
  run_with (for_inplace field_added _ w
                (λ x h df, ensure_field_run h w df x) _ _ _ E).
  set (df1 := foldl _ df required_fields).
  pose proof (lookup_written _ _ _ df1 E) as E1.
  run_with (clean_field_run _ _ _ "Carbs" E1).
  rewrite written_twice. fold (fields_ready df).
  pose proof (lookup_written _ _ _ (fields_ready df) E) as E2.
  run_with (getitem_list_run _ _ _ _ E2 (required_fields_present df)).
  set (h2 := <[w := fields_ready df]> h).
  set (sel := project required_fields (fields_ready df)).
  run_with (copy_run _ _ _ (lookup_new h2 sel)).
  pose proof (lookup_new (h2 ++ [sel]) sel) as E3.
  run_with (for_inplace field_cleaned _ _
                (λ x h df, clean_field_run h _ df x) _ _ _ E3).
  unfold ret. fold (projected df).
  rewrite insert_app_r_alt, Nat.sub_diag by done. cbn [insert list_insert].
  f_equal. f_equal. unfold h2. rewrite length_app, length_insert. simpl. lia.
Qed.

Lemma get_cluster_recommendations_run `{Impl} (h : list DataFrame) food cat c :
  h !! food = Some cat →
  ∃ l h',
    get_cluster_recommendations food c h
    = inr ((Policy.profile_name c, Policy.recommendation_type c, l), h')
    ∧ h' !! l = Some (recommended_foods c cat)
    ∧ preserved h h'.
Proof.
  intros E. unfold get_cluster_recommendations. cbv zeta.
  destruct (select_candidates_run h food cat c E) as (w & h1 & R1 & E1 & Hw & P1).
  run_with R1.
  run_with (score_candidates_run _ _ _ E1).
  set (cand := candidates c cat) in *.
  pose proof (lookup_written _ _ _ (scored cand) E1) as E2.
  run_with (rank_run _ _ _ E2 (has_column_assign_same _ _ _)
                (scored_score_num cand)).
  set (h2 := <[w := scored cand]> h1).
  set (h3 := (h2 ++ [sort_desc "score" (scored cand)]) ++ [ranked (scored cand)]).
  assert (length h3 = S (S (length h2))) as L3.
  { unfold h3. rewrite !length_app. simpl. lia. }
  assert (h3 !! S (length h2) = Some (ranked (scored cand))) as E3.
  { unfold h3. apply list_lookup_middle. rewrite length_app. simpl. lia. }
  run_with (project_fields_run _ _ _ E3).
  unfold ret. eexists _, _. split; [done|]. split.
  - apply list_lookup_middle. rewrite length_app, length_insert. simpl. lia.
  - assert (preserved h h3) as P3.
    { unfold h3. eapply preserved_trans; [|apply preserved_new].
      eapply preserved_trans; [|apply preserved_new].
      apply preserved_written; [done|]. apply lookup_lt_Some in E1.
      lia. }
    eapply preserved_trans; [|apply preserved_new].
    eapply preserved_trans; [|apply preserved_new].
    apply preserved_written; [done|].
    unfold h2. rewrite length_insert. apply lookup_lt_Some in E1. lia.
Qed.

End EngineFacts.

Module SortFacts.
Import Pandas Reference.

Lemma rev_reverse {A} (l : list A) : rev l = reverse l.
Proof. apply rev_alt. Qed.

Lemma insert_by_perm {A} (key : A → Q) x l : insert_by key x l ≡ₚ x :: l.
Proof.
  induction l as [|y l IH]; simpl; [done|].
  destruct (Qle_bool (key x) (key y)); [done|].
  rewrite IH. apply Permutation_swap.
Qed.

Lemma insertion_sort_perm {A} (key : A → Q) l : insertion_sort key l ≡ₚ l.
Proof.
  unfold insertion_sort. induction l as [|x l IH]; simpl; [done|].
  by rewrite insert_by_perm, IH.
Qed.

Lemma insert_by_hd {A} (key : A → Q) x y l :
  (key y <= key x)%Q → HdRel (λ a b, (key a <= key b)%Q) y l →
  HdRel (λ a b, (key a <= key b)%Q) y (insert_by key x l).
Proof.
  intros Hyx Hhd. destruct l as [|z l]; simpl; [by constructor|].
  destruct (Qle_bool (key x) (key z)); constructor; [done|].
  by inversion Hhd.
Qed.

Lemma insert_by_sorted {A} (key : A → Q) x l :
  Sorted (λ a b, (key a <= key b)%Q) l →
  Sorted (λ a b, (key a <= key b)%Q) (insert_by key x l).
Proof.
  induction 1 as [|y l Hs IH Hhd]; simpl.
  - repeat constructor.
  - destruct (Qle_bool (key x) (key y)) eqn:E.
    + apply Qle_bool_iff in E. repeat constructor; done.
    + constructor; [done|]. apply insert_by_hd; [|done].
      apply Qlt_le_weak, Qnot_le_lt. intros Hle.
      apply Qle_bool_iff in Hle. congruence.
Qed.

Lemma insertion_sort_sorted {A} (key : A → Q) l :
  Sorted (λ a b, (key a <= key b)%Q) (insertion_sort key l).
Proof.
  unfold insertion_sort. induction l as [|x l IH]; simpl; [constructor|].
  by apply insert_by_sorted.
Qed.

Lemma first_wins_contract : sort_contract first_wins.
Proof.
  intros A key l. split; [apply insertion_sort_perm | apply insertion_sort_sorted].
Qed.

Lemma last_wins_contract : sort_contract last_wins.
Proof.
  intros A key l. simpl. split.
  - rewrite insertion_sort_perm. symmetry. apply Permutation_rev.
  - apply insertion_sort_sorted.
Qed.

(** Two items with distinct keys can only come out one way. *)
Lemma argsort_pair (I : Impl) {A} (key : A → Q) (a b : A) :
  sort_contract I → (key a < key b)%Q →
  argsort key [a; b] = [a; b] ∧ argsort key [b; a] = [a; b].
Proof.
  intros HI Hlt.
  assert (∀ l, l ≡ₚ [a; b] → Sorted (λ x y, (key x <= key y)%Q) l → l = [a; b])
    as Huniq.
  { intros l Hp Hs. symmetry in Hp.
    apply Permutation_length_2_inv in Hp as [->| ->]; [done|].
    inversion Hs as [|? ? _ Hhd]; subst. inversion Hhd as [|? ? Hle]; subst.
    exfalso. by apply (Qlt_not_le _ _ Hlt). }
  split; apply Huniq; try apply HI.
  rewrite (proj1 (HI A key [b; a])). apply Permutation_swap.
Qed.

(** The rows [sort_values] returns are a rearrangement of the rows it was
    given, and scores do not increase along them. *)
Lemma sort_desc_sorted (I : Impl) c df :
  sort_contract I →
  (∀ r, r ∈ rows df → ∃ q, get r c = Num q) →
  rows (sort_desc c df) ≡ₚ rows df
  ∧ Sorted (λ x y, (float_key c y <= float_key c x)%Q) (rows (sort_desc c df)).
Proof.
  intros HI Hnum. rewrite (EngineFacts.rows_sort_desc c df Hnum).
  destruct (HI _ (float_key c) (rev (rows df))) as [Hp Hs]. split.
  - rewrite <- Permutation_rev, Hp. symmetry. apply Permutation_rev.
  - rewrite rev_reverse. by apply Sorted_reverse in Hs.
Qed.

End SortFacts.

(* ===================================================================== *)
(** * The recommendation engine: scores, candidates, ranking, frame *)
(* ===================================================================== *)

Module EngineSpec.
Import Pandas Engine Frames FrameFacts RunFacts EngineFacts SortFacts Reference.
Local Open Scope frame_scope.
Local Open Scope nat_scope.

Lemma filter_map_comm {A B} (f : A → B) (p : B → bool) (l : list A) :
  filter (λ y, p y = true) (map f l) = map f (filter (λ x, p (f x) = true) l).
Proof.
  induction l as [|a l IH]; [done|]. cbn [map].
  rewrite !filter_cons. destruct (decide (p (f a) = true)); cbn [map]; by rewrite IH.
Qed.

Lemma rows_matching `{Impl} c cat :
  rows (matching c cat)
  = map (λ r, <["Cluster" := to_numeric_cell (get r "Cluster")]> r)
      (filter (λ r, cluster_matches c r = true) (rows cat)).
Proof.
  unfold matching, coerced_cluster, mask_rows. cbn [rows].
  rewrite rows_assign.
  rewrite (filter_map_comm _ (eq_int (λ r, get r "Cluster") c)).
  f_equal. apply list_filter_iff. intros r.
  unfold eq_int, cluster_matches, to_numeric. by rewrite get_insert_eq.
Qed.

Lemma candidates_nonempty `{Impl} c cat :
  rows cat ≠ [] → rows (candidates c cat) ≠ [].
Proof.
  intros Hne. unfold candidates. destruct (has_column cat "Cluster"); [|done].
  destruct (Nat.eqb _ 0) eqn:E; [done|].
  apply Nat.eqb_neq in E. intros Hnil. by rewrite Hnil in E.
Qed.

Lemma length_rows_field_added field df :
  length (rows (field_added field df)) = length (rows df).
Proof.
  unfold field_added. destruct (negb _); [|done].
  case_bool_decide; apply length_rows_assign.
Qed.

Lemma length_rows_field_cleaned `{Impl} field df :
  length (rows (field_cleaned field df)) = length (rows df).
Proof. unfold field_cleaned. destruct (has_column _ _); [apply length_rows_assign|done]. Qed.

Lemma length_rows_projected `{Impl} df :
  length (rows (projected df)) = length (rows df).
Proof.
  unfold projected, fields_ready, numeric_fields, required_fields. cbn [foldl].
  rewrite !length_rows_field_cleaned. unfold project. cbn [rows].
  rewrite length_map, length_rows_field_cleaned.
  by rewrite !length_rows_field_added.
Qed.

Lemma length_rows_scored `{Impl} df : length (rows (scored df)) = length (rows df).
Proof. by rewrite rows_scored, length_map. Qed.

(** C1. For every candidate the engine stores
    [score = Protein*2 - Fat*1.5 - Calories/50] in the [score] column,
    computed in [float64] from the three amounts, where a column that is
    absent, or an entry that is missing or does not parse, counts as 0
    (stated for the rows on which no operation overflows, where the score
    is a finite double); and for the
    two-item table [Broccoli, Bacon] without a [Cluster] column and
    cluster 2 the scores are the doubles 4.32 and -44.4 and, whatever sort
    the library uses within its contract, the recommended foods are
    Broccoli then Bacon. *)
Theorem score_formula_and_scenario (I : Impl) :
  (∀ (h : list DataFrame) w df,
      h !! w = Some df →
      ∃ h' df',
        score_candidates w h = inr (tt, h')
        ∧ h' !! w = Some df'
        ∧ length (rows df') = length (rows df)
        ∧ ∀ i r, rows df !! i = Some r →
            ∃ r', rows df' !! i = Some r'
                  ∧ (no_overflow df r →
                     get r' "score" = Num (score_of df r)
                     ∧ Float64.is_finite (score_of df r) = true))
  ∧ map (score_of broccoli_bacon) (rows broccoli_bacon)
    = [ Float64.round (432 # 100); Float64.round (- (444 # 10)) ]
  ∧ Forall (no_overflow broccoli_bacon) (rows broccoli_bacon)
  ∧ (sort_contract I →
     ∀ (h : list DataFrame) food,
       h !! food = Some broccoli_bacon →
       ∃ l h' out,
         get_cluster_recommendations food 2 h
         = inr (("Active Diabetic with High Blood Pressure", "Low-Fat Foods", l), h')
         ∧ h' !! l = Some out
         ∧ names out = [Str "Broccoli"; Str "Bacon"]).
Proof.
  split; [|split; [|split]].
  - intros h w df E. exists (<[w := scored df]> h), (scored df).
    split; [by apply score_candidates_run|].
    split; [by eapply lookup_written|].
    split; [apply length_rows_scored|].
    intros i r Hi. exists (scored_row df r). split.
    + rewrite rows_scored. change (map ?f ?l) with (f <$> l).
      by rewrite list_lookup_fmap, Hi.
    + intros Hfin. split; [apply get_scored_row | by apply no_overflow_score].
  - by vm_compute.
  - repeat constructor; by vm_compute.
  - intros HI h food E.
    destruct (get_cluster_recommendations_run h food _ 2%Z E) as (l & h' & R & El & _).
    exists l, h', (recommended_foods 2 broccoli_bacon).
    split; [exact R|]. split; [exact El|].
    unfold recommended_foods.
    change (candidates 2 broccoli_bacon) with broccoli_bacon.
    assert (ranked (scored broccoli_bacon)
            = {| columns := columns (scored broccoli_bacon);
                 rows := map (scored_row broccoli_bacon) (rows broccoli_bacon) |})
      as ->.
    { unfold ranked, head_rows. f_equal.
      rewrite rows_sort_desc by apply scored_score_num.
      rewrite rows_scored. cbn [rows broccoli_bacon map rev app].
      match goal with
      | |- context [argsort ?k [?b; ?a]] =>
          destruct (argsort_pair I k b a HI) as [-> _]; [by vm_compute|]
      end.
      reflexivity. }
    by vm_compute.
Qed.

Lemma score_formula_and_scenario_witness :
  (∃ h' df',
     score_candidates (H := first_wins) 0 [clustered] = inr (tt, h')
     ∧ h' !! 0 = Some df'
     ∧ length (rows df') = length (rows clustered)
     ∧ ∀ i r, rows clustered !! i = Some r →
         ∃ r', rows df' !! i = Some r'
               ∧ (no_overflow (H := first_wins) clustered r →
                  get r' "score" = Num (@score_of first_wins clustered r)
                  ∧ Float64.is_finite (@score_of first_wins clustered r) = true))
  ∧ (∃ l h' out,
       get_cluster_recommendations (H := first_wins) 0 2 [broccoli_bacon]
       = inr (("Active Diabetic with High Blood Pressure", "Low-Fat Foods", l), h')
       ∧ h' !! l = Some out
       ∧ names out = [Str "Broccoli"; Str "Bacon"]).
Proof.
  destruct (score_formula_and_scenario first_wins)
    as (Hscore & _ & _ & Hscenario). split.
  - apply (Hscore [clustered] 0 clustered). reflexivity.
  - apply (Hscenario first_wins_contract [broccoli_bacon] 0). reflexivity.
Defined.

(** C2, as stated, fails: [sort_values] is given no [kind], so the rows
    are sorted by numpy's quicksort, which keeps equal keys in order only
    up to 17 items.  The eighteen foods of [eighteen] have the same score,
    2.5, and the result lists Food 17 before Food 16, Food 16 before
    Food 15 and so on, against the order of the table. *)
Lemma equal_scores_may_swap :
  names eighteen
  = map Str [ "Food 01"; "Food 02"; "Food 03"; "Food 04"; "Food 05"; "Food 06";
              "Food 07"; "Food 08"; "Food 09"; "Food 10"; "Food 11"; "Food 12";
              "Food 13"; "Food 14"; "Food 15"; "Food 16"; "Food 17"; "Food 18" ]
  ∧ Forall (λ r, score_of (H := numpy) eighteen r = Float64.round (5 # 2)
                 ∧ no_overflow (H := numpy) eighteen r)
      (rows eighteen)
  ∧ (∃ l h' out,
       get_cluster_recommendations (H := numpy) 0 2 [eighteen]
       = inr (("Active Diabetic with High Blood Pressure", "Low-Fat Foods", l), h')
       ∧ h' !! l = Some out
       ∧ names out
         = map Str [ "Food 01"; "Food 02"; "Food 17"; "Food 16"; "Food 15";
                     "Food 14"; "Food 13"; "Food 12"; "Food 11"; "Food 10" ]).
Proof.
  split; [by vm_compute|].
  split; [repeat constructor; by vm_compute|].
  destruct (get_cluster_recommendations_run (H := numpy) [eighteen] 0 eighteen 2%Z
              eq_refl) as (l & h' & R & El & _).
  exists l, h', (recommended_foods (H := numpy) 2 eighteen).
  split; [exact R|]. split; [exact El|]. by vm_compute.
Qed.

(** C2, amended. The engine sorts the scored candidates by score, highest
    first, with the library's default sort: when no score overflows, the
    rows it keeps are the first ten of a rearrangement of the candidates
    along which the score never increases.  The order among equal scores
    is left to the library. *)
Theorem sorted_by_score_descending (I : Impl) (h : list DataFrame) w df :
  sort_contract I →
  h !! w = Some df →
  Forall (no_overflow df) (rows df) →
  ∃ l h' out ordered,
    (score_candidates w ;; rank w) h = inr (l, h')
    ∧ h' !! l = Some out
    ∧ rows out = take 10 ordered
    ∧ ordered ≡ₚ rows (scored df)
    ∧ Sorted (λ x y, (score y <= score x)%Q) ordered.
Proof.
  intros HI E _.
  pose proof (lookup_written _ _ _ (scored df) E) as E1.
  destruct (sort_desc_sorted I "score" (scored df) HI (scored_score_num df))
    as [Hp Hs].
  eexists _, _, (ranked (scored df)), (rows (sort_desc "score" (scored df))).
  split.
  { run_with (score_candidates_run _ _ _ E).
    apply (rank_run _ _ _ E1 (has_column_assign_same _ _ _) (scored_score_num df)). }
  split; [apply list_lookup_middle; rewrite length_app; simpl; lia|].
  done.
Qed.

Lemma sorted_by_score_descending_witness :
  ∃ l h' out ordered,
    (score_candidates (H := first_wins) 0 ;; rank (H := first_wins) 0) [broccoli_bacon]
    = inr (l, h')
    ∧ h' !! l = Some out
    ∧ rows out = take 10 ordered
    ∧ ordered ≡ₚ rows (scored (H := first_wins) broccoli_bacon)
    ∧ Sorted (λ x y, (score y <= score x)%Q) ordered.
Proof.
  apply (sorted_by_score_descending first_wins [broccoli_bacon] 0 broccoli_bacon).
  - apply first_wins_contract.
  - reflexivity.
  - repeat constructor; by vm_compute.
Defined.

(** C4. When the table has a [Cluster] column the candidates are the rows
    whose label, made numeric, equals the requested cluster; when no row
    passes, or the table has no such column, the candidates are the whole
    table.  So a non-empty table never yields an empty candidate set. *)
Theorem cluster_filter_with_fallback (I : Impl) (h : list DataFrame) food cat c :
  h !! food = Some cat →
  ∃ w h' cand,
    select_candidates food c h = inr (w, h')
    ∧ h' !! w = Some cand
    ∧ (has_column cat "Cluster" = true →
       filter (λ r, cluster_matches c r = true) (rows cat) ≠ [] →
       rows cand
       = map (λ r, <["Cluster" := to_numeric_cell (get r "Cluster")]> r)
           (filter (λ r, cluster_matches c r = true) (rows cat)))
    ∧ (has_column cat "Cluster" = true →
       filter (λ r, cluster_matches c r = true) (rows cat) = [] →
       cand = cat)
    ∧ (has_column cat "Cluster" = false → cand = cat)
    ∧ (rows cat ≠ [] → rows cand ≠ []).
Proof.
  intros E.
  destruct (select_candidates_run h food cat c E) as (w & h' & R & Ew & _ & _).
  exists w, h', (candidates c cat). split; [done|]. split; [done|].
  unfold candidates at 1 2 3. rewrite rows_matching, length_map.
  repeat split.
  - intros -> Hne.
    destruct (filter _ (rows cat)) eqn:F; [done|]. cbn [length Nat.eqb].
    rewrite rows_matching. by rewrite F.
  - by intros -> ->.
  - by intros ->.
  - apply candidates_nonempty.
Qed.

Lemma cluster_filter_with_fallback_witness :
  ∃ w h' cand,
    select_candidates (H := first_wins) 0 9 [clustered] = inr (w, h')
    ∧ h' !! w = Some cand
    ∧ cand = clustered.
Proof.
  destruct (cluster_filter_with_fallback first_wins [clustered] 0 clustered 9 eq_refl)
    as (w & h' & cand & R & Ew & _ & Hfall & _).
  exists w, h', cand. split; [exact R|]. split; [exact Ew|].
  apply Hfall; reflexivity.
Defined.

(** C5. The list of recommended foods has [min 10 n] items, [n] being the
    number of candidates; it is not empty when the table is not; and the
    call returns for every table. *)
Theorem recommendation_length (I : Impl) (h : list DataFrame) food cat c :
  sort_contract I →
  h !! food = Some cat →
  ∃ p t l h' out w h1 cand,
    get_cluster_recommendations food c h = inr ((p, t, l), h')
    ∧ h' !! l = Some out
    ∧ select_candidates food c h = inr (w, h1)
    ∧ h1 !! w = Some cand
    ∧ length (rows out) = min 10 (length (rows cand))
    ∧ (rows cat ≠ [] → rows out ≠ []).
Proof.
  intros HI E.
  destruct (get_cluster_recommendations_run h food cat c E) as (l & h' & R & El & _).
  destruct (select_candidates_run h food cat c E) as (w & h1 & R1 & Ew & _ & _).
  exists (Policy.profile_name c), (Policy.recommendation_type c), l, h',
    (recommended_foods c cat), w, h1, (candidates c cat).
  do 4 (split; [done|]).
  assert (length (rows (recommended_foods c cat))
          = min 10 (length (rows (candidates c cat)))) as Hlen.
  { unfold recommended_foods. rewrite length_rows_projected.
    unfold ranked, head_rows. cbn [rows]. rewrite length_take. f_equal.
    destruct (sort_desc_sorted I "score" _ HI (scored_score_num (candidates c cat)))
      as [Hp _].
    rewrite Hp. apply length_rows_scored. }
  split; [done|].
  intros Hne%(candidates_nonempty c). intros Hnil.
  rewrite Hnil in Hlen. destruct (rows (candidates c cat)); [done|].
  simpl in Hlen. lia.
Qed.

Lemma recommendation_length_witness :
  ∃ p t l h' out w h1 cand,
    get_cluster_recommendations (H := first_wins) 0 9 [clustered] = inr ((p, t, l), h')
    ∧ h' !! l = Some out
    ∧ select_candidates (H := first_wins) 0 9 [clustered] = inr (w, h1)
    ∧ h1 !! w = Some cand
    ∧ length (rows out) = min 10 (length (rows cand))
    ∧ (rows clustered ≠ [] → rows out ≠ []).
Proof.
  apply (recommendation_length first_wins [clustered] 0 clustered 9).
  - apply first_wins_contract.
  - reflexivity.
Defined.

(** C9. A call leaves the table as it was: the call returns, and every
    frame that was in the store before it, the table among them, is found
    unchanged afterwards; the result lives in a frame of its own. *)
Theorem catalog_unchanged (I : Impl) (h : list DataFrame) food cat c :
  h !! food = Some cat →
  ∃ res h',
    get_cluster_recommendations food c h = inr (res, h')
    ∧ h' !! food = Some cat
    ∧ (∀ l df, h !! l = Some df → h' !! l = Some df)
    ∧ length h ≤ res.2.
Proof.
  intros E. unfold get_cluster_recommendations. cbv zeta.
  destruct (select_candidates_run h food cat c E) as (w & h1 & R1 & E1 & Hw & P1).
  run_with R1.
  run_with (score_candidates_run _ _ _ E1).
  set (cand := candidates c cat) in *.
  pose proof (lookup_written _ _ _ (scored cand) E1) as E2.
  run_with (rank_run _ _ _ E2 (has_column_assign_same _ _ _)
                (scored_score_num cand)).
  set (h2 := <[w := scored cand]> h1).
  set (h3 := (h2 ++ [sort_desc "score" (scored cand)]) ++ [ranked (scored cand)]).
  assert (h3 !! S (length h2) = Some (ranked (scored cand))) as E3.
  { unfold h3. apply list_lookup_middle. rewrite length_app. simpl. lia. }
  run_with (project_fields_run _ _ _ E3).
  unfold ret. eexists _, _. split; [done|].
  assert (length h ≤ length h2) as L2.
  { unfold h2. rewrite length_insert. apply lookup_lt_Some in E1. lia. }
  assert (preserved h h3) as P3.
  { unfold h3. eapply preserved_trans; [|apply preserved_new].
    eapply preserved_trans; [|apply preserved_new].
    by apply preserved_written. }
  assert (preserved h
            ((<[S (length h2) := fields_ready (ranked (scored cand))]> h3
                ++ [project required_fields (fields_ready (ranked (scored cand)))])
               ++ [projected (ranked (scored cand))])) as P4.
  { eapply preserved_trans; [|apply preserved_new].
    eapply preserved_trans; [|apply preserved_new].
    apply preserved_written; [done|]. lia. }
  split; [by apply P4|]. split; [exact P4|].
  cbn [snd]. unfold h3. rewrite !length_app. simpl. lia.
Qed.

Lemma catalog_unchanged_witness :
  ∃ res h',
    get_cluster_recommendations (H := last_wins) 0 0 [clustered] = inr (res, h')
    ∧ h' !! 0 = Some clustered
    ∧ (∀ l df, [clustered] !! l = Some df → h' !! l = Some df)
    ∧ 1 ≤ res.2.
Proof.
  apply (catalog_unchanged last_wins [clustered] 0 clustered 0). reflexivity.
Defined.

End EngineSpec.

(* ===================================================================== *)
(** * Cluster policy *)
(* ===================================================================== *)

Module PolicySpec.
Import Policy.

Lemma outside_table {V} (l : list (Z * V)) (c : Z) :
  c ∉ l.*1 → dict_get (list_to_map l) c = λ dflt, dflt.
Proof.
  intros Hc. unfold dict_get. by rewrite (not_elem_of_list_to_map_1 l c Hc).
Qed.

(** C3. The policy lookup is defined on every integer: an id from 0 to 5
    gets its table entries (id 5: "High BMI (Obese) with Diabetes" and
    "Balanced (Low-Calorie) Foods"), any other id, negative ones included,
    gets "Cluster <id>" and "Balanced (Low-Calorie) Foods". *)
Theorem policy_total (c : Z) :
  (0 ≤ c ≤ 5 →
   CLUSTER_PROFILE !! c = Some (profile_name c)
   ∧ CLUSTER_RECOMMENDATION_TYPE !! c = Some (recommendation_type c))
  ∧ profile_name 5 = "High BMI (Obese) with Diabetes"
  ∧ recommendation_type 5 = "Balanced (Low-Calorie) Foods"
  ∧ (¬ (0 ≤ c ≤ 5) →
     profile_name c = "Cluster " +:+ str_int c
     ∧ recommendation_type c = "Balanced (Low-Calorie) Foods").
Proof.
  split; [|split; [done|split; [done|]]].
  - intros Hc.
    assert (c = 0 ∨ c = 1 ∨ c = 2 ∨ c = 3 ∨ c = 4 ∨ c = 5) as Hcases by lia.
    destruct Hcases as [->|[->|[->|[->|[->| ->]]]]]; by vm_compute.
  - intros Hc.
    assert (c ∉ [0; 1; 2; 3; 4; 5]) as Hout.
    { rewrite !elem_of_cons, elem_of_nil. lia. }
    unfold profile_name, recommendation_type, CLUSTER_PROFILE,
      CLUSTER_RECOMMENDATION_TYPE.
    by rewrite !outside_table.
Qed.

Lemma policy_total_witness :
  (CLUSTER_PROFILE !! 2 = Some (profile_name 2)
   ∧ CLUSTER_RECOMMENDATION_TYPE !! 2 = Some (recommendation_type 2))
  ∧ (profile_name (-3) = "Cluster -3"
     ∧ recommendation_type (-3) = "Balanced (Low-Calorie) Foods")
  ∧ (profile_name 6 = "Cluster 6"
     ∧ recommendation_type 6 = "Balanced (Low-Calorie) Foods").
Proof.
  split; [|split].
  - apply (proj1 (policy_total 2)). lia.
  - apply (proj2 (proj2 (proj2 (policy_total (-3))))). lia.
  - apply (proj2 (proj2 (proj2 (policy_total 6)))). lia.
Defined.

End PolicySpec.

(* ===================================================================== *)
(** * Request validation *)
(* ===================================================================== *)

Module ValidatorSpec.
Import Json Validator Reference.

Lemma sorted_spec (s : gset string) :
  StronglySorted String.le (sorted s)
  ∧ NoDup (sorted s)
  ∧ ∀ k, k ∈ sorted s ↔ k ∈ s.
Proof.
  unfold sorted. split; [apply StronglySorted_merge_sort; apply _|]. split.
  - rewrite merge_sort_Permutation. apply NoDup_elements.
  - intros k. rewrite merge_sort_Permutation. apply elem_of_elements.
Qed.

Lemma truthy_object (m : gmap string value) : m ≠ ∅ → truthy (JObj m) = true.
Proof. intros Hm. simpl. by rewrite bool_decide_false. Qed.

Lemma in_str_list_true s l : s ∈ l → in_str_list (JStr s) l = true.
Proof.
  intros Hs. unfold in_str_list. apply existsb_exists. exists s.
  split; [by apply list_elem_of_In|]. simpl. apply String.eqb_refl.
Qed.

Lemma check_categorical_ok (m : gmap string value) items :
  Forall (λ item, ∃ s, m !! item.1 = Some (JStr s) ∧ s ∈ item.2) items →
  check_categorical m items = None.
Proof.
  induction 1 as [|[key allowed] items (s & Hk & Hs) _ IH]; [done|].
  simpl in *. by rewrite Hk, in_str_list_true.
Qed.

Lemma check_numeric_ok (m : gmap string value) fields :
  Forall (λ f, ∃ v, m !! f = Some v ∧ PyFloat.float_ v = PyFloat.Converted) fields →
  check_numeric m fields = inr None.
Proof.
  induction 1 as [|f fields (v & Hf & Hv) _ IH]; [done|].
  simpl. by rewrite Hf, Hv.
Qed.

(** C7. A non-empty record that lacks a required key is rejected with the
    missing-keys error, whose list holds exactly the required keys that are
    absent, each once, in sorted order. *)
Theorem missing_keys_reported (m : gmap string value) :
  m ≠ ∅ →
  (∃ k, k ∈ REQUIRED_KEYS ∧ m !! k = None) →
  ∃ ks,
    validate_request (JObj m) = inr (false, Some (MissingKeys ks), 400)
    ∧ StronglySorted String.le ks
    ∧ NoDup ks
    ∧ ∀ k, k ∈ ks ↔ k ∈ REQUIRED_KEYS ∧ m !! k = None.
Proof.
  intros Hm (k0 & Hreq & Hnone).
  exists (sorted (list_to_set REQUIRED_KEYS ∖ dom m)).
  destruct (sorted_spec (list_to_set REQUIRED_KEYS ∖ dom m)) as (Hs & Hd & He).
  split; [|split; [done|split; [done|]]].
  - unfold validate_request. rewrite (truthy_object m Hm). cbn [negb].
    rewrite bool_decide_false; [done|].
    intros Hempty.
    assert (k0 ∈ (list_to_set REQUIRED_KEYS ∖ dom m : gset string)) as Hin.
    { apply elem_of_difference. split; [by apply elem_of_list_to_set|].
      by apply not_elem_of_dom. }
    rewrite Hempty in Hin. by apply not_elem_of_empty in Hin.
  - intros k. rewrite He, elem_of_difference, elem_of_list_to_set, not_elem_of_dom.
    done.
Qed.

Lemma missing_keys_reported_witness :
  ∃ ks,
    validate_request (JObj partial_request) = inr (false, Some (MissingKeys ks), 400)
    ∧ ks = ["Age"; "BMI"].
Proof.
  destruct (missing_keys_reported partial_request) as (ks & R & _).
  - intros Hempty.
    assert (partial_request !! "Daily_Steps" = None) as Hnone
      by (rewrite Hempty; apply lookup_empty).
    vm_compute in Hnone. discriminate.
  - exists "Age". split; [|by vm_compute]. unfold REQUIRED_KEYS. set_solver.
  - exists ks. split; [exact R|].
    assert (validate_request (JObj partial_request)
            = inr (false, Some (MissingKeys ["Age"; "BMI"]), 400)) as R'
      by (by vm_compute).
    rewrite R in R'. congruence.
Defined.

(** C6, as stated, fails: a record with a stray key that also lacks required
    keys is rejected for the missing keys, not for the stray one. *)
Lemma stray_key_reported_as_missing :
  stray_request ≠ ∅
  ∧ (∃ k, k ∈ dom stray_request ∧ k ∉ REQUIRED_KEYS)
  ∧ validate_request (JObj stray_request)
    = inr (false,
           Some (MissingKeys
                   [ "Age"; "Alcohol_Consumption"; "BMI";
                     "Blood_Pressure_Systolic"; "Blood_Sugar_Level";
                     "Chronic_Disease"; "Daily_Steps"; "Dietary_Habits";
                     "Exercise_Frequency"; "Smoking_Habit" ]),
           400)
  ∧ ∀ ks, validate_request (JObj stray_request)
          ≠ inr (false, Some (UnexpectedKeys ks), 400).
Proof.
  assert (validate_request (JObj stray_request)
          = inr (false,
                 Some (MissingKeys
                         [ "Age"; "Alcohol_Consumption"; "BMI";
                           "Blood_Pressure_Systolic"; "Blood_Sugar_Level";
                           "Chronic_Disease"; "Daily_Steps"; "Dietary_Habits";
                           "Exercise_Frequency"; "Smoking_Habit" ]),
                 400)) as R by (by vm_compute).
  split; [by vm_compute|]. split.
  - exists "Weight". split.
    + unfold stray_request. rewrite dom_singleton_L. set_solver.
    + unfold REQUIRED_KEYS. rewrite !elem_of_cons, elem_of_nil.
      intros Hk. repeat (destruct Hk as [Hk|Hk]; [discriminate|]). done.
  - split; [exact R|]. intros ks. rewrite R. congruence.
Qed.

(** C6, amended. A record that holds every required key and at least one
    other key is rejected with the unexpected-keys error, whose list holds
    exactly the keys outside the required ones, each once, in sorted order. *)
Theorem unexpected_keys_reported (m : gmap string value) :
  (∀ k, k ∈ REQUIRED_KEYS → is_Some (m !! k)) →
  (∃ k, k ∈ dom m ∧ k ∉ REQUIRED_KEYS) →
  ∃ ks,
    validate_request (JObj m) = inr (false, Some (UnexpectedKeys ks), 400)
    ∧ StronglySorted String.le ks
    ∧ NoDup ks
    ∧ ∀ k, k ∈ ks ↔ k ∈ dom m ∧ k ∉ REQUIRED_KEYS.
Proof.
  intros Hall (k0 & Hin & Hextra).
  exists (sorted (dom m ∖ list_to_set REQUIRED_KEYS)).
  destruct (sorted_spec (dom m ∖ list_to_set REQUIRED_KEYS)) as (Hs & Hd & He).
  assert (m ≠ ∅) as Hm.
  { intros ->. rewrite dom_empty_L in Hin. by apply not_elem_of_empty in Hin. }
  split; [|split; [done|split; [done|]]].
  - unfold validate_request. rewrite (truthy_object m Hm). cbn [negb].
    rewrite (bool_decide_true (_ ∖ dom m = ∅)).
    + cbn [negb]. rewrite bool_decide_false; [done|].
      intros Hempty.
      assert (k0 ∈ (dom m ∖ list_to_set REQUIRED_KEYS : gset string)) as Hk.
      { apply elem_of_difference. split; [done|].
        by rewrite elem_of_list_to_set. }
      rewrite Hempty in Hk. by apply not_elem_of_empty in Hk.
    + apply set_eq. intros k.
      rewrite elem_of_difference, elem_of_list_to_set, elem_of_dom.
      split; [|by intros ?%not_elem_of_empty]. intros [Hk Hno]. by apply Hall in Hk.
  - intros k. by rewrite He, elem_of_difference, elem_of_list_to_set.
Qed.

Lemma unexpected_keys_reported_witness :
  ∃ ks,
    validate_request (JObj extra_request) = inr (false, Some (UnexpectedKeys ks), 400)
    ∧ ks = ["Weight"].
Proof.
  destruct (unexpected_keys_reported extra_request) as (ks & R & _).
  - intros k Hk. unfold REQUIRED_KEYS in Hk.
    repeat (apply elem_of_cons in Hk as [->|Hk]; [vm_compute; eauto|]).
    by apply elem_of_nil in Hk.
  - exists "Weight". split.
    + apply elem_of_dom. vm_compute. eauto.
    + unfold REQUIRED_KEYS. rewrite !elem_of_cons, elem_of_nil.
      intros Hk. repeat (destruct Hk as [Hk|Hk]; [discriminate|]). done.
  - exists ks. split; [exact R|].
    assert (validate_request (JObj extra_request)
            = inr (false, Some (UnexpectedKeys ["Weight"]), 400)) as R'
      by (by vm_compute).
    rewrite R in R'. congruence.
Defined.

(** C10. A record with exactly the ten required keys and valid categorical
    values passes validation when each numeric field converts under
    [float()]; a string that [float()] reads as a non-finite value, such as
    "nan", "inf" or "-inf", converts, so such a record is accepted. *)
Theorem non_finite_strings_pass (m : gmap string value) :
  (PyFloat.of_string "nan" = Some PyFloat.LitNaN
   ∧ PyFloat.of_string "inf" = Some PyFloat.LitInfinity
   ∧ PyFloat.of_string "-inf" = Some PyFloat.LitInfinity)
  ∧ (dom m = list_to_set REQUIRED_KEYS →
     Forall (λ item, ∃ s, m !! item.1 = Some (JStr s) ∧ s ∈ item.2) ALLOWED_VALUES →
     Forall (λ f, ∃ v, m !! f = Some v
                  ∧ ((∃ s, v = JStr s
                           ∧ (PyFloat.of_string s = Some PyFloat.LitInfinity
                              ∨ PyFloat.of_string s = Some PyFloat.LitNaN))
                     ∨ PyFloat.float_ v = PyFloat.Converted))
       numeric_fields →
     validate_request (JObj m) = inr (true, None, 200)).
Proof.
  split; [by vm_compute|]. intros Hdom Hcat Hnum.
  assert (m ≠ ∅) as Hm.
  { intros ->. rewrite dom_empty_L in Hdom.
    assert ("Age" ∈ (∅ : gset string)) as Hin
      by (rewrite Hdom; unfold REQUIRED_KEYS; set_solver).
    by apply not_elem_of_empty in Hin. }
  unfold validate_request. rewrite (truthy_object m Hm). cbn [negb].
  rewrite Hdom, difference_diag_L, bool_decide_true by done. cbn [negb].
  rewrite (check_categorical_ok m _ Hcat), check_numeric_ok; [done|].
  eapply Forall_impl; [exact Hnum|]. intros f (v & Hf & Hv). exists v.
  split; [done|]. destruct Hv as [(s & -> & Hs)|Hv]; [|done].
  simpl. by destruct Hs as [-> | ->].
Qed.

Lemma non_finite_strings_pass_witness :
  validate_request (JObj non_finite_request) = inr (true, None, 200).
Proof.
  apply (proj2 (non_finite_strings_pass non_finite_request)).
  - unfold non_finite_request. rewrite dom_list_to_map_L. reflexivity.
  - unfold ALLOWED_VALUES.
    repeat (constructor; [eexists; split; [by vm_compute|]; set_solver|]).
    constructor.
  - unfold numeric_fields.
    repeat (constructor;
            [eexists; split; [by vm_compute|];
             first [ by right; vm_compute
                   | left; eexists; split; [done|]; by vm_compute ]|]).
    constructor.
Defined.

End ValidatorSpec.

(* ===================================================================== *)
(** * Cleaning the food table *)
(* ===================================================================== *)

Module LoaderSpec.
Import Pandas Loader Frames FrameFacts RunFacts EngineFacts Reference.
Local Open Scope frame_scope.
Local Open Scope nat_scope.

Lemma dtype_is_object_run (h : list DataFrame) l df c :
  h !! l = Some df → has_column df c = true →
  dtype_is_object l c h = inr (existsb (λ r, is_str (get r c)) (rows df), h).
Proof.
  intros E Hc. unfold dtype_is_object.
  by rewrite (bind_run _ _ _ _ _ (read_run _ _ _ E)), Hc.
Qed.

Lemma clean_column_run `{Impl} (h : list DataFrame) w df col :
  h !! w = Some df →
  clean_column w col h = inr (tt, <[w := cleaned_column col df]> h).
Proof.
  intros E. unfold clean_column, cleaned_column, is_object.
  run_with (contains_run _ _ _ col E).
  destruct (has_column df col) eqn:Hc; cbn [andb].
  - run_with (dtype_is_object_run _ _ _ _ E Hc).
    destruct (existsb _ (rows df)).
    + run_with (column_setitem_run _ _ _ _ col
                    (λ s, str_replace "t" "0" (astype_str s)) E Hc).
      set (df1 := assign col _ df).
      pose proof (lookup_written _ _ _ df1 E) as E1.
      run_with (column_setitem_run _ _ _ _ col
                    (λ s, str_replace "," "" (astype_str s)) E1
                    (has_column_assign_same _ _ _)).
      rewrite written_twice.
      set (df2 := assign col _ df1).
      pose proof (lookup_written _ _ _ df2 E) as E2.
      rewrite (column_setitem_run _ _ _ _ col to_numeric E2
                 (has_column_assign_same _ _ _)).
      by rewrite written_twice.
    + unfold ret, bind. by rewrite list_insert_id.
  - unfold ret, bind. by rewrite list_insert_id.
Qed.

Lemma rows_cleaned_column `{Impl} c df :
  rows (cleaned_column c df) = map (λ r, cleaned_entry_row df r c) (rows df).
Proof.
  unfold cleaned_column, cleaned_entry_row. destruct (is_object df c).
  - rewrite !rows_assign, !map_map. apply map_ext. intros r.
    unfold to_numeric, str_replace, astype_str, text_entry.
    rewrite !get_insert_eq. cbn [astype_str_cell].
    by rewrite !insert_insert_eq.
  - by rewrite map_id.
Qed.

Lemma has_column_cleaned_column `{Impl} c df c' :
  has_column (cleaned_column c df) c' = has_column df c'.
Proof.
  unfold cleaned_column, is_object.
  destruct (has_column df c) eqn:Hc; cbn [andb]; [|done].
  destruct (existsb _ _); [|done].
  rewrite !has_column_assign. case_bool_decide as E; [subst; by rewrite Hc|].
  by rewrite !orb_false_r.
Qed.

Lemma has_column_fold_cleaned `{Impl} cs df c' :
  has_column (foldl (λ d c, cleaned_column c d) df cs) c' = has_column df c'.
Proof.
  revert df. induction cs as [|c cs IH]; intros df; cbn [foldl]; [done|].
  by rewrite IH, has_column_cleaned_column.
Qed.

Lemma existsb_map {A B} (f : A → B) (p : B → bool) l :
  existsb p (map f l) = existsb (λ x, p (f x)) l.
Proof. induction l as [|a l IH]; simpl; [done|]. by rewrite IH. Qed.

Lemma existsb_pointwise {A} (p q : A → bool) l :
  (∀ x, p x = q x) → existsb p l = existsb q l.
Proof. intros E. induction l as [|a l IH]; simpl; [done|]. by rewrite E, IH. Qed.

Lemma forallb_pointwise {A} (p q : A → bool) l :
  (∀ x, p x = q x) → forallb p l = forallb q l.
Proof. intros E. induction l as [|a l IH]; simpl; [done|]. by rewrite E, IH. Qed.

Lemma get_cleaned_entry_row_ne `{Impl} df r c c' :
  c ≠ c' → get (cleaned_entry_row df r c) c' = get r c'.
Proof.
  intros Hne. unfold cleaned_entry_row. destruct (is_object df c); [|done].
  by rewrite get_insert_ne.
Qed.

Lemma is_object_cleaned_column `{Impl} c df c' :
  c ≠ c' → is_object (cleaned_column c df) c' = is_object df c'.
Proof.
  intros Hne. unfold is_object.
  rewrite has_column_cleaned_column, rows_cleaned_column, existsb_map.
  f_equal. apply existsb_pointwise. intros r.
  by rewrite get_cleaned_entry_row_ne.
Qed.

Lemma foldl_cleaned_entry_ext `{Impl} df df' cs r :
  (∀ c, c ∈ cs → is_object df c = is_object df' c) →
  foldl (cleaned_entry_row df) r cs = foldl (cleaned_entry_row df') r cs.
Proof.
  revert r. induction cs as [|c cs IH]; intros r Hext; cbn [foldl]; [done|].
  rewrite IH by (intros c' Hc'; apply Hext, elem_of_cons; auto).
  unfold cleaned_entry_row. rewrite Hext by (apply elem_of_cons; auto). done.
Qed.

Lemma rows_fold_cleaned `{Impl} cs df :
  NoDup cs →
  rows (foldl (λ d c, cleaned_column c d) df cs)
  = map (λ r, foldl (cleaned_entry_row df) r cs) (rows df).
Proof.
  intros Hnd. revert df.
  induction Hnd as [|c cs Hc Hnd IH]; intros df; cbn [foldl].
  - by rewrite map_id.
  - rewrite IH, rows_cleaned_column, map_map. apply map_ext. intros r.
    apply foldl_cleaned_entry_ext. intros c' Hc'.
    apply is_object_cleaned_column. by intros ->.
Qed.

Lemma get_fold_cleaned `{Impl} df cs r c :
  NoDup cs →
  get (foldl (cleaned_entry_row df) r cs) c
  = if bool_decide (c ∈ cs) && is_object df c then text_entry (get r c)
    else get r c.
Proof.
  intros Hnd. revert r.
  induction Hnd as [|c0 cs Hc0 Hnd IH]; intros r; cbn [foldl].
  - by rewrite bool_decide_false by apply not_elem_of_nil.
  - rewrite IH. destruct (decide (c = c0)) as [->|Hne].
    + rewrite (bool_decide_false (c0 ∈ cs)) by done.
      rewrite (bool_decide_true (c0 ∈ c0 :: cs)) by (apply elem_of_cons; auto).
      cbn [andb]. unfold cleaned_entry_row.
      destruct (is_object df c0); [by rewrite get_insert_eq|done].
    + rewrite get_cleaned_entry_row_ne by done.
      rewrite (bool_decide_ext (c ∈ c0 :: cs) (c ∈ cs)); [done|].
      rewrite elem_of_cons. split; [by intros [?|?]|auto].
Qed.

Lemma numeric_cols_nodup : NoDup numeric_cols.
Proof. apply (bool_decide_unpack _). by vm_compute. Qed.

Lemma fillna_text_entry `{Impl} x : fillna_cell 0 (text_entry x) = clean_text x.
Proof.
  unfold text_entry, clean_text. cbn [to_numeric_cell].
  by destruct (to_float _).
Qed.

Lemma clean_food_df_run `{Impl} (h : list DataFrame) w df :
  h !! w = Some df →
  forallb (has_column df) numeric_cols = true →
  clean_food_df w h = inr (tt, <[w := cleaned df]> h).
Proof.
  intros E Hc. unfold clean_food_df.
  run_with (for_inplace cleaned_column _ w
                (λ x h df, clean_column_run h w df x) _ _ _ E).
  set (df1 := foldl _ df numeric_cols).
  pose proof (lookup_written _ _ _ df1 E) as E1.
  rewrite (fillna_inplace_run _ _ _ _ 0%Q E1).
  - by rewrite written_twice.
  - rewrite <- Hc. apply forallb_pointwise. intros c.
    apply has_column_fold_cleaned.
Qed.

(** C8. Cleaning rewrites every numeric column that holds text entry by
    entry: each "t" becomes "0", commas are removed, the outcome is parsed
    as a float, and what does not parse becomes 0.  The table keeps all its
    rows. *)
Theorem text_columns_cleaned (I : Impl) (h : list DataFrame) food raw :
  h !! food = Some raw →
  (∀ c, c ∈ numeric_cols → has_column raw c = true) →
  ∃ h' df,
    clean_food_df food h = inr (tt, h')
    ∧ h' !! food = Some df
    ∧ length (rows df) = length (rows raw)
    ∧ ∀ i r, rows raw !! i = Some r →
        ∃ r', rows df !! i = Some r'
          ∧ ∀ c, c ∈ numeric_cols → is_object raw c = true →
              get r' c = clean_text (get r c).
Proof.
  intros E Hcols.
  assert (forallb (has_column raw) numeric_cols = true) as Hall.
  { apply forallb_forall. intros c Hc%list_elem_of_In. by apply Hcols. }
  assert (rows (cleaned raw)
          = map (λ r, fillna_row 0 numeric_cols
                        (foldl (cleaned_entry_row raw) r numeric_cols))
              (rows raw)) as Hrows.
  { unfold cleaned.
    rewrite rows_fillna_columns, (rows_fold_cleaned _ _ numeric_cols_nodup).
    by rewrite map_map. }
  exists (<[food := cleaned raw]> h), (cleaned raw).
  split; [by apply clean_food_df_run|].
  split; [by eapply lookup_written|].
  split; [by rewrite Hrows, length_map|].
  intros i r Hi. eexists. split.
  - rewrite Hrows. change (map ?f ?l) with (f <$> l).
    by rewrite list_lookup_fmap, Hi.
  - intros c Hc Hobj.
    rewrite get_fillna_row, (bool_decide_true (c ∈ numeric_cols)) by done.
    rewrite (get_fold_cleaned _ _ _ _ numeric_cols_nodup).
    rewrite (bool_decide_true (c ∈ numeric_cols)), Hobj by done. cbn [andb].
    apply fillna_text_entry.
Qed.

Lemma text_columns_cleaned_witness :
  ∃ h' df,
    clean_food_df (H := first_wins) 0 [raw_nutrients] = inr (tt, h')
    ∧ h' !! 0 = Some df
    ∧ map (λ r, (get r "Grams", get r "Calories", get r "Fat")) (rows df)
      = [ (Num 976, Num 660, Num 40);
          (Num 1200, Num 0, Num 0);
          (Num 8, Num 0, Num (5 # 10)) ].
Proof.
  destruct (text_columns_cleaned first_wins [raw_nutrients] 0 raw_nutrients eq_refl)
    as (h' & df & R & E & _ & _).
  - intros c Hc. unfold numeric_cols in Hc.
    repeat (apply elem_of_cons in Hc as [->|Hc]; [by vm_compute|]).
    by apply elem_of_nil in Hc.
  - exists h', df. split; [exact R|]. split; [exact E|].
    assert (clean_food_df (H := first_wins) 0 [raw_nutrients]
            = inr (tt, [@cleaned first_wins raw_nutrients])) as R'
      by (by vm_compute).
    rewrite R in R'. injection R' as ->.
    injection E as <-. by vm_compute.
Defined.

End LoaderSpec.

(* ===================================================================== *)
(** * More on request validation *)
(* ===================================================================== *)

Module ValidatorMore.
Import Json Validator ValidatorSpec Outcomes.

(** Membership in a list that is written out. *)
Ltac in_list := repeat (apply elem_of_cons; first [left; reflexivity | right]).

Lemma in_str_list_spec v l :
  in_str_list v l = true ↔ ∃ s, v = JStr s ∧ s ∈ l.
Proof.
  unfold in_str_list. rewrite existsb_exists. split.
  - intros (s & Hin%list_elem_of_In & Heq). destruct v; try discriminate.
    apply String.eqb_eq in Heq. subst. eauto.
  - intros (s & -> & Hin). exists s. split; [by apply list_elem_of_In|].
    apply String.eqb_refl.
Qed.

Lemma dom_required_nonempty (m : gmap string value) :
  dom m = list_to_set REQUIRED_KEYS → m ≠ ∅.
Proof.
  intros Hdom ->. rewrite dom_empty_L in Hdom.
  assert ("Age" ∈ (∅ : gset string)) as Hin
    by (rewrite Hdom; apply elem_of_list_to_set; unfold REQUIRED_KEYS; in_list).
  by apply not_elem_of_empty in Hin.
Qed.

(** With the exact key set, validation is the two field loops. *)
Lemma validate_exact_keys (m : gmap string value) :
  dom m = list_to_set REQUIRED_KEYS →
  validate_request (JObj m)
  = match check_categorical m ALLOWED_VALUES with
    | Some e => inr (false, Some e, 400)
    | None =>
        match check_numeric m numeric_fields with
        | inl x => inl x
        | inr (Some e) => inr (false, Some e, 400)
        | inr None => inr (true, None, 200)
        end
    end.
Proof.
  intros Hdom. unfold validate_request.
  rewrite (truthy_object m (dom_required_nonempty m Hdom)). cbn [negb].
  by rewrite Hdom, difference_diag_L, bool_decide_true.
Qed.

Lemma set_difference_empty (X Y : gset string) : X ∖ Y = ∅ → X ⊆ Y.
Proof.
  intros Hd x Hx. destruct (decide (x ∈ Y)) as [|Hn]; [done|].
  assert (x ∈ X ∖ Y) as Hin by by apply elem_of_difference.
  rewrite Hd in Hin. by apply not_elem_of_empty in Hin.
Qed.

Lemma check_categorical_none (m : gmap string value) items :
  (∀ item, item ∈ items → is_Some (m !! item.1)) →
  check_categorical m items = None → Forall (categorical_ok m) items.
Proof.
  induction items as [|[key allowed] items IH]; intros Hkeys Hc; [constructor|].
  simpl in Hc.
  destruct (Hkeys (key, allowed)) as [v Hv]; [apply elem_of_cons; auto|].
  simpl in Hv. rewrite Hv in Hc.
  destruct (in_str_list v allowed) eqn:Hin; [|done].
  constructor.
  - apply in_str_list_spec in Hin as (s & -> & Hs). by exists s.
  - apply IH; [|done]. intros item Hitem. apply Hkeys, elem_of_cons; auto.
Qed.

Lemma check_numeric_none (m : gmap string value) fields :
  (∀ f, f ∈ fields → is_Some (m !! f)) →
  check_numeric m fields = inr None → Forall (numeric_ok m) fields.
Proof.
  induction fields as [|f fields IH]; intros Hkeys Hc; [constructor|].
  simpl in Hc. destruct (Hkeys f) as [v Hv]; [apply elem_of_cons; auto|].
  rewrite Hv in Hc. destruct (PyFloat.float_ v) eqn:Hf; try done.
  constructor; [by exists v|].
  apply IH; [|done]. intros f' Hf'. apply Hkeys, elem_of_cons; auto.
Qed.

Lemma required_present (m : gmap string value) k :
  dom m = list_to_set REQUIRED_KEYS → k ∈ REQUIRED_KEYS → is_Some (m !! k).
Proof.
  intros Hdom Hk. apply elem_of_dom. rewrite Hdom. by apply elem_of_list_to_set.
Qed.

Lemma accepted_iff_well_formed_aux (m : gmap string value) :
  well_formed m → validate_request (JObj m) = inr (true, None, 200).
Proof.
  intros (Hdom & Hcat & Hnum). rewrite (validate_exact_keys m Hdom).
  by rewrite (check_categorical_ok m _ Hcat), (check_numeric_ok m _ Hnum).
Qed.

Lemma accepted_well_formed (data : value) (e : option error_response) (status : Z) :
  validate_request data = inr (true, e, status) →
  e = None ∧ status = 200 ∧ ∃ m, data = JObj m ∧ well_formed m.
Proof.
  unfold validate_request. destruct (truthy data); cbn [negb]; [|done].
  destruct data as [| | | | | |m]; try done.
  destruct (bool_decide (list_to_set REQUIRED_KEYS ∖ dom m = ∅)) eqn:Hmiss;
    cbn [negb]; [|done].
  destruct (bool_decide (dom m ∖ list_to_set REQUIRED_KEYS = ∅)) eqn:Hextra;
    cbn [negb]; [|done].
  apply bool_decide_eq_true in Hmiss, Hextra.
  apply set_difference_empty in Hmiss, Hextra.
  assert (dom m = list_to_set REQUIRED_KEYS) as Hdom.
  { apply set_eq. intros k. split; [apply Hextra | apply Hmiss]. }
  destruct (check_categorical m ALLOWED_VALUES) eqn:Hcat; [done|].
  destruct (check_numeric m numeric_fields) as [|[|]] eqn:Hnum; try done.
  intros [= <- <-]. do 2 (split; [done|]). exists m. split; [done|].
  split; [done|]. split.
  + apply check_categorical_none; [|done]. intros item Hitem.
    apply required_present; [done|]. unfold ALLOWED_VALUES in Hitem.
    unfold REQUIRED_KEYS.
    repeat (apply elem_of_cons in Hitem as [->|Hitem]; [cbn [fst]; in_list|]).
    by apply elem_of_nil in Hitem.
  + apply check_numeric_none; [|done]. intros f Hf.
    apply required_present; [done|]. unfold numeric_fields in Hf.
    unfold REQUIRED_KEYS.
    repeat (apply elem_of_cons in Hf as [->|Hf]; [in_list|]).
    by apply elem_of_nil in Hf.
Qed.

Lemma rejected_status (data : value) (e : option error_response) (status : Z) :
  validate_request data = inr (false, e, status) → status = 400.
Proof.
  unfold validate_request. destruct (truthy data); cbn [negb].
  - destruct data as [| | | | | |m]; try done.
    repeat (destruct (negb (bool_decide _)); [by intros [= <- <-]|]).
    destruct (check_categorical m ALLOWED_VALUES); [by intros [= <- <-]|].
    by destruct (check_numeric m numeric_fields) as [|[|]]; intros [= <- <-].
  - by intros [= <- <-].
Qed.

Lemma not_object_raises (data : value) :
  truthy data = true → (∀ m, data ≠ JObj m) →
  validate_request data = inl AttributeError.
Proof.
  intros Ht Hno. unfold validate_request. rewrite Ht. cbn [negb].
  destruct data as [| | | | | |m]; try done. by destruct (Hno m).
Qed.

(** X1. [validate_request] accepts a body exactly when it is an object
    whose keys are the ten required ones, whose four categorical fields
    hold an allowed string and whose six numeric fields convert under
    [float()]; an accepted body always comes with no error and status 200. *)
Theorem accepted_iff_well_formed (data : value) (e : option error_response) (status : Z) :
  validate_request data = inr (true, e, status)
  ↔ e = None ∧ status = 200 ∧ ∃ m, data = JObj m ∧ well_formed m.
Proof.
  split.
  - apply accepted_well_formed.
  - intros (-> & -> & m & -> & Hdom & Hcat & Hnum).
    rewrite (validate_exact_keys m Hdom).
    by rewrite (check_categorical_ok m _ Hcat), (check_numeric_ok m _ Hnum).
Qed.

(** The keys of a record given by its list of fields. *)
Ltac keys_of_fields :=
  rewrite dom_list_to_map_L; reflexivity.

Lemma plain_request_well_formed : well_formed plain_request.
Proof.
  split; [unfold plain_request; keys_of_fields|]. split.
  - unfold ALLOWED_VALUES.
    repeat (constructor; [eexists; split; [by vm_compute|]; cbn [snd]; in_list|]).
    constructor.
  - unfold numeric_fields.
    repeat (constructor; [eexists; split; [by vm_compute | by vm_compute]|]).
    constructor.
Qed.

Lemma accepted_iff_well_formed_witness :
  validate_request (JObj plain_request) = inr (true, None, 200).
Proof.
  apply (accepted_iff_well_formed (JObj plain_request) None 200).
  do 2 (split; [reflexivity|]). exists plain_request.
  split; [reflexivity | apply plain_request_well_formed].
Defined.

Lemma check_categorical_first (m : gmap string value) pre key allowed post v :
  Forall (categorical_ok m) pre →
  m !! key = Some v → in_str_list v allowed = false →
  check_categorical m (pre ++ (key, allowed) :: post)
  = Some (InvalidValue key v allowed).
Proof.
  intros Hpre Hv Hbad.
  induction Hpre as [|[k a] pre (s & Hk & Hs) _ IH]; simpl in *.
  - by rewrite Hv, Hbad.
  - by rewrite Hk, in_str_list_true.
Qed.

Lemma check_numeric_first (m : gmap string value) pre f post v :
  Forall (numeric_ok m) pre →
  m !! f = Some v →
  check_numeric m (pre ++ f :: post)
  = match PyFloat.float_ v with
    | PyFloat.Converted => check_numeric m post
    | PyFloat.ValueError | PyFloat.TypeError => inr (Some (NotANumber f))
    | PyFloat.OverflowError => inl OverflowError
    end.
Proof.
  intros Hpre Hv.
  induction Hpre as [|f0 pre (v0 & Hf0 & Hc0) _ IH]; simpl.
  - by rewrite Hv.
  - by rewrite Hf0, Hc0.
Qed.

(** X2. With the exact key set, the categorical fields are checked in the
    order of [ALLOWED_VALUES] and before any numeric field: the first one
    whose value is not one of its allowed strings (the comparison is exact,
    so a different case or a non-string value fails) is reported with the
    value and the allowed list, status 400. *)
Theorem first_invalid_value_reported (m : gmap string value)
    pre key allowed post v :
  dom m = list_to_set REQUIRED_KEYS →
  ALLOWED_VALUES = pre ++ (key, allowed) :: post →
  Forall (categorical_ok m) pre →
  m !! key = Some v →
  in_str_list v allowed = false →
  validate_request (JObj m) = inr (false, Some (InvalidValue key v allowed), 400).
Proof.
  intros Hdom Hsplit Hpre Hv Hbad.
  rewrite (validate_exact_keys m Hdom), Hsplit.
  by rewrite (check_categorical_first m pre key allowed post v).
Qed.

Lemma first_invalid_value_reported_witness :
  validate_request (JObj lowercase_request)
  = inr (false, Some (InvalidValue "Smoking_Habit" (JStr "yes") ["No"; "Yes"]), 400).
Proof.
  apply (first_invalid_value_reported lowercase_request
           [ ("Chronic_Disease",
              ["None"; "Diabetes"; "Heart Disease"; "Hypertension"; "Obesity"]);
             ("Alcohol_Consumption", ["No"; "Yes"]) ]
           "Smoking_Habit" ["No"; "Yes"]
           [ ("Dietary_Habits", ["Regular"; "Vegetarian"; "Vegan"; "Keto"]) ]).
  - unfold lowercase_request. keys_of_fields.
  - reflexivity.
  - repeat (constructor; [eexists; split; [by vm_compute|]; cbn [snd]; in_list|]).
    constructor.
  - by vm_compute.
  - by vm_compute.
Defined.

(** X3. With the exact key set and valid categorical values, the numeric
    fields are tried in order: the first one on which [float()] raises
    [ValueError] or [TypeError] (text that is not a number, null, a list,
    an object) is reported as not a number, status 400. *)
Theorem first_non_number_reported (m : gmap string value) pre f post v :
  dom m = list_to_set REQUIRED_KEYS →
  Forall (categorical_ok m) ALLOWED_VALUES →
  numeric_fields = pre ++ f :: post →
  Forall (numeric_ok m) pre →
  m !! f = Some v →
  PyFloat.float_ v = PyFloat.ValueError ∨ PyFloat.float_ v = PyFloat.TypeError →
  validate_request (JObj m) = inr (false, Some (NotANumber f), 400).
Proof.
  intros Hdom Hcat Hsplit Hpre Hv Hbad.
  rewrite (validate_exact_keys m Hdom), (check_categorical_ok m _ Hcat), Hsplit.
  rewrite (check_numeric_first m pre f post v Hpre Hv).
  by destruct Hbad as [-> | ->].
Qed.

Lemma first_non_number_reported_witness :
  validate_request (JObj wordy_request) = inr (false, Some (NotANumber "Age"), 400).
Proof.
  apply (first_non_number_reported wordy_request [] "Age"
           [ "BMI"; "Blood_Pressure_Systolic"; "Blood_Sugar_Level";
             "Daily_Steps"; "Exercise_Frequency" ] (JStr "not-a-number")).
  - unfold wordy_request. keys_of_fields.
  - unfold ALLOWED_VALUES.
    repeat (constructor; [eexists; split; [by vm_compute|]; cbn [snd]; in_list|]).
    constructor.
  - reflexivity.
  - constructor.
  - by vm_compute.
  - left. by vm_compute.
Defined.

(** X4. An integer too large for a double is not reported as a bad
    request: [float()] raises [OverflowError], which the [except] clause of
    the numeric loop does not list, so the exception leaves
    [validate_request]. *)
Theorem huge_integer_escapes (m : gmap string value) pre f post z :
  dom m = list_to_set REQUIRED_KEYS →
  Forall (categorical_ok m) ALLOWED_VALUES →
  numeric_fields = pre ++ f :: post →
  Forall (numeric_ok m) pre →
  m !! f = Some (JInt z) →
  2 ^ 1024 - 2 ^ 970 ≤ Z.abs z →
  validate_request (JObj m) = inl OverflowError.
Proof.
  intros Hdom Hcat Hsplit Hpre Hv Hbig.
  rewrite (validate_exact_keys m Hdom), (check_categorical_ok m _ Hcat), Hsplit.
  rewrite (check_numeric_first m pre f post _ Hpre Hv).
  cbn [PyFloat.float_]. unfold PyFloat.int_fits.
  by rewrite (proj2 (Z.ltb_ge _ _) Hbig).
Qed.

Lemma huge_integer_escapes_witness :
  validate_request (JObj huge_request) = inl OverflowError.
Proof.
  apply (huge_integer_escapes huge_request [] "Age"
           [ "BMI"; "Blood_Pressure_Systolic"; "Blood_Sugar_Level";
             "Daily_Steps"; "Exercise_Frequency" ] (2 ^ 1024)).
  - unfold huge_request. keys_of_fields.
  - unfold ALLOWED_VALUES.
    repeat (constructor; [eexists; split; [by vm_compute|]; cbn [snd]; in_list|]).
    constructor.
  - reflexivity.
  - constructor.
  - by vm_compute.
  - by vm_compute.
Defined.

(** X5. Whatever the body, a returned result is either acceptance with no
    error and status 200, or a rejection that carries an error and status
    400; no other combination is returned. *)
Theorem result_is_accept_or_reject (data : value) ok e status :
  validate_request data = inr (ok, e, status) →
  (ok = true ∧ e = None ∧ status = 200)
  ∨ (ok = false ∧ is_Some e ∧ status = 400).
Proof.
  unfold validate_request. destruct (truthy data); cbn [negb].
  - destruct data as [| | | | | |m]; try done.
    repeat (destruct (negb (bool_decide _));
            [intros [= <- <- <-]; right; eauto|]).
    destruct (check_categorical m ALLOWED_VALUES);
      [intros [= <- <- <-]; right; eauto|].
    destruct (check_numeric m numeric_fields) as [|[|]]; try done;
      intros [= <- <- <-]; [right|left]; eauto.
  - intros [= <- <- <-]. right. eauto.
Qed.

Lemma result_is_accept_or_reject_witness :
  (false = true ∧ Some (NotANumber "Age") = None ∧ 400 = 200)
  ∨ (false = false ∧ is_Some (Some (NotANumber "Age")) ∧ 400 = 400).
Proof.
  apply (result_is_accept_or_reject (JObj wordy_request)). by vm_compute.
Defined.

End ValidatorMore.

(* ===================================================================== *)
(** * More on cleaning the food table *)
(* ===================================================================== *)

Module LoaderMore.
Import Pandas Loader Frames FrameFacts RunFacts EngineFacts LoaderSpec Reference.
Local Open Scope frame_scope.
Local Open Scope nat_scope.

Lemma elem_of_map {A B} (f : A → B) (l : list A) (y : B) :
  y ∈ map f l ↔ ∃ x, y = f x ∧ x ∈ l.
Proof. change (map f l) with (f <$> l). apply list_elem_of_fmap. Qed.

Lemma lookup_map {A B} (f : A → B) (l : list A) (i : nat) :
  map f l !! i = f <$> l !! i.
Proof. change (map f l) with (f <$> l). apply list_lookup_fmap. Qed.

Lemma lookup_fillna_row v cs (r : gmap string cell) c :
  fillna_row v cs r !! c
  = if bool_decide (c ∈ cs) then Some (fillna_cell v (get r c)) else r !! c.
Proof.
  unfold fillna_row. revert r.
  induction cs as [|c0 cs IH]; intros r; cbn [foldl].
  - by rewrite bool_decide_false by apply not_elem_of_nil.
  - rewrite IH, get_insert, lookup_insert.
    destruct (decide (c0 = c)) as [->|Hne].
    + rewrite (bool_decide_true (c ∈ c :: cs)) by (apply elem_of_cons; auto).
      rewrite fillna_cell_idem. by case_bool_decide.
    + rewrite (bool_decide_ext (c ∈ c0 :: cs) (c ∈ cs)); [done|].
      rewrite elem_of_cons. split; [by intros [?|?]|auto].
Qed.

Lemma lookup_fold_cleaned_ne `{Impl} df cs (r : gmap string cell) c :
  c ∉ cs → foldl (cleaned_entry_row df) r cs !! c = r !! c.
Proof.
  revert r. induction cs as [|c0 cs IH]; intros r Hc; cbn [foldl]; [done|].
  apply not_elem_of_cons in Hc as [Hne Hc]. rewrite IH by done.
  unfold cleaned_entry_row. destruct (is_object df c0); [|done].
  by rewrite lookup_insert_ne.
Qed.

Lemma columns_assign_present c s df :
  has_column df c = true → columns (assign c s df) = columns df.
Proof. intros E. unfold assign. cbn [columns]. by rewrite E. Qed.

Lemma columns_cleaned_column `{Impl} c df :
  columns (cleaned_column c df) = columns df.
Proof.
  unfold cleaned_column, is_object.
  destruct (has_column df c) eqn:Hc; cbn [andb]; [|done].
  destruct (existsb _ _); [|done].
  rewrite !columns_assign_present; [done|done|..];
    by rewrite ?has_column_assign, Hc.
Qed.

Lemma columns_fold_cleaned `{Impl} cs df :
  columns (foldl (λ d c, cleaned_column c d) df cs) = columns df.
Proof.
  revert df. induction cs as [|c cs IH]; intros df; cbn [foldl]; [done|].
  by rewrite IH, columns_cleaned_column.
Qed.

Lemma columns_fillna_columns v cs df :
  (∀ c, c ∈ cs → has_column df c = true) →
  columns (fillna_columns v cs df) = columns df.
Proof.
  unfold fillna_columns. revert df.
  induction cs as [|c cs IH]; intros df Hc; cbn [foldl]; [done|].
  rewrite IH.
  - apply columns_assign_present, Hc, elem_of_cons. auto.
  - intros c' Hc'. apply has_column_assign_mono, Hc, elem_of_cons. auto.
Qed.

(** Row by row, what [cleaned] computes. *)
Lemma rows_cleaned `{Impl} df :
  rows (cleaned df)
  = map (λ r, fillna_row 0 numeric_cols
                (foldl (cleaned_entry_row df) r numeric_cols))
      (rows df).
Proof.
  unfold cleaned.
  rewrite rows_fillna_columns, (rows_fold_cleaned _ _ numeric_cols_nodup).
  by rewrite map_map.
Qed.

Lemma text_entry_not_text `{Impl} x : is_str (text_entry x) = false.
Proof. unfold text_entry. cbn [to_numeric_cell]. by destruct (to_float _). Qed.

Lemma fillna_cell_number x :
  is_str x = false → ∃ q, fillna_cell 0 x = Num q.
Proof. destruct x; [eauto|eauto|done]. Qed.

Lemma cleaned_entry_number `{Impl} df (r : gmap string cell) c :
  r ∈ rows df → has_column df c = true → c ∈ numeric_cols →
  ∃ q, fillna_row 0 numeric_cols (foldl (cleaned_entry_row df) r numeric_cols) !! c
       = Some (Num q).
Proof.
  intros Hr Hc Hin.
  rewrite lookup_fillna_row, (bool_decide_true (c ∈ numeric_cols)) by done.
  rewrite (get_fold_cleaned _ _ _ _ numeric_cols_nodup).
  rewrite (bool_decide_true (c ∈ numeric_cols)) by done. cbn [andb].
  destruct (is_object df c) eqn:Hobj.
  - destruct (fillna_cell_number _ (text_entry_not_text (get r c))) as [q ->].
    eauto.
  - unfold is_object in Hobj. rewrite Hc in Hobj. cbn [andb] in Hobj.
    assert (is_str (get r c) = false) as Hs.
    { by apply (proj1 (existsb_false_iff _ _) Hobj). }
    destruct (fillna_cell_number _ Hs) as [q ->]. eauto.
Qed.

(** X6. After cleaning, each of the seven numeric columns holds a number in
    every row: no missing value and no text is left, whatever the file
    held. *)
Theorem cleaned_columns_hold_numbers (I : Impl) (h : list DataFrame) food raw :
  h !! food = Some raw →
  (∀ c, c ∈ numeric_cols → has_column raw c = true) →
  ∃ h' df,
    clean_food_df food h = inr (tt, h')
    ∧ h' !! food = Some df
    ∧ ∀ r c, r ∈ rows df → c ∈ numeric_cols → ∃ q, r !! c = Some (Num q).
Proof.
  intros E Hcols.
  assert (forallb (has_column raw) numeric_cols = true) as Hall.
  { apply forallb_forall. intros c Hc%list_elem_of_In. by apply Hcols. }
  exists (<[food := cleaned raw]> h), (cleaned raw).
  split; [by apply clean_food_df_run|].
  split; [by eapply lookup_written|].
  intros r' c Hr' Hc. rewrite rows_cleaned in Hr'.
  apply elem_of_map in Hr' as (r & -> & Hr).
  apply cleaned_entry_number; auto.
Qed.

Lemma cleaned_columns_hold_numbers_witness :
  ∃ h' df,
    clean_food_df (H := first_wins) 0 [raw_nutrients] = inr (tt, h')
    ∧ h' !! 0 = Some df
    ∧ ∀ r c, r ∈ rows df → c ∈ numeric_cols → ∃ q, r !! c = Some (Num q).
Proof.
  apply (cleaned_columns_hold_numbers first_wins [raw_nutrients] 0 raw_nutrients).
  - reflexivity.
  - intros c Hc. unfold numeric_cols in Hc.
    repeat (apply elem_of_cons in Hc as [->|Hc]; [by vm_compute|]).
    by apply elem_of_nil in Hc.
Defined.

(** X7. Cleaning touches nothing else: the column labels and every entry
    outside the seven numeric columns stay as they were, a numeric column
    that holds no text only has its missing values replaced by 0, and every
    other frame of the store is left alone. *)
Theorem cleaning_leaves_the_rest (I : Impl) (h : list DataFrame) food raw :
  h !! food = Some raw →
  (∀ c, c ∈ numeric_cols → has_column raw c = true) →
  ∃ h' df,
    clean_food_df food h = inr (tt, h')
    ∧ h' !! food = Some df
    ∧ (∀ l, l ≠ food → h' !! l = h !! l)
    ∧ columns df = columns raw
    ∧ ∀ i r, rows raw !! i = Some r →
        ∃ r', rows df !! i = Some r'
          ∧ (∀ c, c ∉ numeric_cols → r' !! c = r !! c)
          ∧ (∀ c, c ∈ numeric_cols → is_object raw c = false →
               get r' c = fillna_cell 0 (get r c)).
Proof.
  intros E Hcols.
  assert (forallb (has_column raw) numeric_cols = true) as Hall.
  { apply forallb_forall. intros c Hc%list_elem_of_In. by apply Hcols. }
  exists (<[food := cleaned raw]> h), (cleaned raw).
  split; [by apply clean_food_df_run|].
  split; [by eapply lookup_written|].
  split; [intros l Hl; by apply list_lookup_insert_ne|].
  split.
  { unfold cleaned. rewrite columns_fillna_columns, columns_fold_cleaned; [done|].
    intros c Hc. rewrite has_column_fold_cleaned. by apply Hcols. }
  intros i r Hi. eexists. split; [by rewrite rows_cleaned, lookup_map, Hi|].
  split.
  - intros c Hc. rewrite lookup_fillna_row, bool_decide_false by done.
    by apply lookup_fold_cleaned_ne.
  - intros c Hc Hobj.
    rewrite get_fillna_row, (bool_decide_true (c ∈ numeric_cols)) by done.
    rewrite (get_fold_cleaned _ _ _ _ numeric_cols_nodup).
    by rewrite (bool_decide_true (c ∈ numeric_cols)), Hobj by done.
Qed.

Lemma cleaning_leaves_the_rest_witness :
  ∃ h' df,
    clean_food_df (H := first_wins) 0 [raw_nutrients; twins] = inr (tt, h')
    ∧ h' !! 0 = Some df
    ∧ h' !! 1 = Some twins
    ∧ columns df = columns raw_nutrients.
Proof.
  destruct (cleaning_leaves_the_rest first_wins [raw_nutrients; twins] 0 raw_nutrients)
    as (h' & df & R & E & Hrest & Hcols & _).
  - reflexivity.
  - intros c Hc. unfold numeric_cols in Hc.
    repeat (apply elem_of_cons in Hc as [->|Hc]; [by vm_compute|]).
    by apply elem_of_nil in Hc.
  - exists h', df. split; [exact R|]. split; [exact E|].
    split; [|exact Hcols]. by rewrite Hrest.
Defined.

(** X8. When the table lacks one of the seven numeric columns the cleaning
    raises [KeyError] (at the final [fillna]), which makes
    [load_models_and_data] report failure. *)
Theorem missing_numeric_column_fails (I : Impl) (h : list DataFrame) food raw c :
  h !! food = Some raw →
  c ∈ numeric_cols →
  has_column raw c = false →
  clean_food_df food h = inl KeyError.
Proof.
  intros E Hc Hmiss. unfold clean_food_df.
  run_with (for_inplace cleaned_column _ food
              (λ x h df, clean_column_run h food df x) _ _ _ E).
  set (df1 := foldl _ raw numeric_cols).
  pose proof (lookup_written _ _ _ df1 E) as E1.
  unfold fillna_inplace. run_with (read_run _ _ _ E1).
  assert (forallb (has_column df1) numeric_cols = false) as ->; [|done].
  apply not_true_is_false. intros Hall.
  rewrite forallb_forall in Hall. specialize (Hall c).
  unfold df1 in Hall. rewrite has_column_fold_cleaned, Hmiss in Hall.
  discriminate Hall. by apply list_elem_of_In.
Qed.

Lemma missing_numeric_column_fails_witness :
  clean_food_df (H := first_wins) 0 [broccoli_bacon] = inl KeyError.
Proof.
  apply (missing_numeric_column_fails first_wins [broccoli_bacon] 0
           broccoli_bacon "Grams").
  - reflexivity.
  - unfold numeric_cols. apply elem_of_cons. by left.
  - by vm_compute.
Defined.

Lemma assign_fillna_fixed c df :
  has_column df c = true →
  (∀ r, r ∈ rows df → ∃ q, r !! c = Some (Num q)) →
  assign c (fillna 0 (λ r, get r c)) df = df.
Proof.
  intros Hc Hnum. destruct df as [cols rs]. unfold assign. cbn [columns rows] in *.
  rewrite Hc. f_equal. rewrite <- (map_id rs) at 2. apply map_ext_in.
  intros r Hr%list_elem_of_In. destruct (Hnum r Hr) as [q Hq].
  apply insert_id. unfold fillna, get. by rewrite Hq.
Qed.

Lemma fillna_columns_fixed cs df :
  (∀ c, c ∈ cs → has_column df c = true) →
  (∀ r c, r ∈ rows df → c ∈ cs → ∃ q, r !! c = Some (Num q)) →
  fillna_columns 0 cs df = df.
Proof.
  unfold fillna_columns. induction cs as [|c cs IH]; intros Hc Hnum; cbn [foldl];
    [done|].
  rewrite assign_fillna_fixed.
  - apply IH.
    + intros c' Hc'. apply Hc, elem_of_cons. auto.
    + intros r c' Hr Hc'. apply Hnum; [done|]. apply elem_of_cons. auto.
  - apply Hc, elem_of_cons. auto.
  - intros r Hr. apply Hnum; [done|]. apply elem_of_cons. auto.
Qed.

Lemma fold_cleaned_fixed `{Impl} cs df :
  (∀ c, c ∈ cs → is_object df c = false) →
  foldl (λ d c, cleaned_column c d) df cs = df.
Proof.
  induction cs as [|c cs IH]; intros Hobj; cbn [foldl]; [done|].
  assert (cleaned_column c df = df) as ->.
  { unfold cleaned_column. by rewrite Hobj by (apply elem_of_cons; auto). }
  apply IH. intros c' Hc'. apply Hobj, elem_of_cons. auto.
Qed.

(** A table whose numeric columns hold numbers is left as it is. *)
Lemma cleaned_fixed `{Impl} df :
  (∀ c, c ∈ numeric_cols → has_column df c = true) →
  (∀ r c, r ∈ rows df → c ∈ numeric_cols → ∃ q, r !! c = Some (Num q)) →
  cleaned df = df.
Proof.
  intros Hc Hnum. unfold cleaned. rewrite fold_cleaned_fixed.
  - by apply fillna_columns_fixed.
  - intros c Hin. unfold is_object. rewrite (Hc c Hin). cbn [andb].
    apply existsb_false_iff. intros r Hr. destruct (Hnum r c Hr Hin) as [q Hq].
    unfold get. by rewrite Hq.
Qed.

(** X9. Cleaning is idempotent: cleaning the table a second time changes
    nothing, so running the two cleanings in a row leaves the store exactly
    as one cleaning does. *)
Theorem cleaning_twice_is_cleaning_once (I : Impl) (h : list DataFrame) food raw :
  h !! food = Some raw →
  (∀ c, c ∈ numeric_cols → has_column raw c = true) →
  (clean_food_df food ;; clean_food_df food) h = clean_food_df food h
  ∧ ∃ h', clean_food_df food h = inr (tt, h').
Proof.
  intros E Hcols.
  assert (forallb (has_column raw) numeric_cols = true) as Hall.
  { apply forallb_forall. intros c Hc%list_elem_of_In. by apply Hcols. }
  pose proof (clean_food_df_run h food raw E Hall) as R.
  pose proof (lookup_written _ _ _ (cleaned raw) E) as E1.
  assert (∀ c, c ∈ numeric_cols → has_column (cleaned raw) c = true) as Hcols1.
  { intros c Hc. unfold cleaned.
    by rewrite has_column_fillna_columns, (bool_decide_true (c ∈ _)), orb_true_r. }
  assert (forallb (has_column (cleaned raw)) numeric_cols = true) as Hall1.
  { apply forallb_forall. intros c Hc%list_elem_of_In. by apply Hcols1. }
  split; [|eauto]. run_with R. rewrite R.
  rewrite (clean_food_df_run _ food (cleaned raw) E1 Hall1).
  rewrite cleaned_fixed; [by rewrite written_twice|done|].
  intros r' c Hr' Hc. rewrite rows_cleaned in Hr'.
  apply elem_of_map in Hr' as (r & -> & Hr).
  apply cleaned_entry_number; auto.
Qed.

Lemma cleaning_twice_is_cleaning_once_witness :
  (clean_food_df (H := first_wins) 0 ;; clean_food_df (H := first_wins) 0)
    [raw_nutrients]
  = clean_food_df (H := first_wins) 0 [raw_nutrients]
  ∧ ∃ h', clean_food_df (H := first_wins) 0 [raw_nutrients] = inr (tt, h').
Proof.
  apply (cleaning_twice_is_cleaning_once first_wins [raw_nutrients] 0 raw_nutrients).
  - reflexivity.
  - intros c Hc. unfold numeric_cols in Hc.
    repeat (apply elem_of_cons in Hc as [->|Hc]; [by vm_compute|]).
    by apply elem_of_nil in Hc.
Defined.

End LoaderMore.

(* ===================================================================== *)
(** * More on the recommendation engine *)
(* ===================================================================== *)

Module EngineMore.
Import Pandas Engine Frames Outcomes FrameFacts RunFacts EngineFacts SortFacts.
Import EngineSpec Reference.
Local Open Scope frame_scope.
Local Open Scope nat_scope.

Lemma field_added_rows field df :
  rows (field_added field df) = map (λ r, added_row df r field) (rows df).
Proof.
  unfold field_added, added_row, default_entry.
  destruct (has_column df field); cbn [negb].
  - by rewrite map_id.
  - by case_bool_decide.
Qed.

Lemma foldl_added_row_ext df df' cs (r : gmap string cell) :
  (∀ c, c ∈ cs → has_column df c = has_column df' c) →
  foldl (added_row df) r cs = foldl (added_row df') r cs.
Proof.
  revert r. induction cs as [|c cs IH]; intros r Hext; cbn [foldl]; [done|].
  rewrite IH by (intros c' Hc'; apply Hext, elem_of_cons; auto).
  unfold added_row. by rewrite Hext by (apply elem_of_cons; auto).
Qed.

Lemma rows_fields_added cs df :
  NoDup cs →
  rows (foldl (λ d c, field_added c d) df cs)
  = map (λ r, foldl (added_row df) r cs) (rows df).
Proof.
  intros Hnd. revert df.
  induction Hnd as [|c cs Hc Hnd IH]; intros df; cbn [foldl].
  - by rewrite map_id.
  - rewrite IH, field_added_rows, map_map. apply map_ext. intros r.
    apply foldl_added_row_ext. intros c' Hc'.
    rewrite has_column_field_added, bool_decide_false; [apply orb_false_r|].
    by intros ->.
Qed.

Lemma required_fields_nodup : NoDup required_fields.
Proof. apply (bool_decide_unpack _). by vm_compute. Qed.

Lemma field_cleaned_present `{Impl} c df :
  has_column df c = true →
  field_cleaned c df = assign c (λ r, numeric_clean (get r c)) df.
Proof. intros Hc. unfold field_cleaned. by rewrite Hc. Qed.

Lemma fold_field_cleaned_present `{Impl} cs df :
  (∀ c, c ∈ cs → has_column df c = true) →
  foldl (λ d c, field_cleaned c d) df cs
  = foldl (λ d c, assign c (λ r, numeric_clean (get r c)) d) df cs.
Proof.
  revert df. induction cs as [|c cs IH]; intros df Hc; cbn [foldl]; [done|].
  rewrite field_cleaned_present by (apply Hc, elem_of_cons; auto).
  apply IH. intros c' Hc'. apply has_column_assign_mono, Hc, elem_of_cons. auto.
Qed.

(** Row by row, what the projection block computes. *)
Lemma rows_projected `{Impl} df :
  rows (projected df) = map (projected_row df) (rows df).
Proof.
  unfold projected.
  rewrite fold_field_cleaned_present.
  2:{ intros c Hc. unfold has_column, project. cbn [columns].
      apply bool_decide_eq_true. unfold numeric_fields in Hc.
      unfold required_fields.
      repeat (apply elem_of_cons in Hc as [->|Hc];
              [repeat (apply elem_of_cons; first [left; reflexivity | right])|]).
      by apply elem_of_nil in Hc. }
  rewrite (rows_fold_assign (λ c r, numeric_clean (get r c))).
  unfold project. cbn [rows]. rewrite map_map.
  unfold fields_ready. rewrite field_cleaned_present.
  2:{ rewrite has_column_fields_added, (bool_decide_true (_ ∈ required_fields));
        [apply orb_true_r|].
      unfold required_fields.
      repeat (apply elem_of_cons; first [left; reflexivity | right]). }
  rewrite rows_assign, map_map, (rows_fields_added _ _ required_fields_nodup).
  by rewrite map_map.
Qed.

Lemma numeric_clean_number `{Impl} x : ∃ q, numeric_clean x = Num q.
Proof.
  unfold numeric_clean. destruct x as [q| |s]; cbn; eauto.
  destruct (to_float s); cbn; eauto.
Qed.

Lemma numeric_clean_idem `{Impl} x : numeric_clean (numeric_clean x) = numeric_clean x.
Proof. by destruct (numeric_clean_number x) as [q ->]. Qed.

Lemma lookup_fold_insert (g : cell → cell) cs (r : gmap string cell) k :
  (∀ x, g (g x) = g x) →
  foldl (λ r c, <[c := g (get r c)]> r) r cs !! k
  = if bool_decide (k ∈ cs) then Some (g (get r k)) else r !! k.
Proof.
  intros Hg. revert r. induction cs as [|c0 cs IH]; intros r; cbn [foldl].
  - by rewrite bool_decide_false by apply not_elem_of_nil.
  - rewrite IH, get_insert, lookup_insert.
    destruct (decide (c0 = k)) as [->|Hne].
    + rewrite (bool_decide_true (k ∈ k :: cs)) by (apply elem_of_cons; auto).
      rewrite Hg. by case_bool_decide.
    + rewrite (bool_decide_ext (k ∈ c0 :: cs) (k ∈ cs)); [done|].
      rewrite elem_of_cons. split; [by intros [?|?]|auto].
Qed.

Lemma lookup_record (F : string → cell) cs k :
  (list_to_map (map (λ c, (c, F c)) cs) : gmap string cell) !! k
  = if bool_decide (k ∈ cs) then Some (F k) else None.
Proof.
  induction cs as [|c cs IH]; cbn [map list_to_map foldr].
  - by rewrite lookup_empty, bool_decide_false by apply not_elem_of_nil.
  - rewrite lookup_insert. cbn [fst snd]. destruct (decide (c = k)) as [->|Hne].
    + rewrite bool_decide_true; [done|]. apply elem_of_cons. auto.
    + rewrite IH. rewrite (bool_decide_ext (k ∈ c :: cs) (k ∈ cs)); [done|].
      rewrite elem_of_cons. split; [by intros [?|?]|auto].
Qed.

(** What a row of the result holds under each label. *)
Lemma lookup_projected_row `{Impl} df (r : gmap string cell) k :
  projected_row df r !! k
  = if bool_decide (k ∈ required_fields) then
      Some (let x := get (<["Carbs" := numeric_clean
                                         (get (foldl (added_row df) r required_fields)
                                              "Carbs")]>
                            (foldl (added_row df) r required_fields)) k in
            if bool_decide (k ∈ numeric_fields) then numeric_clean x else x)
    else None.
Proof.
  unfold projected_row. cbv zeta.
  rewrite (lookup_fold_insert numeric_clean) by apply numeric_clean_idem.
  unfold get at 1. rewrite !lookup_record.
  destruct (bool_decide (k ∈ numeric_fields)) eqn:Hn.
  - apply bool_decide_eq_true in Hn.
    rewrite (bool_decide_true (k ∈ required_fields)); [done|].
    unfold numeric_fields in Hn. unfold required_fields.
    repeat (apply elem_of_cons in Hn as [->|Hn];
            [repeat (apply elem_of_cons; first [left; reflexivity | right])|]).
    by apply elem_of_nil in Hn.
  - done.
Qed.

Lemma columns_projected `{Impl} df : columns (projected df) = required_fields.
Proof.
  unfold projected.
  assert (∀ cs d, columns (foldl (λ d c, field_cleaned c d) d cs) = columns d)
    as Hfold.
  { intros cs. induction cs as [|c cs IH]; intros d; cbn [foldl]; [done|].
    rewrite IH. unfold field_cleaned. destruct (has_column d c) eqn:Hc; [|done].
    by apply LoaderMore.columns_assign_present. }
  by rewrite Hfold.
Qed.

(** X10. Whatever the table holds, a call returns a frame with exactly the
    six columns Food, Category, Protein, Fat, Carbs, Calories, in that
    order, at most ten rows, each row holding exactly those six entries,
    the four numeric ones always numbers (never missing, never text). *)
Theorem result_shape (I : Impl) (h : list DataFrame) food cat c :
  h !! food = Some cat →
  ∃ l h' out,
    get_cluster_recommendations food c h
    = inr ((Policy.profile_name c, Policy.recommendation_type c, l), h')
    ∧ h' !! l = Some out
    ∧ columns out = required_fields
    ∧ length (rows out) ≤ 10
    ∧ ∀ r, r ∈ rows out →
        dom r = list_to_set required_fields
        ∧ ∀ k, k ∈ numeric_fields → ∃ q, r !! k = Some (Num q).
Proof.
  intros E.
  destruct (get_cluster_recommendations_run h food cat c E) as (l & h' & R & El & _).
  exists l, h', (recommended_foods c cat).
  split; [done|]. split; [done|]. unfold recommended_foods.
  split; [apply columns_projected|]. split.
  { rewrite length_rows_projected. unfold ranked, head_rows. cbn [rows].
    rewrite length_take. lia. }
  intros r' Hr'. rewrite rows_projected in Hr'.
  apply LoaderMore.elem_of_map in Hr' as (r & -> & _). split.
  - apply set_eq. intros k.
    rewrite elem_of_dom, elem_of_list_to_set, lookup_projected_row.
    case_bool_decide as Hin.
    + split; [done|]. intros _. eauto.
    + split; [by intros [? ?]|done].
  - intros k Hk. rewrite lookup_projected_row.
    assert (k ∈ required_fields) as Hreq.
    { unfold numeric_fields in Hk. unfold required_fields.
      repeat (apply elem_of_cons in Hk as [->|Hk];
              [repeat (apply elem_of_cons; first [left; reflexivity | right])|]).
      by apply elem_of_nil in Hk. }
    rewrite (bool_decide_true (k ∈ required_fields)) by done. cbv zeta.
    rewrite (bool_decide_true (k ∈ numeric_fields)) by done.
    destruct (numeric_clean_number
                (get (<["Carbs" := numeric_clean
                                     (get (foldl (added_row (ranked (scored
                                        (candidates c cat)))) r required_fields)
                                        "Carbs")]>
                        (foldl (added_row (ranked (scored (candidates c cat))))
                           r required_fields)) k)) as [q ->].
    eauto.
Qed.

Lemma result_shape_witness :
  ∃ l h' out,
    get_cluster_recommendations (H := last_wins) 0 0 [clustered]
    = inr ((Policy.profile_name 0, Policy.recommendation_type 0, l), h')
    ∧ h' !! l = Some out
    ∧ columns out = required_fields
    ∧ length (rows out) ≤ 10
    ∧ ∀ r, r ∈ rows out →
        dom r = list_to_set required_fields
        ∧ ∀ k, k ∈ numeric_fields → ∃ q, r !! k = Some (Num q).
Proof.
  apply (result_shape last_wins [clustered] 0 clustered 0). reflexivity.
Defined.

Lemma has_column_scored `{Impl} df c :
  has_column (scored df) c
  = has_column df c || bool_decide (c ∈ numeric_cols) || bool_decide (c = "score").
Proof.
  unfold scored. rewrite has_column_assign, has_column_fillna_columns.
  unfold numeric_cols at 1. cbn [foldl]. rewrite !has_column_numeric_column.
  f_equal. apply eq_true_iff_eq.
  rewrite !orb_true_iff, !bool_decide_eq_true. unfold numeric_cols.
  rewrite !elem_of_cons, elem_of_nil. tauto.
Qed.

Lemma get_scored_row_numeric `{Impl} df r c :
  c ∈ numeric_cols → get (scored_row df r) c = Num (amount df r c).
Proof.
  intros Hc. unfold scored_row. cbv zeta.
  assert (c ≠ "score") as Hne.
  { intros ->. unfold numeric_cols in Hc.
    repeat (apply elem_of_cons in Hc as [Hc|Hc]; [discriminate|]).
    by apply elem_of_nil in Hc. }
  rewrite get_insert_ne by done.
  rewrite get_fillna_row, (bool_decide_true (c ∈ numeric_cols)) by done.
  unfold numeric_cols in Hc. unfold numeric_row.
  repeat (apply elem_of_cons in Hc as [->|Hc];
          [repeat (rewrite ?get_insert_eq, ?get_insert_ne by done);
           rewrite ?numeric_entry_insert_ne by done;
           apply fillna_numeric_entry|]).
  by apply elem_of_nil in Hc.
Qed.

Lemma get_scored_row_other `{Impl} df r c :
  c ∉ numeric_cols → c ≠ "score" → get (scored_row df r) c = get r c.
Proof.
  intros Hc Hne. unfold scored_row. cbv zeta.
  rewrite get_insert_ne by done.
  rewrite get_fillna_row, (bool_decide_false (c ∈ numeric_cols)) by done.
  unfold numeric_cols in Hc. rewrite !not_elem_of_cons in Hc.
  destruct Hc as (? & ? & ? & _). unfold numeric_row.
  by rewrite !get_insert_ne.
Qed.

Lemma get_fold_added df cs (r : gmap string cell) k :
  get (foldl (added_row df) r cs) k
  = if bool_decide (k ∈ cs) && negb (has_column df k) then default_entry k
    else get r k.
Proof.
  revert r. induction cs as [|c0 cs IH]; intros r; cbn [foldl].
  - by rewrite bool_decide_false by apply not_elem_of_nil.
  - rewrite IH. unfold added_row.
    destruct (decide (c0 = k)) as [->|Hne].
    + rewrite (bool_decide_true (k ∈ k :: cs)) by (apply elem_of_cons; auto).
      destruct (has_column df k); cbn [negb andb].
      * by rewrite andb_false_r.
      * rewrite get_insert_eq. by destruct (bool_decide (k ∈ cs)).
    + rewrite (bool_decide_ext (k ∈ c0 :: cs) (k ∈ cs)).
      * destruct (has_column df c0); [done|]. by rewrite get_insert_ne.
      * rewrite elem_of_cons. split; [by intros [?|?]|auto].
Qed.

Lemma numeric_clean_amount `{Impl} x :
  numeric_clean x
  = Num (match to_numeric_cell x with Num q => q | _ => 0%Q end).
Proof.
  unfold numeric_clean. destruct x as [q| |s]; cbn; try done.
  by destruct (to_float s).
Qed.

Lemma served_row_record `{Impl} cand r :
  served_row cand r
  = list_to_map (map (λ c, (c, served_entry cand r c)) required_fields).
Proof. reflexivity. Qed.

(** The projection of a scored row shows the candidate it came from. *)
Lemma projected_scored_row `{Impl} cand (r : gmap string cell) l :
  columns l = columns (scored cand) →
  projected_row l (scored_row cand r) = served_row cand r.
Proof.
  intros Hcols.
  assert (∀ c, has_column l c = has_column (scored cand) c) as Hhas.
  { intros c. unfold has_column. by rewrite Hcols. }
  apply map_eq. intros k.
  rewrite lookup_projected_row, served_row_record, lookup_record.
  case_bool_decide as Hk; [|done]. f_equal. cbv zeta.
  unfold required_fields in Hk.
  repeat (apply elem_of_cons in Hk as [->|Hk];
          [rewrite ?(bool_decide_true (_ ∈ numeric_fields))
             by (unfold numeric_fields;
                 repeat (apply elem_of_cons; first [left; reflexivity | right]));
           rewrite ?(bool_decide_false (_ ∈ numeric_fields))
             by (unfold numeric_fields; rewrite !not_elem_of_cons;
                 repeat split; try done; apply not_elem_of_nil);
           unfold served_entry;
           rewrite ?(bool_decide_true (_ ∈ numeric_fields))
             by (unfold numeric_fields;
                 repeat (apply elem_of_cons; first [left; reflexivity | right]));
           rewrite ?(bool_decide_false (_ ∈ numeric_fields))
             by (unfold numeric_fields; rewrite !not_elem_of_cons;
                 repeat split; try done; apply not_elem_of_nil);
           rewrite ?get_insert_eq, ?get_insert_ne by done;
           rewrite ?numeric_clean_idem;
           rewrite get_fold_added, Hhas, has_column_scored;
           rewrite (bool_decide_true (_ ∈ required_fields))
             by (unfold required_fields;
                 repeat (apply elem_of_cons; first [left; reflexivity | right]));
           cbn [andb]|]).
  7: by apply elem_of_nil in Hk.
  all: try (rewrite (bool_decide_true (_ ∈ numeric_cols))
              by (unfold numeric_cols;
                  repeat (apply elem_of_cons; first [left; reflexivity | right]));
            rewrite orb_true_r; cbn [orb negb];
            rewrite get_scored_row_numeric
              by (unfold numeric_cols;
                  repeat (apply elem_of_cons; first [left; reflexivity | right]));
            reflexivity).
  all: rewrite (bool_decide_false (_ ∈ numeric_cols))
         by (unfold numeric_cols; rewrite !not_elem_of_cons;
             repeat split; try done; apply not_elem_of_nil);
       rewrite (bool_decide_false (_ = "score")) by done;
       rewrite !orb_false_r;
       rewrite get_scored_row_other
         by (try done; unfold numeric_cols; rewrite !not_elem_of_cons;
             repeat split; try done; apply not_elem_of_nil).
  - unfold text_field. by destruct (has_column cand "Food").
  - unfold text_field. by destruct (has_column cand "Category").
  - unfold amount. destruct (has_column cand "Carbs"); cbn [negb].
    + apply numeric_clean_amount.
    + reflexivity.
Qed.

Lemma sorted_map_inv {A B} (f : A → B) (R : relation B) (R' : relation A) l :
  (∀ x y, R (f x) (f y) → R' x y) →
  Sorted R (map f l) → Sorted R' l.
Proof.
  intros Himp. induction l as [|a l IH]; intros Hs; [constructor|].
  cbn [map] in Hs. apply Sorted_inv in Hs as [Hs Hhd].
  constructor; [by apply IH|].
  destruct l as [|b l]; [constructor|]. cbn [map] in Hhd.
  apply HdRel_inv in Hhd. constructor. by apply Himp.
Qed.

Lemma score_scored_row `{Impl} df r : score (scored_row df r) = score_of df r.
Proof. unfold score, float_key. by rewrite get_scored_row. Qed.

(** X11. The result is the ranking it is meant to be: when no score
    overflows, there is a rearrangement of the candidate rows along which
    the score, computed in [float64], never increases, and the rows of the
    result are its first ten, each showing the candidate's Food and
    Category as they are (empty text when the column is absent) and its
    Protein, Fat, Carbs and Calories as numbers (0 when absent, missing or
    unparseable). *)
Theorem served_in_score_order (I : Impl) (h : list DataFrame) food cat c :
  sort_contract I →
  h !! food = Some cat →
  Forall (no_overflow (candidates c cat)) (rows (candidates c cat)) →
  ∃ l h' out ordered,
    get_cluster_recommendations food c h
    = inr ((Policy.profile_name c, Policy.recommendation_type c, l), h')
    ∧ h' !! l = Some out
    ∧ ordered ≡ₚ rows (candidates c cat)
    ∧ Sorted (λ x y, (score_of (candidates c cat) y
                      <= score_of (candidates c cat) x)%Q) ordered
    ∧ rows out = map (served_row (candidates c cat)) (take 10 ordered).
Proof.
  intros HI E _.
  destruct (get_cluster_recommendations_run h food cat c E) as (l & h' & R & El & _).
  set (cand := candidates c cat).
  destruct (sort_desc_sorted I "score" (scored cand) HI (scored_score_num cand))
    as [Hp Hs].
  rewrite rows_scored in Hp.
  apply Permutation_map_inv in Hp as (ordered & Hrows & Hperm).
  exists l, h', (recommended_foods c cat), ordered.
  split; [done|]. split; [done|]. split; [by symmetry|]. split.
  - rewrite Hrows in Hs. revert Hs. apply sorted_map_inv.
    intros x y. fold (score (scored_row cand y)) (score (scored_row cand x)).
    by rewrite !score_scored_row.
  - unfold recommended_foods. fold cand. rewrite rows_projected.
    unfold ranked at 2, head_rows. cbn [rows]. rewrite Hrows.
    rewrite firstn_map, map_map. apply map_ext. intros r.
    by apply projected_scored_row.
Qed.

Lemma served_in_score_order_witness :
  ∃ l h' out ordered,
    get_cluster_recommendations (H := first_wins) 0 0 [clustered]
    = inr ((Policy.profile_name 0, Policy.recommendation_type 0, l), h')
    ∧ h' !! l = Some out
    ∧ ordered ≡ₚ rows (candidates (H := first_wins) 0 clustered)
    ∧ Sorted (λ x y, (score_of (H := first_wins) (candidates (H := first_wins) 0 clustered) y
                      <= score_of (H := first_wins) (candidates (H := first_wins) 0 clustered) x)%Q) ordered
    ∧ rows out
      = map (served_row (H := first_wins) (candidates (H := first_wins) 0 clustered))
          (take 10 ordered).
Proof.
  apply (served_in_score_order first_wins [clustered] 0 clustered 0).
  - apply first_wins_contract.
  - reflexivity.
  - repeat constructor; by vm_compute.
Defined.

Lemma strongly_sorted_lookup {A} (R : relation A) (l : list A) i j a b :
  StronglySorted R l → l !! i = Some a → l !! j = Some b → i < j → R a b.
Proof.
  intros Hs. revert i j. induction Hs as [|x l Hs IH Hall]; intros i j Hi Hj Hlt.
  - by rewrite lookup_nil in Hi.
  - destruct j as [|j]; [lia|]. destruct i as [|i].
    + injection Hi as <-. cbn in Hj. rewrite Forall_forall in Hall.
      apply Hall, list_elem_of_lookup. eauto.
    + cbn in Hi, Hj. apply (IH i j); [done|done|lia].
Qed.

Lemma dominating_scores_higher `{Impl} df a b :
  (amount df b "Protein" <= amount df a "Protein")%Q →
  (amount df a "Fat" <= amount df b "Fat")%Q →
  (amount df a "Calories" <= amount df b "Calories")%Q →
  (score_of df b <= score_of df a)%Q.
Proof.
  unfold score_of. intros Hp Hf Hc.
  apply Float64Facts.sub_mono; [apply Float64Facts.sub_mono|].
  - by apply Float64Facts.mul_mono_l.
  - by apply Float64Facts.mul_mono_l.
  - by apply Float64Facts.div_mono_l.
Qed.

(** X12. The score never rewards less protein, more fat or more calories,
    whatever the rounding: when no score overflows, a candidate with at
    least as much protein, no more fat and no more calories than another
    has a score at least as high, so in the ranking the result is cut
    from it stands after the other only when the two scores are equal. *)
Theorem dominating_food_scores_no_lower (I : Impl) (h : list DataFrame) food cat c :
  sort_contract I →
  h !! food = Some cat →
  Forall (no_overflow (candidates c cat)) (rows (candidates c cat)) →
  ∃ l h' out ordered,
    get_cluster_recommendations food c h
    = inr ((Policy.profile_name c, Policy.recommendation_type c, l), h')
    ∧ h' !! l = Some out
    ∧ ordered ≡ₚ rows (candidates c cat)
    ∧ rows out = map (served_row (candidates c cat)) (take 10 ordered)
    ∧ ∀ i j a b,
        ordered !! i = Some a → ordered !! j = Some b →
        (amount (candidates c cat) b "Protein"
         <= amount (candidates c cat) a "Protein")%Q →
        (amount (candidates c cat) a "Fat"
         <= amount (candidates c cat) b "Fat")%Q →
        (amount (candidates c cat) a "Calories"
         <= amount (candidates c cat) b "Calories")%Q →
        (score_of (candidates c cat) b <= score_of (candidates c cat) a)%Q
        ∧ (j < i →
           (score_of (candidates c cat) a == score_of (candidates c cat) b)%Q).
Proof.
  intros HI E _.
  destruct (get_cluster_recommendations_run h food cat c E) as (l & h' & R & El & _).
  set (cand := candidates c cat).
  destruct (sort_desc_sorted I "score" (scored cand) HI (scored_score_num cand))
    as [Hp Hs].
  rewrite rows_scored in Hp.
  apply Permutation_map_inv in Hp as (ordered & Hrows & Hperm).
  exists l, h', (recommended_foods c cat), ordered.
  split; [done|]. split; [done|]. split; [by symmetry|]. split.
  { unfold recommended_foods. fold cand. rewrite rows_projected.
    unfold ranked at 2, head_rows. cbn [rows]. rewrite Hrows.
    rewrite firstn_map, map_map. apply map_ext. intros r.
    by apply projected_scored_row. }
  assert (StronglySorted (λ x y, (score_of cand y <= score_of cand x)%Q) ordered)
    as Hss.
  { apply Sorted_StronglySorted.
    - intros x y z Hxy Hyz. exact (Qle_trans _ _ _ Hyz Hxy).
    - rewrite Hrows in Hs. revert Hs. apply sorted_map_inv.
      intros x y. fold (score (scored_row cand y)) (score (scored_row cand x)).
      by rewrite !score_scored_row. }
  intros i j a b Hi Hj Hprot Hfat Hcal.
  pose proof (dominating_scores_higher cand a b Hprot Hfat Hcal) as Hle.
  split; [done|]. intros Hji.
  pose proof (strongly_sorted_lookup _ _ _ _ _ _ Hss Hj Hi Hji) as Hge.
  cbv beta in Hge. exact (Qle_antisym _ _ Hge Hle).
Qed.

Lemma dominating_food_scores_no_lower_witness :
  ∃ l h' out ordered,
    get_cluster_recommendations (H := last_wins) 0 2 [broccoli_bacon]
    = inr ((Policy.profile_name 2, Policy.recommendation_type 2, l), h')
    ∧ h' !! l = Some out
    ∧ ordered ≡ₚ rows (candidates (H := last_wins) 2 broccoli_bacon)
    ∧ rows out
      = map (served_row (H := last_wins) (candidates (H := last_wins) 2 broccoli_bacon))
          (take 10 ordered)
    ∧ ∀ i j a b,
        ordered !! i = Some a → ordered !! j = Some b →
        (amount (H := last_wins) (candidates (H := last_wins) 2 broccoli_bacon) b "Protein"
         <= amount (H := last_wins) (candidates (H := last_wins) 2 broccoli_bacon) a "Protein")%Q →
        (amount (H := last_wins) (candidates (H := last_wins) 2 broccoli_bacon) a "Fat"
         <= amount (H := last_wins) (candidates (H := last_wins) 2 broccoli_bacon) b "Fat")%Q →
        (amount (H := last_wins) (candidates (H := last_wins) 2 broccoli_bacon) a "Calories"
         <= amount (H := last_wins) (candidates (H := last_wins) 2 broccoli_bacon) b "Calories")%Q →
        (score_of (H := last_wins) (candidates (H := last_wins) 2 broccoli_bacon) b
         <= score_of (H := last_wins) (candidates (H := last_wins) 2 broccoli_bacon) a)%Q
        ∧ (j < i →
           (score_of (H := last_wins) (candidates (H := last_wins) 2 broccoli_bacon) a
            == score_of (H := last_wins) (candidates (H := last_wins) 2 broccoli_bacon) b)%Q).
Proof.
  apply (dominating_food_scores_no_lower last_wins [broccoli_bacon] 0 broccoli_bacon 2).
  - apply last_wins_contract.
  - reflexivity.
  - repeat constructor; by vm_compute.
Defined.

(** X13. Calls do not interfere: after a first call for any cluster, a
    second call returns what it would have returned from the initial store,
    and the frame the first call returned is still there, unchanged.  In
    particular two calls with the same cluster give equal frames. *)
Theorem calls_do_not_interfere (I : Impl) (h : list DataFrame) food cat c1 c2 :
  h !! food = Some cat →
  ∃ l1 l2 h2 out1 out2 la ha lb hb pa pb,
    (do a <- get_cluster_recommendations food c1;
     do b <- get_cluster_recommendations food c2;
     ret (a.2, b.2)) h = inr ((l1, l2), h2)
    ∧ h2 !! l1 = Some out1
    ∧ h2 !! l2 = Some out2
    ∧ get_cluster_recommendations food c1 h = inr ((pa, la), ha)
    ∧ ha !! la = Some out1
    ∧ get_cluster_recommendations food c2 h = inr ((pb, lb), hb)
    ∧ hb !! lb = Some out2.
Proof.
  intros E.
  destruct (get_cluster_recommendations_run h food cat c1 E)
    as (la & ha & Ra & Ea & Pa).
  destruct (get_cluster_recommendations_run h food cat c2 E)
    as (lb & hb & Rb & Eb & Pb).
  destruct (get_cluster_recommendations_run ha food cat c2 (Pa _ _ E))
    as (l2 & h2 & R2 & E2 & P2).
  exists la, l2, h2, (recommended_foods c1 cat), (recommended_foods c2 cat),
    la, ha, lb, hb,
    (Policy.profile_name c1, Policy.recommendation_type c1),
    (Policy.profile_name c2, Policy.recommendation_type c2).
  split; [|split; [by apply P2|split; [done|split; [exact Ra|]]]].
  - run_with Ra. cbn [snd]. run_with R2. done.
  - split; [done|]. split; [exact Rb|done].
Qed.

Lemma calls_do_not_interfere_witness :
  ∃ l1 l2 h2 out,
    (do a <- get_cluster_recommendations (H := first_wins) 0 0;
     do b <- get_cluster_recommendations (H := first_wins) 0 0;
     ret (a.2, b.2)) [clustered] = inr ((l1, l2), h2)
    ∧ h2 !! l1 = Some out
    ∧ h2 !! l2 = Some out.
Proof.
  destruct (calls_do_not_interfere first_wins [clustered] 0 clustered 0 0 eq_refl)
    as (l1 & l2 & h2 & out1 & out2 & la & ha & lb & hb & pa & pb
        & R & E1 & E2 & Ra & Ea & Rb & Eb).
  exists l1, l2, h2, out1. split; [exact R|]. split; [exact E1|].
  rewrite Ra in Rb. injection Rb as <- <- <-. rewrite Ea in Eb.
  injection Eb as <-. exact E2.
Defined.

(** X14. When the table has no [Cluster] column the cluster only chooses
    the two labels: the frame of recommended foods is the same for every
    cluster number. *)
Theorem foods_ignore_cluster_without_column (I : Impl) (h : list DataFrame)
    food cat c c' :
  h !! food = Some cat →
  has_column cat "Cluster" = false →
  ∃ l h1 l' h1' out,
    get_cluster_recommendations food c h
    = inr ((Policy.profile_name c, Policy.recommendation_type c, l), h1)
    ∧ h1 !! l = Some out
    ∧ get_cluster_recommendations food c' h
      = inr ((Policy.profile_name c', Policy.recommendation_type c', l'), h1')
    ∧ h1' !! l' = Some out.
Proof.
  intros E Hno.
  destruct (get_cluster_recommendations_run h food cat c E) as (l & h1 & R & El & _).
  destruct (get_cluster_recommendations_run h food cat c' E)
    as (l' & h1' & R' & El' & _).
  exists l, h1, l', h1', (recommended_foods c cat).
  do 3 (split; [done|]). rewrite El'. unfold recommended_foods, candidates.
  by rewrite Hno.
Qed.

Lemma foods_ignore_cluster_without_column_witness :
  ∃ l h1 l' h1' out,
    get_cluster_recommendations (H := first_wins) 0 0 [twins]
    = inr ((Policy.profile_name 0, Policy.recommendation_type 0, l), h1)
    ∧ h1 !! l = Some out
    ∧ get_cluster_recommendations (H := first_wins) 0 5 [twins]
      = inr ((Policy.profile_name 5, Policy.recommendation_type 5, l'), h1')
    ∧ h1' !! l' = Some out.
Proof.
  apply (foods_ignore_cluster_without_column first_wins [twins] 0 twins 0 5).
  - reflexivity.
  - by vm_compute.
Defined.

End EngineMore.

(* ===================================================================== *)
(** * The routes *)
(* ===================================================================== *)

Module RouteSpec.
Import Json Pandas Engine Frames Outcomes Routes.
Import FrameFacts RunFacts EngineFacts EngineSpec EngineMore ValidatorSpec ValidatorMore.
Import Reference.
Local Open Scope frame_scope.
Local Open Scope nat_scope.

Lemma projected_row_number `{Impl} df (r : gmap string cell) k :
  k ∈ numeric_fields → ∃ q, get (projected_row df r) k = Num q.
Proof.
  intros Hk. unfold get. rewrite lookup_projected_row.
  assert (k ∈ required_fields) as Hreq.
  { unfold numeric_fields in Hk. unfold required_fields.
    repeat (apply elem_of_cons in Hk as [->|Hk]; [in_list|]).
    by apply elem_of_nil in Hk. }
  rewrite (bool_decide_true (k ∈ required_fields)) by done. cbv zeta.
  rewrite (bool_decide_true (k ∈ numeric_fields)) by done. cbn [default].
  apply numeric_clean_number.
Qed.

Lemma format_food_kept (keys : list string) (food : gmap string value)
    (source : gmap string cell) :
  (∀ k, k ∈ keys →
        ∃ q, get source k = Num q ∧ food !! k = Some (JFloat (Finite q))) →
  format_food keys food source = Some food.
Proof.
  induction keys as [|k keys IH]; intros Hk; cbn [format_food]; [done|].
  destruct (Hk k) as (q & Hget & Hfood); [apply elem_of_cons; auto|].
  rewrite Hget. cbn [format_number]. rewrite insert_id by done.
  apply IH. intros k' Hk'. apply Hk, elem_of_cons. auto.
Qed.

Lemma lookup_record_of cols (r : gmap string cell) k :
  record_of cols r !! k
  = if bool_decide (k ∈ cols) then Some (to_python (get r k)) else None.
Proof.
  unfold record_of. induction cols as [|c cols IH]; cbn [map list_to_map foldr].
  - by rewrite lookup_empty, bool_decide_false by apply not_elem_of_nil.
  - rewrite lookup_insert. cbn [fst snd]. destruct (decide (c = k)) as [->|Hne].
    + rewrite bool_decide_true; [done|]. apply elem_of_cons. auto.
    + rewrite IH. rewrite (bool_decide_ext (k ∈ c :: cols) (k ∈ cols)); [done|].
      rewrite elem_of_cons. split; [by intros [?|?]|auto].
Qed.

(** Records whose numeric entries are numbers are sent as they are. *)
Lemma format_foods_numbers (rs : list (gmap string cell)) :
  (∀ r k, r ∈ rs → k ∈ numeric_fields → ∃ q, get r k = Num q) →
  format_foods rs = Some (map sent_food rs).
Proof.
  induction rs as [|r rs IH]; intros Hnum; cbn [format_foods map]; [done|].
  rewrite format_food_kept.
  - rewrite IH; [done|]. intros r' k Hr'. apply Hnum, elem_of_cons. auto.
  - intros k Hk. destruct (Hnum r k) as [q Hq]; [apply elem_of_cons; auto|done|].
    exists q. split; [done|]. rewrite lookup_record_of, Hq.
    rewrite bool_decide_true; [done|].
    unfold numeric_fields in Hk. unfold required_fields.
    repeat (apply elem_of_cons in Hk as [->|Hk]; [in_list|]).
    by apply elem_of_nil in Hk.
Qed.

Lemma sent_food_ext (r r' : gmap string cell) :
  (∀ k, k ∈ required_fields → get r' k = get r k) → sent_food r' = sent_food r.
Proof.
  intros Hext. unfold sent_food.
  by rewrite !Hext by (unfold required_fields; in_list).
Qed.

Lemma get_project_row cols (r : gmap string cell) k :
  k ∈ cols →
  get (list_to_map (map (λ c, (c, get r c)) cols) : gmap string cell) k = get r k.
Proof.
  intros Hk. unfold get at 1. by rewrite lookup_record, bool_decide_true.
Qed.

Lemma elem_of_rows_project cols df (r' : gmap string cell) :
  r' ∈ rows (project cols df)
  ↔ ∃ r, r' = list_to_map (map (λ c, (c, get r c)) cols) ∧ r ∈ rows df.
Proof.
  apply (LoaderMore.elem_of_map
           (λ r, list_to_map (map (λ c, (c, get r c)) cols))).
Qed.

Lemma recommended_rows_numbers `{Impl} c cat r k :
  r ∈ rows (recommended_foods c cat) → k ∈ numeric_fields →
  ∃ q, get r k = Num q.
Proof.
  intros Hr Hk. unfold recommended_foods in Hr. rewrite rows_projected in Hr.
  apply LoaderMore.elem_of_map in Hr as (r0 & -> & _).
  by apply projected_row_number.
Qed.

Lemma numeric_is_required k : k ∈ numeric_fields → k ∈ required_fields.
Proof.
  intros Hk. unfold numeric_fields in Hk. unfold required_fields.
  repeat (apply elem_of_cons in Hk as [->|Hk]; [in_list|]).
  by apply elem_of_nil in Hk.
Qed.

Lemma projected_rows_numbers `{Impl} c cat r' k :
  r' ∈ rows (project required_fields (recommended_foods c cat)) →
  k ∈ numeric_fields → ∃ q, get r' k = Num q.
Proof.
  intros (r & -> & Hr)%elem_of_rows_project Hk.
  rewrite get_project_row by by apply numeric_is_required.
  by apply (recommended_rows_numbers c cat).
Qed.

Lemma sent_projected_rows df :
  map sent_food (rows (project required_fields df)) = map sent_food (rows df).
Proof.
  unfold project. cbn [rows]. rewrite map_map. apply map_ext.
  intros r. apply sent_food_ext. intros k Hk. by apply get_project_row.
Qed.

Lemma format_recommended_foods `{Impl} c cat :
  format_foods (rows (project required_fields (recommended_foods c cat)))
  = Some (map sent_food (rows (recommended_foods c cat))).
Proof.
  rewrite format_foods_numbers.
  - f_equal. apply sent_projected_rows.
  - intros r' k. apply projected_rows_numbers.
Qed.

(** What lines 460-471 of [recommend] compute from the table. *)
Lemma recommended_records_run `{Impl} (h : list DataFrame) catalog cat c :
  h !! catalog = Some cat →
  ∃ l h0 h',
    get_cluster_recommendations catalog c h
    = inr ((Policy.profile_name c, Policy.recommendation_type c, l), h0)
    ∧ h0 !! l = Some (recommended_foods c cat)
    ∧ recommended_records catalog c h
      = inr ((Policy.profile_name c, Policy.recommendation_type c,
              rows (project required_fields (recommended_foods c cat))), h')
    ∧ preserved h h'.
Proof.
  intros E.
  destruct (get_cluster_recommendations_run h catalog cat c E)
    as (l & h0 & R & El & P).
  exists l, h0, (h0 ++ [project required_fields (recommended_foods c cat)]).
  split; [done|]. split; [done|]. split.
  - unfold recommended_records. run_with R. cbn [fst snd].
    assert (forallb (has_column (recommended_foods c cat)) required_fields = true)
      as Hcols.
    { apply forallb_forall. intros k Hk%list_elem_of_In.
      unfold has_column, recommended_foods. rewrite columns_projected.
      by apply bool_decide_eq_true. }
    run_with (getitem_list_run _ _ _ _ El Hcols).
    by run_with (read_run _ _ _ (lookup_new h0 _)).
  - eapply preserved_trans; [exact P | apply preserved_new].
Qed.

Lemma features_present (m : gmap string value) features :
  dom m = list_to_set Validator.REQUIRED_KEYS →
  (∀ f, f ∈ features → f ∈ Validator.REQUIRED_KEYS) →
  forallb (λ f, bool_decide (is_Some (m !! f))) features = true.
Proof.
  intros Hdom Hsub. apply forallb_forall. intros f Hf%list_elem_of_In.
  apply bool_decide_eq_true, required_present; auto.
Qed.

(** X15. A well-formed request is served: when the files are loaded, the
    features are among the required keys and the model answers cluster [c],
    the reply has status 200 and carries the labels of [c] and, in order,
    the rows of the frame [get_cluster_recommendations] returns for [c];
    the food table is unchanged afterwards. *)
Theorem well_formed_request_is_served (I : Impl) (g : Globals)
    (m : gmap string value) (h : list DataFrame)
    predict transform catalog cat vec c :
  model g = Some predict →
  preprocessor g = Some transform →
  food_df g = Some catalog →
  h !! catalog = Some cat →
  well_formed m →
  (∀ f, f ∈ features_list g → f ∈ Validator.REQUIRED_KEYS) →
  transform (omap (λ f, m !! f) (features_list g)) = Some vec →
  predict vec = Some c →
  ∃ l h0 out h',
    get_cluster_recommendations catalog c h
    = inr ((Policy.profile_name c, Policy.recommendation_type c, l), h0)
    ∧ h0 !! l = Some out
    ∧ recommend g (JObj m) h
      = (Recommendations (Policy.profile_name c) (Policy.recommendation_type c)
           (map sent_food (rows out)), 200%Z, h')
    ∧ h' !! catalog = Some cat.
Proof.
  intros Hmodel Hpre Hfood E Hwf Hsub Htransform Hpredict.
  destruct (recommended_records_run h catalog cat c E)
    as (l & h0 & h' & R & El & Rrec & P).
  exists l, h0, (recommended_foods c cat), h'.
  split; [done|]. split; [done|]. split; [|by apply P].
  unfold recommend. rewrite Hmodel, Hpre, Hfood.
  assert (Validator.validate_request (JObj m) = inr (true, None, 200%Z)) as ->.
  { apply accepted_iff_well_formed_aux. exact Hwf. }
  destruct Hwf as (Hdom & _).
  rewrite (features_present m _ Hdom Hsub), Htransform, Hpredict, Rrec.
  by rewrite format_recommended_foods.
Qed.

Lemma well_formed_request_is_served_witness :
  ∃ l h0 out h',
    get_cluster_recommendations (H := last_wins) 0 2 [clustered]
    = inr ((Policy.profile_name 2, Policy.recommendation_type 2, l), h0)
    ∧ h0 !! l = Some out
    ∧ recommend (H := last_wins) loaded (JObj plain_request) [clustered]
      = (Recommendations (Policy.profile_name 2) (Policy.recommendation_type 2)
           (map sent_food (rows out)), 200%Z, h')
    ∧ h' !! 0 = Some clustered.
Proof.
  apply (well_formed_request_is_served last_wins loaded plain_request [clustered]
           (λ _, Some 2%Z) (λ vs, Some (map (λ _, 0%Q) vs)) 0 clustered
           (map (λ _, 0%Q)
              (omap (λ f, plain_request !! f) Validator.REQUIRED_KEYS)) 2%Z);
    try reflexivity.
  - apply plain_request_well_formed.
  - intros f Hf. exact Hf.
Defined.

Lemma bind_fail {A B} (m : M A) (k : A → M B) (h : list DataFrame) e :
  m h = inl e → bind m k h = inl e.
Proof. unfold bind. by intros ->. Qed.

Lemma recommended_records_unbound `{Impl} (h : list DataFrame) catalog c :
  h !! catalog = None → recommended_records catalog c h = inl Unbound.
Proof.
  intros E. unfold recommended_records. apply bind_fail.
  unfold get_cluster_recommendations. cbv zeta. apply bind_fail.
  unfold select_candidates. apply bind_fail.
  unfold copy. apply bind_fail. unfold read. by rewrite E.
Qed.

Lemma preserved_refl (h : list DataFrame) : preserved h h.
Proof. by intros l df. Qed.

(** X16. Only a well-formed request is served: whenever [recommend]
    answers with status 200, the body it was given is an object that
    [validate_request] accepts, and the reply carries the two labels of one
    cluster together with a list of foods. *)
Theorem served_only_when_well_formed (I : Impl) (g : Globals) (data : value)
    (h : list DataFrame) :
  (recommend g data h).1.2 = 200%Z →
  ∃ m c foods,
    data = JObj m ∧ well_formed m
    ∧ (recommend g data h).1.1
      = Recommendations (Policy.profile_name c) (Policy.recommendation_type c)
          foods.
Proof.
  unfold recommend.
  destruct (model g) as [predict|]; [|done].
  destruct (preprocessor g) as [transform|]; [|done].
  destruct (food_df g) as [catalog|]; [|done].
  destruct (Validator.validate_request data) as [|[[[] e] s]] eqn:V; [done| |].
  - apply accepted_well_formed in V as (_ & _ & m & -> & Hwf).
    destruct (forallb _ _); [|done].
    destruct (transform _) as [vec|]; [|done].
    destruct (predict vec) as [c|]; [|done].
    destruct (h !! catalog) as [cat|] eqn:E.
    + destruct (recommended_records_run h catalog cat c E)
        as (l & h0 & h' & _ & _ & -> & _).
      rewrite format_recommended_foods. intros _. exists m, c. by eexists.
    + by rewrite (recommended_records_unbound h catalog c E).
  - apply rejected_status in V as ->. done.
Qed.

Lemma served_only_when_well_formed_witness :
  ∃ m c foods,
    JObj plain_request = JObj m ∧ well_formed m
    ∧ (recommend (H := last_wins) loaded (JObj plain_request) [clustered]).1.1
      = Recommendations (Policy.profile_name c) (Policy.recommendation_type c)
          foods.
Proof.
  apply (served_only_when_well_formed last_wins loaded (JObj plain_request)
           [clustered]).
  by vm_compute.
Defined.

(** X17. Whatever the module state and the body, [recommend] answers with
    status 200, 400 or 500 and leaves every frame that was in memory as it
    was: the food table is never changed by a request. *)
Theorem recommend_keeps_frames (I : Impl) (g : Globals) (data : value)
    (h : list DataFrame) :
  preserved h (recommend g data h).2
  ∧ ((recommend g data h).1.2 = 200%Z ∨ (recommend g data h).1.2 = 400%Z
     ∨ (recommend g data h).1.2 = 500%Z).
Proof.
  pose proof (preserved_refl h) as Hh.
  unfold recommend.
  destruct (model g) as [predict|]; [|by auto].
  destruct (preprocessor g) as [transform|]; [|by auto].
  destruct (food_df g) as [catalog|]; [|by auto].
  destruct (Validator.validate_request data) as [|[[[] e] s]] eqn:V;
    [by auto| |].
  - destruct data as [| | | | | |m]; try by auto.
    destruct (forallb _ _); [|by auto].
    destruct (transform _) as [vec|]; [|by auto].
    destruct (predict vec) as [c|]; [|by auto].
    destruct (h !! catalog) as [cat|] eqn:E.
    + destruct (recommended_records_run h catalog cat c E)
        as (l & h0 & h' & _ & _ & -> & P).
      rewrite format_recommended_foods. by auto.
    + rewrite (recommended_records_unbound h catalog c E). by auto.
  - apply rejected_status in V as ->. by auto.
Qed.

(** X18. The state of the server is looked at before the body: while the
    model, the preprocessor or the food table is missing, every request,
    well-formed or not, is answered with the models-not-loaded error and
    status 500. *)
Theorem unloaded_server_answers_500 (I : Impl) (g : Globals) (data : value)
    (h : list DataFrame) :
  model g = None ∨ preprocessor g = None ∨ food_df g = None →
  recommend g data h = (ModelsNotLoaded, 500%Z, h).
Proof.
  unfold recommend. intros [->| [->| ->]]; [done| |].
  - by destruct (model g).
  - by destruct (model g), (preprocessor g).
Qed.

Lemma unloaded_server_answers_500_witness :
  recommend (H := last_wins) not_loaded (JObj plain_request) [clustered]
  = (ModelsNotLoaded, 500%Z, [clustered]).
Proof.
  apply (unloaded_server_answers_500 last_wins not_loaded (JObj plain_request)
           [clustered]).
  left. reflexivity.
Defined.

(** X19. A body that is not a JSON object but is truthy (a non-empty
    array or string, a non-zero number, [true]) is not rejected with
    status 400: [.keys()] raises inside [validate_request], the handler of
    [recommend] catches it and the answer has status 500. *)
Theorem non_object_body_answers_500 (I : Impl) (g : Globals) (data : value)
    (h : list DataFrame) :
  is_Some (model g) → is_Some (preprocessor g) → is_Some (food_df g) →
  truthy data = true → (∀ m, data ≠ JObj m) →
  recommend g data h = (ErrorDuringRecommendation, 500%Z, h).
Proof.
  intros [predict Hm] [transform Hp] [catalog Hf] Ht Hno.
  unfold recommend. rewrite Hm, Hp, Hf.
  by rewrite (not_object_raises data Ht Hno).
Qed.

Lemma non_object_body_answers_500_witness :
  recommend (H := last_wins) loaded (JArr [JInt 1]) [clustered]
  = (ErrorDuringRecommendation, 500%Z, [clustered]).
Proof.
  apply (non_object_body_answers_500 last_wins loaded (JArr [JInt 1])
           [clustered]);
    [by eexists | by eexists | by eexists | reflexivity | discriminate].
Defined.

(** X20. A falsy body ([null], [false], [0], an empty string, array or
    object) is answered with the no-data error and status 400 once the
    files are loaded. *)
Theorem empty_body_answers_400 (I : Impl) (g : Globals) (data : value)
    (h : list DataFrame) :
  is_Some (model g) → is_Some (preprocessor g) → is_Some (food_df g) →
  truthy data = false →
  recommend g data h = (Rejected (Some Validator.NoData), 400%Z, h).
Proof.
  intros [predict Hm] [transform Hp] [catalog Hf] Ht.
  unfold recommend. rewrite Hm, Hp, Hf.
  unfold Validator.validate_request. by rewrite Ht.
Qed.

Lemma empty_body_answers_400_witness :
  recommend (H := last_wins) loaded (JObj ∅) [clustered]
  = (Rejected (Some Validator.NoData), 400%Z, [clustered]).
Proof.
  apply (empty_body_answers_400 last_wins loaded (JObj ∅) [clustered]);
    [by eexists | by eexists | by eexists | reflexivity].
Defined.

(** X21. When the list of training features names a column that is not
    one of the required keys, no request can be served: a well-formed
    request passes validation and is then answered with the
    invalid-feature error and status 400. *)
Theorem unknown_feature_answers_400 (I : Impl) (g : Globals)
    (m : gmap string value) (h : list DataFrame) f :
  is_Some (model g) → is_Some (preprocessor g) → is_Some (food_df g) →
  well_formed m →
  f ∈ features_list g → f ∉ Validator.REQUIRED_KEYS →
  recommend g (JObj m) h = (InvalidFeature, 400%Z, h).
Proof.
  intros [predict Hm] [transform Hp] [catalog Hf] Hwf Hin Hnot.
  unfold recommend. rewrite Hm, Hp, Hf.
  rewrite (accepted_iff_well_formed_aux m Hwf).
  destruct Hwf as (Hdom & _).
  destruct (forallb _ _) eqn:Hall; [|done].
  rewrite forallb_forall in Hall.
  specialize (Hall f (proj1 (list_elem_of_In _ _) Hin)).
  apply bool_decide_eq_true, elem_of_dom in Hall.
  rewrite Hdom, elem_of_list_to_set in Hall. by destruct Hnot.
Qed.

Lemma unknown_feature_answers_400_witness :
  recommend (H := last_wins) loaded_with_weight (JObj plain_request) [clustered]
  = (InvalidFeature, 400%Z, [clustered]).
Proof.
  apply (unknown_feature_answers_400 last_wins loaded_with_weight plain_request
           [clustered] "Weight"); [by eexists | by eexists | by eexists | | |].
  - apply plain_request_well_formed.
  - unfold loaded_with_weight. cbn [features_list]. in_list.
  - unfold Validator.REQUIRED_KEYS. intros Hin.
    repeat (apply elem_of_cons in Hin as [Hin|Hin]; [discriminate|]).
    by apply elem_of_nil in Hin.
Defined.

Ltac allowed_entry H :=
  unfold Validator.ALLOWED_VALUES in H;
  repeat (apply elem_of_cons in H as [H|H]; [try discriminate; injection H as <-|]);
  try (by apply elem_of_nil in H).

(** X22. The schema that [api_schema] publishes is sufficient: a record
    whose keys are the listed ones, whose fields typed as categorical hold
    an allowed string and whose other fields hold a JSON number a double
    can hold is accepted by [validate_request]. *)
Theorem schema_records_are_accepted (m : gmap string value) :
  follows_schema api_schema.1 m →
  Validator.validate_request (JObj m) = inr (true, None, 200%Z).
Proof.
  intros (Hdom & Htypes). apply accepted_iff_well_formed_aux.
  split; [done|]. split.
  - unfold Validator.ALLOWED_VALUES.
    repeat (constructor;
      [match goal with
       | |- categorical_ok _ (?k, _) =>
           destruct (Htypes k "string (categorical)")
             as (v & Hv & s & allowed & -> & Hallowed & Hs);
           [unfold field_types; in_list|];
           exists s; cbn [fst snd]; split; [done|];
           allowed_entry Hallowed; done
       end|]).
    constructor.
  - assert (∀ k t, (k, t) ∈ field_types → t ≠ "string (categorical)" →
                   numeric_ok m k) as Hnum.
    { intros k t Hin Ht. destruct (Htypes k t Hin) as (v & Hv & Hty).
      rewrite bool_decide_false in Hty by done. exists v. split; [done|].
      destruct Hty as [(z & -> & Hz)|(x & ->)]; cbn [PyFloat.float_];
        [by rewrite Hz|done]. }
    unfold Validator.numeric_fields.
    repeat (constructor;
      [first [ eapply (Hnum _ "number (integer)");
                 [unfold field_types; solve [in_list] | done]
             | eapply (Hnum _ "number (float)");
                 [unfold field_types; solve [in_list] | done] ]|]).
    constructor.
Qed.

Lemma schema_records_are_accepted_witness :
  Validator.validate_request (JObj typed_request) = inr (true, None, 200%Z).
Proof.
  apply (schema_records_are_accepted typed_request).
  split; [unfold typed_request; keys_of_fields|].
  intros k t Hin. unfold field_types in Hin.
  repeat (apply elem_of_cons in Hin as [[= -> ->]|Hin];
    [eexists; split; [by vm_compute|]; cbn [bool_decide decide_rel];
     first [ left; eexists; split; reflexivity
           | right; eexists; reflexivity
           | do 2 eexists; split; [reflexivity|]; split;
             [unfold Validator.ALLOWED_VALUES; in_list | in_list] ]|]).
  by apply elem_of_nil in Hin.
Defined.

End RouteSpec.
